(** * financial-service: ledger, payout calculator, leaderboard and closure saga

    A shallow embedding of the money-handling core of the service
    ([services/balanceService.ts], [services/payoutService.ts],
    [services/prizeService.ts], [sagas/campaignClosure.ts] and the
    [campaign.funded] consumer of [events/handlers.ts]) together with the
    properties the specification states about it.  The embedding also
    covers [services/transactionService.ts], [sagas/clipApproval.ts], the
    [clip.approved] consumer and the funding route of [routes/funding.ts];
    answers of the campaign and clip services are arguments of the
    functions that fetch them.

    Modelling conventions.
    - The Prisma store is an explicit record [Store]; every service function
      is a computation [M A := Store -> Result A] that either returns a value
      with the next store or throws with the store reached so far.
      [prisma.$transaction] rolls the store back when its body throws.
    - Numbers.  Every amount of the code is a JavaScript [number], an
      IEEE-754 binary64 value, and the embedding reads it twice.  The main
      embedding takes ledger amounts as whole currency units ([Z]) and the
      inputs of the payout calculator as exact rationals ([Q]); it carries
      the properties that do not depend on how a sum or a product is
      rounded: which guard fires, which rows are written and appended, how
      the sagas and batch operations compose.  Module [binary64] repeats the
      ledger, step 2 of the closure saga and [calculateClipPayment] over
      binary64 numbers as the standard library specifies them ([Number]:
      NaN, signed zeros, round to nearest even); every property that
      depends on rounding or on NaN is stated there.
    - A storage query that orders by a column leaves the order of rows
      that agree on that column to the storage.  [prisma] answers with such
      rows in insertion order, one of the admissible answers; what is
      claimed of [finalizeLeaderboard]'s ranks is stated for every
      admissible answer ([scoreDescending]).
    - The [Balance] table is keyed by its unique [userId] and is a finite
      map; the append-only [Transaction] table and the leaderboard table are
      lists in insertion order; a JavaScript [Map] is an association list in
      insertion order, which is also its iteration order.
    - Row identifiers generated by the storage layer are the row's position
      in its table; [createdAt] timestamps are not modelled. *)

From Stdlib Require Import ZArith QArith Qround Lqa List String Lia Sorted.
From Stdlib Require Import SpecFloat.
From stdpp Require Import gmap strings list fin_maps pretty.

Local Open Scope string_scope.
Local Open Scope list_scope.
Local Open Scope Z_scope.

(* ===================================================================== *)
(** ** Data model (prisma/schema) *)
(* ===================================================================== *)

Inductive TransactionType := DEPOSIT | RESERVATION | PAYOUT | REFUND | FUNDING.

#[global] Instance TransactionType_eq_dec : EqDecision TransactionType.
Proof. solve_decision. Defined.

Record Balance := mkBalance {
  bal_userId : string;
  available : Z;
  pending : Z
}.

Record Transaction := mkTransaction {
  tx_id : nat;
  tx_userId : string;
  tx_campaignId : option string;
  tx_amount : Z;
  tx_type : TransactionType;
  tx_description : string
}.

Record LeaderboardEntry := mkLeaderboardEntry {
  le_id : nat;
  le_campaignId : string;
  le_editorId : string;
  le_submissionId : string;
  le_views : Z;
  le_likes : Z;
  le_engagement : Z;
  le_score : Z;
  le_rank : Z
}.

(** A leaderboard row with its rank replaced ([data: { rank }]). *)
Definition withRank (rank : Z) (e : LeaderboardEntry) : LeaderboardEntry :=
  mkLeaderboardEntry (le_id e) (le_campaignId e) (le_editorId e)
    (le_submissionId e) (le_views e) (le_likes e) (le_engagement e)
    (le_score e) rank.

Record PrizeDistribution := mkPrizeDistribution {
  pd_campaignId : string;
  pd_position : Z;
  pd_reward : Z;
  pd_label : string
}.

(** [logAudit] serialises its details with [JSON.stringify]; the fields are
    kept structured here. *)
Inductive AuditValue := AStr (s : string) | ANum (n : Z).

Record AuditLog := mkAuditLog {
  al_userId : string;
  al_action : string;
  al_details : list (string * AuditValue)
}.

(** Domain events of the [@clipdeck/events] package, by constructor. *)
Inductive Event :=
| balanceChanged (userId : string)
    (oldAvailable newAvailable oldPending newPending : Z) (reason : string)
| reserved (clipId userId campaignId : string) (amount : Z)
| released (userId campaignId : string) (amount : Z) (transactionId : nat)
| prizeDistributed (campaignId editorId : string) (position amount : Z)
    (clipId : string).

Definition SERVICE_NAME : string := "financial-service".

(** Modelled from the spec: [lib/errors] is not part of the sources; its two
    constructors used by the ledger are [badRequest] and [notFound], each
    carrying its message.  [prismaError] stands for a failure raised by the
    storage client itself (missing row on update, unique key on create). *)
Inductive AppError :=
| badRequest (msg : string)
| notFound (msg : string)
| prismaError (msg : string).

(** The spec's names for the ledger's failures. *)
Definition InvalidAmount : AppError := badRequest "Amount must be positive".
Definition InsufficientPending : AppError :=
  badRequest "Insufficient pending balance".
Definition NotFound (userId : string) : AppError :=
  notFound ("Balance not found for user " +:+ userId).

Record Store := mkStore {
  balance : gmap string Balance;
  transaction : list Transaction;
  leaderboardEntry : list LeaderboardEntry;
  prizeDistribution : list PrizeDistribution;
  auditLog : list AuditLog;
  published : list (Event * string)
}.

Definition set_balance (f : gmap string Balance -> gmap string Balance)
    (s : Store) : Store :=
  mkStore (f (balance s)) (transaction s) (leaderboardEntry s)
          (prizeDistribution s) (auditLog s) (published s).

Definition set_transaction (f : list Transaction -> list Transaction)
    (s : Store) : Store :=
  mkStore (balance s) (f (transaction s)) (leaderboardEntry s)
          (prizeDistribution s) (auditLog s) (published s).

Definition set_leaderboardEntry
    (f : list LeaderboardEntry -> list LeaderboardEntry) (s : Store) : Store :=
  mkStore (balance s) (transaction s) (f (leaderboardEntry s))
          (prizeDistribution s) (auditLog s) (published s).

Definition set_auditLog (f : list AuditLog -> list AuditLog)
    (s : Store) : Store :=
  mkStore (balance s) (transaction s) (leaderboardEntry s)
          (prizeDistribution s) (f (auditLog s)) (published s).

Definition set_published (f : list (Event * string) -> list (Event * string))
    (s : Store) : Store :=
  mkStore (balance s) (transaction s) (leaderboardEntry s)
          (prizeDistribution s) (auditLog s) (f (published s)).

(* ===================================================================== *)
(** ** Computations over the store *)
(* ===================================================================== *)

Inductive Result (A : Type) :=
| Ok (a : A) (s : Store)
| Throw (e : AppError) (s : Store).
Arguments Ok {A} a s.
Arguments Throw {A} e s.

Definition M (A : Type) : Type := Store -> Result A.

Definition ret {A} (a : A) : M A := fun s => Ok a s.

Definition throw {A} (e : AppError) : M A := fun s => Throw e s.

Definition bind {A B} (m : M A) (k : A -> M B) : M B :=
  fun s => match m s with
           | Ok a s' => k a s'
           | Throw e s' => Throw e s'
           end.

Notation "'let*' x ':=' m 'in' k" := (bind m (fun x => k))
  (at level 10, x name, m at level 100, k at level 200).
Notation "m ';;' k" := (bind m (fun _ => k))
  (at level 100, k at level 200, right associativity).

(** [try { m } catch (error) { h error }]: the handler runs on the store as
    the failed body left it. *)
Definition tryCatch {A} (m : M A) (h : AppError -> M A) : M A :=
  fun s => match m s with
           | Ok a s' => Ok a s'
           | Throw e s' => h e s'
           end.

(** The store a computation leaves behind, whether it returned or threw. *)
Definition storeAfter {A} (r : Result A) : Store :=
  match r with Ok _ s => s | Throw _ s => s end.

Definition succeeded {A} (r : Result A) : bool :=
  match r with Ok _ _ => true | Throw _ _ => false end.

(** A stable sort: [before y x] says that [y] must come strictly before
    [x]; elements the ordering does not separate keep their relative order. *)
Fixpoint insertBy {A} (before : A -> A -> bool) (x : A) (l : list A)
    : list A :=
  match l with
  | [] => [x]
  | y :: l' => if before y x then y :: insertBy before x l' else x :: y :: l'
  end.

Definition stableSort {A} (before : A -> A -> bool) (l : list A) : list A :=
  foldr (insertBy before) [] l.

(** The storage client. *)
Module prisma.

(** [$transaction]: all-or-nothing; a throwing body leaves the store as it
    was on entry. *)
Definition transaction_ {A} (body : M A) : M A :=
  fun s => match body s with
           | Ok a s' => Ok a s'
           | Throw e _ => Throw e s
           end.

Module balance.

Definition findUnique (userId : string) : M (option Balance) :=
  fun s => Ok (balance s !! userId) s.

Definition create (data : Balance) : M Balance :=
  fun s => match balance s !! bal_userId data with
           | Some _ => Throw (prismaError "Unique constraint failed") s
           | None => Ok data (set_balance <[bal_userId data := data]> s)
           end.

Definition update (userId : string) (data : Balance -> Balance)
    : M Balance :=
  fun s => match balance s !! userId with
           | Some b => Ok (data b) (set_balance <[userId := data b]> s)
           | None => Throw (prismaError "Record to update not found") s
           end.

Definition upsert (userId : string) (create : Balance)
    (update : Balance -> Balance) : M Balance :=
  fun s => match balance s !! userId with
           | Some b => Ok (update b) (set_balance <[userId := update b]> s)
           | None => Ok create (set_balance <[userId := create]> s)
           end.

End balance.

Module transaction.

(** Rows are appended; the new row's identifier is its position. *)
Definition create (userId : string) (campaignId : option string)
    (amount : Z) (type : TransactionType) (description : string)
    : M Transaction :=
  fun s =>
    let t := mkTransaction (length (transaction s)) userId campaignId
                           amount type description in
    Ok t (set_transaction (fun l => l ++ [t]) s).

(** [findMany({ where: { campaignId, type } })], in insertion order. *)
Definition findMany (campaignId : string) (type : TransactionType)
    : M (list Transaction) :=
  fun s =>
    Ok (filter (fun t => tx_campaignId t = Some campaignId
                         /\ tx_type t = type) (transaction s)) s.

End transaction.

Module leaderboardEntry.

(** [findMany({ where: { campaignId }, orderBy })]: the campaign's rows,
    sorted by [before].  The query names no second sort key, so the order
    of rows the ordering does not separate is the storage's choice; this
    definition answers with them in insertion order. *)
Definition findMany (campaignId : string)
    (before : LeaderboardEntry -> LeaderboardEntry -> bool)
    : M (list LeaderboardEntry) :=
  fun s =>
    Ok (stableSort before
          (filter (fun e => le_campaignId e = campaignId)
                  (leaderboardEntry s))) s.

(** [update({ where: { id }, data })]. *)
Definition update (id : nat) (data : LeaderboardEntry -> LeaderboardEntry)
    : M unit :=
  fun s =>
    if existsb (fun e => Nat.eqb (le_id e) id) (leaderboardEntry s)
    then Ok tt (set_leaderboardEntry
                  (map (fun e => if Nat.eqb (le_id e) id then data e else e))
                  s)
    else Throw (prismaError "Record to update not found") s.

(** [upsert({ where: { submissionId }, create, update })]; [create] receives
    the identifier of the new row. *)
Definition upsert (submissionId : string)
    (create : nat -> LeaderboardEntry)
    (update : LeaderboardEntry -> LeaderboardEntry)
    : M LeaderboardEntry :=
  fun s =>
    match List.find (fun e => String.eqb (le_submissionId e) submissionId)
                    (leaderboardEntry s) with
    | Some e =>
        Ok (update e)
           (set_leaderboardEntry
              (map (fun e' => if String.eqb (le_submissionId e') submissionId
                              then update e' else e')) s)
    | None =>
        let e := create (length (leaderboardEntry s)) in
        Ok e (set_leaderboardEntry (fun l => l ++ [e]) s)
    end.

End leaderboardEntry.

Module prizeDistribution.

(** [findMany({ where: { campaignId }, orderBy: { position: 'asc' } })]. *)
Definition findMany (campaignId : string) : M (list PrizeDistribution) :=
  fun s =>
    Ok (stableSort (fun a b => pd_position a <? pd_position b)
          (filter (fun p => pd_campaignId p = campaignId)
                  (prizeDistribution s))) s.

End prizeDistribution.

Module auditLog.

Definition create (userId action : string)
    (details : list (string * AuditValue)) : M unit :=
  fun s => Ok tt (set_auditLog
                    (fun l => l ++ [mkAuditLog userId action details]) s).

End auditLog.

End prisma.

(** The event bus accepts every event (fire and forget). *)
Module publisher.

Definition publish (e : Event * string) : M unit :=
  fun s => Ok tt (set_published (fun l => l ++ [e]) s).

End publisher.

(** [middleware/auditLog.ts]: best effort, never throws. *)
Definition logAudit (userId action : string)
    (details : list (string * AuditValue)) : M unit :=
  tryCatch (prisma.auditLog.create userId action details)
           (fun _ => ret tt).

(* ===================================================================== *)
(** ** services/balanceService.ts *)
(* ===================================================================== *)

Module balanceService.

Definition getBalance (userId : string) : M Balance :=
  let* balance := prisma.balance.findUnique userId in
  match balance with
  | Some b => ret b
  | None => prisma.balance.create (mkBalance userId 0 0)
  end.

Definition addFunds (userId : string) (amount : Z)
    (campaignId : option string) (description : option string)
    : M (Balance * Transaction) :=
  if amount <=? 0 then throw InvalidAmount else
  let* result := prisma.transaction_ (
    let* balance := prisma.balance.upsert userId
        (mkBalance userId amount 0)
        (fun b => mkBalance (bal_userId b) (available b + amount)
                            (pending b)) in
    let* transaction := prisma.transaction.create userId campaignId amount
        DEPOSIT (default "Funds added" description) in
    ret (balance, transaction)) in
  publisher.publish
    (balanceChanged userId
       (available (fst result) - amount) (available (fst result))
       (pending (fst result)) (pending (fst result))
       (default "Funds added" description), SERVICE_NAME) ;;
  ret result.

Definition reserveFunds (userId : string) (amount : Z)
    (campaignId : string) (description : string)
    : M (Balance * Transaction) :=
  if amount <=? 0 then throw InvalidAmount else
  let* result := prisma.transaction_ (
    let* current := prisma.balance.findUnique userId in
    match current with
    | None => let* _ := prisma.balance.create (mkBalance userId 0 0) in
              ret tt
    | Some _ => ret tt
    end ;;
    let* balance := prisma.balance.update userId
        (fun b => mkBalance (bal_userId b) (available b)
                            (pending b + amount)) in
    let* transaction := prisma.transaction.create userId (Some campaignId)
        amount RESERVATION description in
    ret (balance, transaction)) in
  publisher.publish (reserved "" userId campaignId amount, SERVICE_NAME) ;;
  ret result.

Definition releasePending (userId : string) (amount : Z)
    (campaignId : string) (description : string)
    : M (Balance * Transaction) :=
  if amount <=? 0 then throw InvalidAmount else
  let* result := prisma.transaction_ (
    let* current := prisma.balance.findUnique userId in
    match current with
    | None => throw (NotFound userId)
    | Some current =>
      if pending current <? amount then throw InsufficientPending else
      let* balance := prisma.balance.update userId
          (fun b => mkBalance (bal_userId b) (available b + amount)
                              (pending b - amount)) in
      let* transaction := prisma.transaction.create userId (Some campaignId)
          amount PAYOUT description in
      ret (balance, transaction)
    end) in
  publisher.publish
    (released userId campaignId amount (tx_id (snd result)),
     SERVICE_NAME) ;;
  ret result.

Definition refundToCreator (userId : string) (amount : Z)
    (campaignId : string) (description : string)
    : M (Balance * Transaction) :=
  if amount <=? 0 then throw InvalidAmount else
  let* result := prisma.transaction_ (
    let* balance := prisma.balance.upsert userId
        (mkBalance userId amount 0)
        (fun b => mkBalance (bal_userId b) (available b + amount)
                            (pending b)) in
    let* transaction := prisma.transaction.create userId (Some campaignId)
        amount REFUND description in
    ret (balance, transaction)) in
  publisher.publish
    (balanceChanged userId
       (available (fst result) - amount) (available (fst result))
       (pending (fst result)) (pending (fst result))
       description, SERVICE_NAME) ;;
  ret result.

End balanceService.

(* ===================================================================== *)
(** ** services/payoutService.ts *)
(* ===================================================================== *)

Module payoutService.

Record ClipPaymentInput := mkClipPaymentInput {
  views : Q;
  paymentType : string;
  basePay : Q;
  rewardPerView : Q;
  limitPerClip : option Q
}.

(** [Math.round]: the nearest integer, halves towards plus infinity. *)
Definition Math_round (x : Q) : Z := Qfloor (x + (1 # 2))%Q.

Definition Qgtb (x y : Q) : bool := negb (Qle_bool x y).

(** The amount selected by the [switch] on the payment type. *)
Definition baseAmount (input : ClipPaymentInput) : Q :=
  if String.eqb (paymentType input) "FIXED" then basePay input
  else if String.eqb (paymentType input) "PAY_PER_VIEW"
       then (views input * rewardPerView input)%Q
  else if String.eqb (paymentType input) "HYBRID"
       then (basePay input + views input * rewardPerView input)%Q
  else 0%Q.

(** [limitPerClip && limitPerClip > 0 && amount > limitPerClip]. *)
Definition limitApplies (limitPerClip : option Q) (amount : Q) : bool :=
  match limitPerClip with
  | None => false
  | Some l => negb (Qeq_bool l 0) && Qgtb l 0 && Qgtb amount l
  end.

Definition calculateClipPayment (input : ClipPaymentInput) : Z :=
  let amount := baseAmount input in
  let amount :=
    if limitApplies (limitPerClip input) amount
    then default 0%Q (limitPerClip input) else amount in
  Math_round amount.

(** *** Campaign payments *)

Record CampaignData := mkCampaignData {
  cd_id : string;
  cd_title : string;
  cd_createdBy : string;
  cd_paymentType : string;
  cd_basePay : Q;
  cd_rewardPerView : Q;
  cd_limitPerClip : option Q;
  cd_totalBudget : Q;
  cd_spentBudget : Q;
  cd_isFunded : bool
}.

Record ClipData := mkClipData {
  pc_id : string;
  pc_userId : string;
  pc_campaignId : string;
  pc_views : Q;
  pc_status : string
}.

Record EditorPayment := mkEditorPayment {
  ep_editorId : string;
  ep_clipId : string;
  ep_views : Q;
  ep_grossAmount : Z;
  ep_platformFee : Z;
  ep_netAmount : Z
}.

(** What the campaign service answered: [None] when the response was not
    [ok]. *)
Definition fetchCampaignData (response : option CampaignData)
    (campaignId : string) : M CampaignData :=
  match response with
  | None => throw (notFound ("Campaign " +:+ campaignId +:+ " not found"))
  | Some campaign => ret campaign
  end.

(** What the clip service answered: not [ok], or a body whose [clips] field
    may be missing. *)
Inductive ClipsResponse :=
| ClipsNotOk
| ClipsBody (clips : option (list ClipData)).

Definition fetchApprovedClips (response : ClipsResponse)
    : M (list ClipData) :=
  match response with
  | ClipsNotOk => ret []
  | ClipsBody clips => ret (default [] clips)
  end.

(** The payment of one clip ([clips.map] body); [feePercent] is
    [config.platformFeePercent]. *)
Definition paymentOf (feePercent : Q) (campaign : CampaignData)
    (clip : ClipData) : EditorPayment :=
  let grossAmount :=
    calculateClipPayment
      (mkClipPaymentInput (pc_views clip) (cd_paymentType campaign)
         (cd_basePay campaign) (cd_rewardPerView campaign)
         (cd_limitPerClip campaign)) in
  let platformFee :=
    Math_round (inject_Z grossAmount * (feePercent / 100))%Q in
  let netAmount := grossAmount - platformFee in
  mkEditorPayment (pc_userId clip) (pc_id clip) (pc_views clip)
                  grossAmount platformFee netAmount.

Definition calculateCampaignPayments (feePercent : Q)
    (campaignResponse : option CampaignData) (clipsResponse : ClipsResponse)
    (campaignId : string) : M (list EditorPayment) :=
  let* campaign := fetchCampaignData campaignResponse campaignId in
  let* clips := fetchApprovedClips clipsResponse in
  ret (map (paymentOf feePercent campaign) clips).

Record PayoutResult := mkPayoutResult {
  pr_editorId : string;
  pr_amount : Z;
  pr_transactionId : nat
}.

(** [for (const payment of payments)], [results] being the successes so
    far. *)
Fixpoint payoutLoop (campaignId : string) (payments : list EditorPayment)
    (results : list PayoutResult) : M (list PayoutResult) :=
  match payments with
  | [] => ret results
  | payment :: rest =>
      let* results :=
        tryCatch
          (let* result :=
             balanceService.releasePending (ep_editorId payment)
               (ep_netAmount payment) campaignId
               ("Payout for clip " +:+ ep_clipId payment) in
           ret (results ++
                  [mkPayoutResult (ep_editorId payment) (ep_netAmount payment)
                                  (tx_id (snd result))]))
          (fun _ => ret results) in
      payoutLoop campaignId rest results
  end.

(** Returns [{ processed, payments }]. *)
Definition processPayouts (feePercent : Q)
    (campaignResponse : option CampaignData) (clipsResponse : ClipsResponse)
    (campaignId : string) : M (nat * list PayoutResult) :=
  let* payments :=
    calculateCampaignPayments feePercent campaignResponse clipsResponse
                              campaignId in
  if Nat.eqb (length payments) 0 then ret (0%nat, []) else
  let* results := payoutLoop campaignId payments [] in
  ret (length results, results).

End payoutService.

(* ===================================================================== *)
(** ** services/prizeService.ts *)
(* ===================================================================== *)

Module prizeService.

Inductive LeaderboardMetric := VIEWS | LIKES | ENGAGEMENT.

Record ClipData := mkClipData {
  clip_id : string;
  clip_userId : string;
  clip_views : Z;
  clip_likes : Z;
  clip_engagement : Z
}.

Definition scoreOf (metric : LeaderboardMetric) (clip : ClipData) : Z :=
  match metric with
  | VIEWS => clip_views clip
  | LIKES => clip_likes clip
  | ENGAGEMENT => clip_engagement clip
  end.

(** The upserts of [calculateLeaderboard], one per sorted clip, [index]
    counting from zero. *)
Fixpoint upsertRanked (campaignId : string) (scored : list (ClipData * Z))
    (index : Z) : M (list LeaderboardEntry) :=
  match scored with
  | [] => ret []
  | (clip, score) :: rest =>
      let* entry := prisma.leaderboardEntry.upsert (clip_id clip)
        (fun id => mkLeaderboardEntry id campaignId (clip_userId clip)
                     (clip_id clip) (clip_views clip) (clip_likes clip)
                     (clip_engagement clip) score (index + 1))
        (fun e => mkLeaderboardEntry (le_id e) (le_campaignId e)
                     (le_editorId e) (le_submissionId e) (clip_views clip)
                     (clip_likes clip) (clip_engagement clip) score
                     (index + 1)) in
      let* entries := upsertRanked campaignId rest (index + 1) in
      ret (entry :: entries)
  end.

(** [clips] is what the clip service returned for the campaign. *)
Definition calculateLeaderboard (clips : list ClipData) (campaignId : string)
    (metric : LeaderboardMetric) : M (list LeaderboardEntry) :=
  if Nat.eqb (length clips) 0 then ret [] else
  let scored := map (fun clip => (clip, scoreOf metric clip)) clips in
  let scored := stableSort (fun a b => snd b <? snd a) scored in
  upsertRanked campaignId scored 0.

(** The re-ranking loop of [finalizeLeaderboard], from index [i]. *)
Fixpoint rerank (entries : list LeaderboardEntry) (i : Z) : M unit :=
  match entries with
  | [] => ret tt
  | e :: rest =>
      prisma.leaderboardEntry.update (le_id e) (withRank (i + 1)) ;;
      rerank rest (i + 1)
  end.

Definition finalizeLeaderboard (campaignId : string)
    : M (list LeaderboardEntry) :=
  let* entries := prisma.leaderboardEntry.findMany campaignId
                    (fun a b => le_score b <? le_score a) in
  rerank entries 0 ;;
  ret entries.

(** [finalizeLeaderboard] from the answer [entries] of its query on, for an
    answer that need not keep equal scores in insertion order. *)
Definition finalizeLeaderboardFrom (entries : list LeaderboardEntry)
    : M (list LeaderboardEntry) :=
  rerank entries 0 ;;
  ret entries.

Record Distributed := mkDistributed {
  d_position : Z;
  d_editorId : string;
  d_amount : Z;
  d_label : string
}.

Fixpoint distributeLoop (campaignId : string)
    (leaderboard : list LeaderboardEntry) (prizeConfig : list PrizeDistribution)
    (distributed : list Distributed) : M (list Distributed) :=
  match prizeConfig with
  | [] => ret distributed
  | prize :: rest =>
      match List.find (fun e => le_rank e =? pd_position prize) leaderboard with
      | None => distributeLoop campaignId leaderboard rest distributed
      | Some entry =>
          let* distributed :=
            tryCatch
              (balanceService.reserveFunds (le_editorId entry)
                 (pd_reward prize) campaignId
                 ("Prize: " +:+ pd_label prize +:+ " (Position #"
                    +:+ pretty (pd_position prize) +:+ ")") ;;
               publisher.publish
                 (prizeDistributed campaignId (le_editorId entry)
                    (pd_position prize) (pd_reward prize)
                    (le_submissionId entry), SERVICE_NAME) ;;
               ret (distributed ++
                      [mkDistributed (pd_position prize) (le_editorId entry)
                                     (pd_reward prize) (pd_label prize)]))
              (fun _ => ret distributed) in
          distributeLoop campaignId leaderboard rest distributed
      end
  end.

Definition distributePrizes (campaignId : string) : M (list Distributed) :=
  let* prizeConfig := prisma.prizeDistribution.findMany campaignId in
  if Nat.eqb (length prizeConfig) 0 then ret [] else
  let* leaderboard := prisma.leaderboardEntry.findMany campaignId
                        (fun a b => le_rank a <? le_rank b) in
  distributeLoop campaignId leaderboard prizeConfig [].

End prizeService.

(* ===================================================================== *)
(** ** sagas/campaignClosure.ts *)
(* ===================================================================== *)

Module campaignClosure.

Record CampaignClosureData := mkCampaignClosureData {
  campaignId : string;
  createdBy : string;
  title : string;
  totalBudget : Z;
  spentBudget : Z;
  isFunded : bool;
  enableLeaderboard : bool;
  hasLeaderboard : bool
}.

(** A JavaScript [Map<string, number>]: entries in insertion order. *)
Definition JsMap := list (string * Z).

Fixpoint Map_get (m : JsMap) (key : string) : option Z :=
  match m with
  | [] => None
  | (k, v) :: m' => if String.eqb k key then Some v else Map_get m' key
  end.

(** [set] overwrites an existing key in place and appends a new one. *)
Fixpoint Map_set (m : JsMap) (key : string) (value : Z) : JsMap :=
  match m with
  | [] => [(key, value)]
  | (k, v) :: m' =>
      if String.eqb k key then (k, value) :: m'
      else (k, v) :: Map_set m' key value
  end.

(** The body of the aggregation loops: [const current =
    map.get(tx.userId) ?? 0; map.set(tx.userId, current + tx.amount)]. *)
Definition sumStep (m : JsMap) (tx : Transaction) : JsMap :=
  let current := default 0 (Map_get m (tx_userId tx)) in
  Map_set m (tx_userId tx) (current + tx_amount tx).

(** [for (const tx of txs)] over a fresh map. *)
Definition sumByUser (txs : list Transaction) : JsMap :=
  fold_left sumStep txs [].

(** What the release loop did for one editor it called [releasePending] for:
    the call returned, or it threw and the error was logged. *)
Inductive ReleaseOutcome :=
| Released (editorId : string) (remaining : Z)
| ReleaseFailed (editorId : string) (remaining : Z) (error : AppError).

Definition outcomeOk (o : ReleaseOutcome) : bool :=
  match o with Released _ _ => true | ReleaseFailed _ _ _ => false end.

(** [for (const [editorId, pendingAmount] of pendingByEditor)]. *)
Fixpoint releaseLoop (campaignId title : string) (releasedByEditor : JsMap)
    (pendingByEditor : JsMap) : M (list ReleaseOutcome) :=
  match pendingByEditor with
  | [] => ret []
  | (editorId, pendingAmount) :: rest =>
      let alreadyReleased := default 0 (Map_get releasedByEditor editorId) in
      let remaining := pendingAmount - alreadyReleased in
      let* here :=
        if 0 <? remaining then
          tryCatch
            (balanceService.releasePending editorId remaining campaignId
               ("Campaign closure payout: " +:+ title) ;;
             ret [Released editorId remaining])
            (fun error => ret [ReleaseFailed editorId remaining error])
        else ret [] in
      let* others := releaseLoop campaignId title releasedByEditor rest in
      ret (here ++ others)
  end.

(** Step 2 of the saga; the result lists the [releasePending] calls made. *)
Definition releasePendingStep (campaignId title : string)
    : M (list ReleaseOutcome) :=
  let* pendingTransactions :=
    prisma.transaction.findMany campaignId RESERVATION in
  let pendingByEditor := sumByUser pendingTransactions in
  let* existingPayouts := prisma.transaction.findMany campaignId PAYOUT in
  let releasedByEditor := sumByUser existingPayouts in
  releaseLoop campaignId title releasedByEditor pendingByEditor.

Definition handleCampaignEnded (campaignId : string)
    (campaignData : CampaignClosureData) : M unit :=
  tryCatch
    ((if enableLeaderboard campaignData || hasLeaderboard campaignData then
        prizeService.finalizeLeaderboard campaignId ;;
        prizeService.distributePrizes campaignId ;;
        ret tt
      else ret tt) ;;
     releasePendingStep campaignId (title campaignData) ;;
     let remainingBudget :=
       totalBudget campaignData - spentBudget campaignData in
     (if (0 <? remainingBudget) && isFunded campaignData then
        balanceService.refundToCreator (createdBy campaignData)
          remainingBudget campaignId
          ("Refund unused budget: " +:+ title campaignData) ;;
        ret tt
      else ret tt) ;;
     logAudit (createdBy campaignData) "CAMPAIGN_CLOSURE"
       [("campaignId", AStr campaignId); ("refunded", ANum remainingBudget)])
    (fun error => throw error).

End campaignClosure.

(* ===================================================================== *)
(** ** sagas/clipApproval.ts *)
(* ===================================================================== *)

Module clipApproval.

(** The audit details carry the new transaction's identifier. *)
Definition handleClipApproved (clipId campaignId userId : string)
    (paymentAmount : Z) : M (Balance * Transaction) :=
  tryCatch
    (let* result :=
       balanceService.reserveFunds userId paymentAmount campaignId
         ("Payment reserved for clip " +:+ clipId) in
     publisher.publish
       (reserved clipId userId campaignId paymentAmount, SERVICE_NAME) ;;
     logAudit userId "CLIP_PAYMENT_RESERVED"
       [("clipId", AStr clipId); ("campaignId", AStr campaignId);
        ("amount", ANum paymentAmount);
        ("transactionId", ANum (Z.of_nat (tx_id (snd result))))] ;;
     ret result)
    (fun error => throw error).

End clipApproval.

(* ===================================================================== *)
(** ** events/handlers.ts *)
(* ===================================================================== *)

Module handlers.

Record CampaignFundedPayload := mkCampaignFundedPayload {
  campaignId : string;
  amount : Z;
  fundedBy : string
}.

(** What a handler tells the transport. *)
Inductive Delivery := ack | nack (requeue : bool).

(** The body of the [campaign.funded] consumer. *)
Definition onCampaignFunded (payload : CampaignFundedPayload) : M Delivery :=
  prisma.transaction.create (fundedBy payload) (Some (campaignId payload))
    (amount payload) FUNDING
    ("Campaign funded: " +:+ campaignId payload) ;;
  logAudit (fundedBy payload) "CAMPAIGN_FUNDING_RECEIVED"
    [("campaignId", AStr (campaignId payload));
     ("amount", ANum (amount payload))] ;;
  ret ack.

Record ClipApprovedPayload := mkClipApprovedPayload {
  ca_clipId : string;
  ca_campaignId : string;
  ca_userId : string;
  ca_paymentAmount : Z
}.

(** The body of the [clip.approved] consumer; a throw reaches the retry
    wrapper without an acknowledgement. *)
Definition onClipApproved (payload : ClipApprovedPayload) : M Delivery :=
  clipApproval.handleClipApproved (ca_clipId payload) (ca_campaignId payload)
    (ca_userId payload) (ca_paymentAmount payload) ;;
  ret ack.

End handlers.

(* ===================================================================== *)
(** ** Ledger invariant and sample stores *)
(* ===================================================================== *)

(** Every balance row has non-negative [available] and [pending]. *)
Definition balancesNonNegative (s : Store) : Prop :=
  map_Forall (fun _ b => 0 <= available b /\ 0 <= pending b) (balance s).

Definition emptyStore : Store := mkStore ∅ [] [] [] [] [].

(** Editor [ed-1] holds 250 available and 600 pending, reserved in two
    instalments for campaign [camp-1]. *)
Definition sampleStore : Store :=
  mkStore {[ "ed-1" := mkBalance "ed-1" 250 600 ]}
          [ mkTransaction 0 "ed-1" (Some "camp-1") 400 RESERVATION "clip a";
            mkTransaction 1 "ed-1" (Some "camp-1") 200 RESERVATION "clip b" ]
          [] [] [] [].

(** Four leaderboard rows of campaign [camp-1], stored in fetch order with
    scores 10, 30, 30, 5 and the given current ranks. *)
Definition boardRow (id : nat) (editor submission : string) (score rank : Z)
    : LeaderboardEntry :=
  mkLeaderboardEntry id "camp-1" editor submission score 0 0 score rank.

Definition sampleBoard (r1 r2 r3 r4 : Z) : Store :=
  mkStore ∅ []
    [ boardRow 0 "ed-1" "clip-1" 10 r1; boardRow 1 "ed-2" "clip-2" 30 r2;
      boardRow 2 "ed-3" "clip-3" 30 r3; boardRow 3 "ed-4" "clip-4" 5 r4 ]
    [] [] [].

(** The same four clips as the clip service returns them. *)
Definition sampleClips : list prizeService.ClipData :=
  [ prizeService.mkClipData "clip-1" "ed-1" 10 0 0;
    prizeService.mkClipData "clip-2" "ed-2" 30 0 0;
    prizeService.mkClipData "clip-3" "ed-3" 30 0 0;
    prizeService.mkClipData "clip-4" "ed-4" 5 0 0 ].

(** The stored rank of a submission. *)
Definition rankOfSubmission (s : Store) (submissionId : string) : option Z :=
  le_rank <$> List.find (fun e => String.eqb (le_submissionId e) submissionId)
                        (leaderboardEntry s).

(** Ranks of a campaign's rows, in storage order. *)
Definition ranksOf (campaignId : string) (s : Store) : list Z :=
  map le_rank (filter (fun e => le_campaignId e = campaignId)
                      (leaderboardEntry s)).

(** Sum of the amounts of a list of transactions, and of those of one
    user. *)
Definition totalAmount (txs : list Transaction) : Z :=
  foldr (fun t acc => tx_amount t + acc) 0 txs.

Definition userTotal (userId : string) (txs : list Transaction) : Z :=
  foldr (fun t acc =>
           (if String.eqb (tx_userId t) userId then tx_amount t else 0) + acc)
        0 txs.

(** The campaign's transactions of one type, as the saga fetches them. *)
Definition campaignTxs (campaignId : string) (type : TransactionType)
    (s : Store) : list Transaction :=
  filter (fun t => tx_campaignId t = Some campaignId /\ tx_type t = type)
         (transaction s).

(** The store after a successful [releasePending]. *)
Definition afterRelease (u c d : string) (a : Z) (b : Balance) (s : Store)
    : Store :=
  set_published
    (fun l => l ++ [(released u c a (length (transaction s)), SERVICE_NAME)])
    (set_transaction
       (fun l => l ++ [mkTransaction (length (transaction s)) u (Some c) a
                                     PAYOUT d])
       (set_balance
          <[u := mkBalance (bal_userId b) (available b + a) (pending b - a)]>
          s)).

(** A balance row after [amount] is credited to [available], the row being
    created when absent (the upsert of [addFunds] and [refundToCreator]). *)
Definition credited (userId : string) (amount : Z) (row : option Balance)
    : Balance :=
  match row with
  | Some b => mkBalance (bal_userId b) (available b + amount) (pending b)
  | None => mkBalance userId amount 0
  end.

(** The amount the release loop asks for on behalf of [editorId]: the sum of
    the positive remainders [pendingAmount - alreadyReleased] over that
    editor's entries of [pendingByEditor]. *)
Fixpoint requested (releasedByEditor pendingByEditor : campaignClosure.JsMap)
    (editorId : string) : Z :=
  match pendingByEditor with
  | [] => 0
  | (k, pendingAmount) :: rest =>
      let remaining :=
        pendingAmount
        - default 0 (campaignClosure.Map_get releasedByEditor k) in
      (if String.eqb k editorId && (0 <? remaining) then remaining else 0)
      + requested releasedByEditor rest editorId
  end.

(** Editor [ed-1] has 600 reserved for [camp-1] of which 100 is already paid
    out; editor [ed-2] has 80 reserved; both balances cover what is left. *)
Definition twoEditorStore : Store :=
  mkStore {[ "ed-1" := mkBalance "ed-1" 100 500;
             "ed-2" := mkBalance "ed-2" 0 80 ]}
          [ mkTransaction 0 "ed-1" (Some "camp-1") 400 RESERVATION "clip a";
            mkTransaction 1 "ed-2" (Some "camp-1") 80 RESERVATION "clip b";
            mkTransaction 2 "ed-1" (Some "camp-1") 200 RESERVATION "clip c";
            mkTransaction 3 "ed-1" (Some "camp-1") 100 PAYOUT "early payout" ]
          [] [] [] [].

(** What [findMany({ where: { campaignId }, orderBy: { score: 'desc' } })]
    may answer: the campaign's rows, each once, by descending score, rows
    with equal scores in any order. *)
Definition scoreDescending (campaignId : string) (s : Store)
    (entries : list LeaderboardEntry) : Prop :=
  entries ≡ₚ filter (fun e => le_campaignId e = campaignId)
                    (leaderboardEntry s)
  /\ StronglySorted (fun a b => le_score b <= le_score a) entries.

(** The stored rank of the row with a given identifier. *)
Definition rankOfId (rows : list LeaderboardEntry) (id : nat) : option Z :=
  le_rank <$> List.find (fun e => Nat.eqb (le_id e) id) rows.

(** One [update({ where: { id }, data: { rank } })], seen from a row. *)
Definition rankIf (id : nat) (rank : Z) (r : LeaderboardEntry)
    : LeaderboardEntry :=
  if Nat.eqb (le_id r) id then withRank rank r else r.

(** The leaderboard table after the re-ranking loop has run over [entries]
    from index [i]. *)
Fixpoint rerankRows (entries : list LeaderboardEntry) (i : Z)
    (rows : list LeaderboardEntry) : list LeaderboardEntry :=
  match entries with
  | [] => rows
  | e :: rest =>
      rerankRows rest (i + 1) (map (rankIf (le_id e) (i + 1)) rows)
  end.

(** The sample board with prizes configured for positions 1, 2 and 5. *)
Definition prizeBoard : Store :=
  mkStore ∅ [] (leaderboardEntry (sampleBoard 0 0 0 0))
    [ mkPrizeDistribution "camp-1" 2 30 "Silver";
      mkPrizeDistribution "camp-1" 1 50 "Gold";
      mkPrizeDistribution "camp-1" 5 10 "Fifth" ]
    [] [].

(* ===================================================================== *)
(** ** services/transactionService.ts *)
(* ===================================================================== *)

Module transactionService.

Record TransactionPage := mkTransactionPage {
  tp_transactions : list Transaction;
  tp_total : nat;
  tp_limit : nat;
  tp_offset : nat
}.

(** [orderBy: { createdAt: 'desc' }]: newest first, rows being stored in
    creation order. *)
Definition newestFirst (rows : list Transaction) : list Transaction :=
  rev rows.

(** [limit] and [offset] are row counts; an omitted argument takes its
    default (50 and 0). *)
Definition getTransactions (userId : string) (limit offset : option nat)
    : M TransactionPage :=
  fun s =>
    let limit := default 50%nat limit in
    let offset := default 0%nat offset in
    let rows := filter (fun t => tx_userId t = userId) (transaction s) in
    Ok (mkTransactionPage (take limit (drop offset (newestFirst rows)))
                          (length rows) limit offset) s.

Definition getTransactionsByType (userId : string) (type : TransactionType)
    : M (list Transaction) :=
  fun s =>
    Ok (newestFirst
          (filter (fun t => tx_userId t = userId /\ tx_type t = type)
                  (transaction s))) s.


Definition getCampaignTransactions (campaignId : string)
    : M (list Transaction) :=
  fun s =>
    Ok (newestFirst
          (filter (fun t => tx_campaignId t = Some campaignId)
                  (transaction s))) s.

End transactionService.

(* ===================================================================== *)
(** ** routes/funding.ts *)
(* ===================================================================== *)

Module fundingRoutes.

(** The reply of a route: a status with a body, or the error handed to
    [sendError]. *)
Inductive Reply (A : Type) :=
| replied (status : Z) (body : A)
| sentError (error : AppError).
Arguments replied {A} status body.
Arguments sentError {A} error.

(** [POST /funding/campaign/:campaignId] for the authenticated [userId];
    [amount] is [body.amount], possibly missing. *)
Definition fundCampaign (userId : string) (amount : option Z)
    (campaignId : string) : M (Reply (Balance * Transaction)) :=
  tryCatch
    (let* a :=
       match amount with
       | None => throw (badRequest "A positive amount is required")
       | Some a =>
           if (a =? 0) || (a <=? 0)
           then throw (badRequest "A positive amount is required")
           else ret a
       end in
     let* result :=
       balanceService.addFunds userId a (Some campaignId)
         (Some ("Campaign funding: " +:+ campaignId)) in
     logAudit userId "CAMPAIGN_FUNDED"
       [("campaignId", AStr campaignId); ("amount", ANum a)] ;;
     ret (replied 201 result))
    (fun error => ret (sentError error)).

End fundingRoutes.

(* ===================================================================== *)
(** ** Reconciliation of balances with the transaction log *)
(* ===================================================================== *)

Definition availableOf (s : Store) (userId : string) : Z :=
  default 0 (available <$> balance s !! userId).

Definition pendingOf (s : Store) (userId : string) : Z :=
  default 0 (pending <$> balance s !! userId).




(** A computation relates the store it is given to the store it leaves. *)
Definition relates {A} (R : Store -> Store -> Prop) (m : M A) : Prop :=
  forall s, R s (storeAfter (m s)).

(** The later store has the same audit log and prize configuration, and its
    transaction log extends the earlier one by rows satisfying [Q]. *)
Definition appends (Q : Transaction -> Prop) (s s' : Store) : Prop :=
  auditLog s' = auditLog s
  /\ prizeDistribution s' = prizeDistribution s
  /\ exists new, transaction s' = transaction s ++ new /\ Forall Q new.

(** The later store still has every transaction row of the earlier one,
    in place and unchanged, and a balance row for every user that had
    one. *)
Definition ledgerGrows (s s' : Store) : Prop :=
  (exists new, transaction s' = transaction s ++ new)
  /\ (forall u, is_Some (balance s !! u) -> is_Some (balance s' !! u)).

(** The later store differs at most in the leaderboard and the published
    events. *)
Definition frameOnly (s s' : Store) : Prop :=
  balance s' = balance s /\ transaction s' = transaction s
  /\ auditLog s' = auditLog s /\ prizeDistribution s' = prizeDistribution s.

(** Rows the prize and release steps append. *)
Definition reservationOrPayout (t : Transaction) : Prop :=
  tx_type t = RESERVATION \/ tx_type t = PAYOUT.

(** A computation never throws. *)
Definition returns {A} (m : M A) : Prop :=
  forall s, exists a s', m s = Ok a s'.

(** The prizes [distributePrizes] awards: one per configured position that
    some entry holds and whose reward is positive. *)
Fixpoint expectedAwards (leaderboard : list LeaderboardEntry)
    (prizeConfig : list PrizeDistribution) : list prizeService.Distributed :=
  match prizeConfig with
  | [] => []
  | prize :: rest =>
      match List.find (fun e => le_rank e =? pd_position prize) leaderboard
      with
      | Some entry =>
          if 0 <? pd_reward prize
          then prizeService.mkDistributed (pd_position prize)
                 (le_editorId entry) (pd_reward prize) (pd_label prize)
               :: expectedAwards leaderboard rest
          else expectedAwards leaderboard rest
      | None => expectedAwards leaderboard rest
      end
  end.

(** The user, campaign, amount and type of a transaction row, and those of
    the row an award is recorded by. *)
Definition txRow (t : Transaction)
    : string * option string * Z * TransactionType :=
  (tx_userId t, tx_campaignId t, tx_amount t, tx_type t).

Definition awardRow (c : string) (d : prizeService.Distributed)
    : string * option string * Z * TransactionType :=
  (prizeService.d_editorId d, Some c, prizeService.d_amount d, RESERVATION).

(** The prize configuration and the leaderboard as [distributePrizes] reads
    them. *)
Definition prizeConfigOf (c : string) (s : Store) : list PrizeDistribution :=
  stableSort (fun a b => pd_position a <? pd_position b)
    (filter (fun p => pd_campaignId p = c) (prizeDistribution s)).

Definition leaderboardOf (c : string) (s : Store) : list LeaderboardEntry :=
  stableSort (fun a b => le_rank a <? le_rank b)
    (filter (fun e => le_campaignId e = c) (leaderboardEntry s)).

(** What a list of awards reserves for one editor. *)
Definition awardedTo (editorId : string)
    (awards : list prizeService.Distributed) : Z :=
  foldr (fun d acc =>
           (if String.eqb (prizeService.d_editorId d) editorId
            then prizeService.d_amount d else 0) + acc)
        0 awards.

(** The REFUND rows of the log, as user, campaign, amount and type. *)
Definition refundRows (s : Store)
    : list (string * option string * Z * TransactionType) :=
  map txRow (filter (fun t => tx_type t = REFUND) (transaction s)).

(** The unspent budget of a campaign snapshot, and whether the saga refunds
    it. *)
Definition remainingBudget (d : campaignClosure.CampaignClosureData) : Z :=
  campaignClosure.totalBudget d - campaignClosure.spentBudget d.

Definition refundDue (d : campaignClosure.CampaignClosureData) : bool :=
  (0 <? remainingBudget d) && campaignClosure.isFunded d.

(** The clips a response of the clip service stands for. *)
Definition clipsOf (response : payoutService.ClipsResponse)
    : list payoutService.ClipData :=
  match response with
  | payoutService.ClipsNotOk => []
  | payoutService.ClipsBody clips => default [] clips
  end.

(** What a payout result reports, and the same of a transaction row. *)
Definition resultRow (r : payoutService.PayoutResult) : string * Z * nat :=
  (payoutService.pr_editorId r, payoutService.pr_amount r,
   payoutService.pr_transactionId r).

Definition payoutRow (t : Transaction) : string * Z * nat :=
  (tx_userId t, tx_amount t, tx_id t).

(** The value a computation returned, or [d] when it threw. *)
Definition valueOf {A} (d : A) (r : Result A) : A :=
  match r with Ok a _ => a | Throw _ _ => d end.



(* ===================================================================== *)
(** ** JavaScript numbers *)
(* ===================================================================== *)

(** Every amount, balance and budget of the code is a JavaScript [number]:
    an IEEE-754 binary64 value.  [Number] gives them as the standard
    library specifies binary64 ([spec_float] with 53 bits of mantissa):
    signed zeros, the infinities, one NaN, and the finite numbers
    [m * 2^e]; each arithmetic operation rounds its exact result to the
    nearest number, ties to even, and every comparison with NaN is false.
    The store is taken to keep such a number as it is, an [increment] or
    [decrement] of the storage layer being one such addition or
    subtraction. *)
Definition number : Type := spec_float.

Module Number.

Definition prec : Z := 53.
Definition emax : Z := 1024.

Definition zero : number := S754_zero false.
Definition NaN : number := S754_nan.

Definition add (x y : number) : number := SFadd prec emax x y.
Definition sub (x y : number) : number := SFsub prec emax x y.
Definition mul (x y : number) : number := SFmul prec emax x y.
Definition div (x y : number) : number := SFdiv prec emax x y.

(** [x < y], [x <= y] and [x > y]. *)
Definition ltb (x y : number) : bool := SFltb x y.
Definition leb (x y : number) : bool := SFleb x y.
Definition gtb (x y : number) : bool := SFltb y x.

(** The number an integer literal denotes, and the number a decimal
    literal [n / d] with [d] a power of ten denotes ([decimal 1 10] is
    [0.1]): both are the nearest binary64 value. *)
Definition ofInteger (n : Z) : number := binary_normalize prec emax n 0 false.

Definition decimal (n d : Z) : number := div (ofInteger n) (ofInteger d).

(** Truthiness of a number in a condition: [0], [-0] and NaN are falsy. *)
Definition truthy (x : number) : bool :=
  match x with
  | S754_zero _ | S754_nan => false
  | _ => true
  end.

(** The rational a finite number stands for. *)
Definition exactValue (x : number) : option Q :=
  match x with
  | S754_zero _ => Some 0%Q
  | S754_finite s m e =>
      Some (if 0 <=? e
            then inject_Z (cond_Zopp s (Zpos m) * 2 ^ e)
            else Qmake (cond_Zopp s (Zpos m)) (Z.to_pos (2 ^ (- e))))
  | _ => None
  end.

(** A number that is one of the values of binary64 (the mantissa has at
    most 53 bits and the exponent is in range), and a number that stands
    for the integer [n]. *)
Definition wellFormed (x : number) : Prop := valid_binary prec emax x = true.

Definition isInteger (x : number) (n : Z) : Prop :=
  exists q, exactValue x = Some q /\ (q == inject_Z n)%Q.

(** [floor(x + 1/2)] for the finite [x = (-1)^s * m * 2^e], computed
    exactly. *)
Definition roundHalfUp (s : bool) (m : positive) (e : Z) : Z :=
  if 0 <=? e then cond_Zopp s (Zpos m) * 2 ^ e
  else (2 * cond_Zopp s (Zpos m) + 2 ^ (- e)) / 2 ^ (- e + 1).

(** [Math.round]: the nearest integer, halves towards plus infinity; NaN,
    the infinities and the zeros are returned as they are, and a result of
    zero keeps the sign of the argument. *)
Definition Math_round (x : number) : number :=
  match x with
  | S754_finite s m e =>
      if 0 <=? e then x
      else if roundHalfUp s m e =? 0 then S754_zero s
      else ofInteger (roundHalfUp s m e)
  | _ => x
  end.

End Number.

Declare Scope number_scope.
Delimit Scope number_scope with num.
Notation "0" := Number.zero : number_scope.
Notation "x + y" := (Number.add x y) : number_scope.
Notation "x - y" := (Number.sub x y) : number_scope.
Notation "x * y" := (Number.mul x y) : number_scope.
Notation "x <? y" := (Number.ltb x y) : number_scope.
Notation "x <=? y" := (Number.leb x y) : number_scope.
Notation "x >? y" := (Number.gtb x y) : number_scope.

Declare Scope binary64_scope.

(* ===================================================================== *)
(** ** The ledger, the closure's release step and the calculator over
       JavaScript numbers *)
(* ===================================================================== *)

(** The same source functions as above, with every amount a [number] and
    every [+], [-], [*], [<], [<=] and [>] the binary64 operation. *)
Module binary64.

Record Balance := mkBalance {
  bal_userId : string;
  available : number;
  pending : number
}.

Record Transaction := mkTransaction {
  tx_id : nat;
  tx_userId : string;
  tx_campaignId : option string;
  tx_amount : number;
  tx_type : TransactionType;
  tx_description : string
}.

Inductive Event :=
| balanceChanged (userId : string)
    (oldAvailable newAvailable oldPending newPending : number)
    (reason : string)
| reserved (clipId userId campaignId : string) (amount : number)
| released (userId campaignId : string) (amount : number)
    (transactionId : nat).

Record Store := mkStore {
  balance : gmap string Balance;
  transaction : list Transaction;
  published : list (Event * string)
}.

Definition set_balance (f : gmap string Balance -> gmap string Balance)
    (s : Store) : Store :=
  mkStore (f (balance s)) (transaction s) (published s).

Definition set_transaction (f : list Transaction -> list Transaction)
    (s : Store) : Store :=
  mkStore (balance s) (f (transaction s)) (published s).

Definition set_published (f : list (Event * string) -> list (Event * string))
    (s : Store) : Store :=
  mkStore (balance s) (transaction s) (f (published s)).

Inductive Result (A : Type) :=
| Ok (a : A) (s : Store)
| Throw (e : AppError) (s : Store).
Arguments Ok {A} a s.
Arguments Throw {A} e s.

Definition M (A : Type) : Type := Store -> Result A.

Definition ret {A} (a : A) : M A := fun s => Ok a s.

Definition throw {A} (e : AppError) : M A := fun s => Throw e s.

Definition bind {A B} (m : M A) (k : A -> M B) : M B :=
  fun s => match m s with
           | Ok a s' => k a s'
           | Throw e s' => Throw e s'
           end.

#[local] Notation "'let*' x ':=' m 'in' k" := (bind m (fun x => k))
  (at level 10, x name, m at level 100, k at level 200) : binary64_scope.
#[local] Notation "m ';;' k" := (bind m (fun _ => k))
  (at level 100, k at level 200, right associativity) : binary64_scope.
#[local] Open Scope binary64_scope.

Definition tryCatch {A} (m : M A) (h : AppError -> M A) : M A :=
  fun s => match m s with
           | Ok a s' => Ok a s'
           | Throw e s' => h e s'
           end.

Definition storeAfter {A} (r : Result A) : Store :=
  match r with Ok _ s => s | Throw _ s => s end.

Module prisma.

Definition transaction_ {A} (body : M A) : M A :=
  fun s => match body s with
           | Ok a s' => Ok a s'
           | Throw e _ => Throw e s
           end.

Module balance.

Definition findUnique (userId : string) : M (option Balance) :=
  fun s => Ok (balance s !! userId) s.

Definition create (data : Balance) : M Balance :=
  fun s => match balance s !! bal_userId data with
           | Some _ => Throw (prismaError "Unique constraint failed") s
           | None => Ok data (set_balance <[bal_userId data := data]> s)
           end.

Definition update (userId : string) (data : Balance -> Balance)
    : M Balance :=
  fun s => match balance s !! userId with
           | Some b => Ok (data b) (set_balance <[userId := data b]> s)
           | None => Throw (prismaError "Record to update not found") s
           end.

Definition upsert (userId : string) (create : Balance)
    (update : Balance -> Balance) : M Balance :=
  fun s => match balance s !! userId with
           | Some b => Ok (update b) (set_balance <[userId := update b]> s)
           | None => Ok create (set_balance <[userId := create]> s)
           end.

End balance.

Module transaction.

Definition create (userId : string) (campaignId : option string)
    (amount : number) (type : TransactionType) (description : string)
    : M Transaction :=
  fun s =>
    let t := mkTransaction (length (transaction s)) userId campaignId
                           amount type description in
    Ok t (set_transaction (fun l => l ++ [t]) s).

Definition findMany (campaignId : string) (type : TransactionType)
    : M (list Transaction) :=
  fun s =>
    Ok (filter (fun t => tx_campaignId t = Some campaignId
                         /\ tx_type t = type) (transaction s)) s.

End transaction.

End prisma.

Module publisher.

Definition publish (e : Event * string) : M unit :=
  fun s => Ok tt (set_published (fun l => l ++ [e]) s).

End publisher.

(** *** services/balanceService.ts *)
Module balanceService.

Definition getBalance (userId : string) : M Balance :=
  let* balance := prisma.balance.findUnique userId in
  match balance with
  | Some b => ret b
  | None => prisma.balance.create (mkBalance userId 0%num 0%num)
  end.

Definition addFunds (userId : string) (amount : number)
    (campaignId : option string) (description : option string)
    : M (Balance * Transaction) :=
  if (amount <=? 0)%num then throw InvalidAmount else
  let* result := prisma.transaction_ (
    let* balance := prisma.balance.upsert userId
        (mkBalance userId amount 0%num)
        (fun b => mkBalance (bal_userId b) (available b + amount)%num
                            (pending b)) in
    let* transaction := prisma.transaction.create userId campaignId amount
        DEPOSIT (default "Funds added" description) in
    ret (balance, transaction)) in
  publisher.publish
    (balanceChanged userId
       (available (fst result) - amount)%num (available (fst result))
       (pending (fst result)) (pending (fst result))
       (default "Funds added" description), SERVICE_NAME) ;;
  ret result.

Definition reserveFunds (userId : string) (amount : number)
    (campaignId : string) (description : string)
    : M (Balance * Transaction) :=
  if (amount <=? 0)%num then throw InvalidAmount else
  let* result := prisma.transaction_ (
    let* current := prisma.balance.findUnique userId in
    match current with
    | None => let* _ := prisma.balance.create
                          (mkBalance userId 0%num 0%num) in
              ret tt
    | Some _ => ret tt
    end ;;
    let* balance := prisma.balance.update userId
        (fun b => mkBalance (bal_userId b) (available b)
                            (pending b + amount)%num) in
    let* transaction := prisma.transaction.create userId (Some campaignId)
        amount RESERVATION description in
    ret (balance, transaction)) in
  publisher.publish (reserved "" userId campaignId amount, SERVICE_NAME) ;;
  ret result.

Definition releasePending (userId : string) (amount : number)
    (campaignId : string) (description : string)
    : M (Balance * Transaction) :=
  if (amount <=? 0)%num then throw InvalidAmount else
  let* result := prisma.transaction_ (
    let* current := prisma.balance.findUnique userId in
    match current with
    | None => throw (NotFound userId)
    | Some current =>
      if (pending current <? amount)%num then throw InsufficientPending else
      let* balance := prisma.balance.update userId
          (fun b => mkBalance (bal_userId b) (available b + amount)%num
                              (pending b - amount)%num) in
      let* transaction := prisma.transaction.create userId (Some campaignId)
          amount PAYOUT description in
      ret (balance, transaction)
    end) in
  publisher.publish
    (released userId campaignId amount (tx_id (snd result)),
     SERVICE_NAME) ;;
  ret result.

Definition refundToCreator (userId : string) (amount : number)
    (campaignId : string) (description : string)
    : M (Balance * Transaction) :=
  if (amount <=? 0)%num then throw InvalidAmount else
  let* result := prisma.transaction_ (
    let* balance := prisma.balance.upsert userId
        (mkBalance userId amount 0%num)
        (fun b => mkBalance (bal_userId b) (available b + amount)%num
                            (pending b)) in
    let* transaction := prisma.transaction.create userId (Some campaignId)
        amount REFUND description in
    ret (balance, transaction)) in
  publisher.publish
    (balanceChanged userId
       (available (fst result) - amount)%num (available (fst result))
       (pending (fst result)) (pending (fst result))
       description, SERVICE_NAME) ;;
  ret result.

End balanceService.

(** *** services/payoutService.ts: [calculateClipPayment] *)
Module payoutService.

Record ClipPaymentInput := mkClipPaymentInput {
  views : number;
  paymentType : string;
  basePay : number;
  rewardPerView : number;
  limitPerClip : option number
}.

(** The amount selected by the [switch] on the payment type. *)
Definition baseAmount (input : ClipPaymentInput) : number :=
  if String.eqb (paymentType input) "FIXED" then basePay input
  else if String.eqb (paymentType input) "PAY_PER_VIEW"
       then (views input * rewardPerView input)%num
  else if String.eqb (paymentType input) "HYBRID"
       then (basePay input + views input * rewardPerView input)%num
  else 0%num.

(** [limitPerClip && limitPerClip > 0 && amount > limitPerClip]. *)
Definition limitApplies (limitPerClip : option number) (amount : number)
    : bool :=
  match limitPerClip with
  | None => false
  | Some l => Number.truthy l && (l >? 0)%num && (amount >? l)%num
  end.

Definition calculateClipPayment (input : ClipPaymentInput) : number :=
  let amount := baseAmount input in
  let amount :=
    if limitApplies (limitPerClip input) amount
    then default 0%num (limitPerClip input) else amount in
  Number.Math_round amount.

End payoutService.

(** *** sagas/campaignClosure.ts: step 2 *)
Module campaignClosure.

(** A JavaScript [Map<string, number>]: entries in insertion order. *)
Definition JsMap := list (string * number).

Fixpoint Map_get (m : JsMap) (key : string) : option number :=
  match m with
  | [] => None
  | (k, v) :: m' => if String.eqb k key then Some v else Map_get m' key
  end.

Fixpoint Map_set (m : JsMap) (key : string) (value : number) : JsMap :=
  match m with
  | [] => [(key, value)]
  | (k, v) :: m' =>
      if String.eqb k key then (k, value) :: m'
      else (k, v) :: Map_set m' key value
  end.

(** [const current = map.get(tx.userId) ?? 0;
     map.set(tx.userId, current + tx.amount)]. *)
Definition sumStep (m : JsMap) (tx : Transaction) : JsMap :=
  let current := default 0%num (Map_get m (tx_userId tx)) in
  Map_set m (tx_userId tx) (current + tx_amount tx)%num.

Definition sumByUser (txs : list Transaction) : JsMap :=
  fold_left sumStep txs [].

Inductive ReleaseOutcome :=
| Released (editorId : string) (remaining : number)
| ReleaseFailed (editorId : string) (remaining : number) (error : AppError).

Fixpoint releaseLoop (campaignId title : string) (releasedByEditor : JsMap)
    (pendingByEditor : JsMap) : M (list ReleaseOutcome) :=
  match pendingByEditor with
  | [] => ret []
  | (editorId, pendingAmount) :: rest =>
      let alreadyReleased :=
        default 0%num (Map_get releasedByEditor editorId) in
      let remaining := (pendingAmount - alreadyReleased)%num in
      let* here :=
        if (remaining >? 0)%num then
          tryCatch
            (balanceService.releasePending editorId remaining campaignId
               ("Campaign closure payout: " +:+ title) ;;
             ret [Released editorId remaining])
            (fun error => ret [ReleaseFailed editorId remaining error])
        else ret [] in
      let* others := releaseLoop campaignId title releasedByEditor rest in
      ret (here ++ others)
  end.

Definition releasePendingStep (campaignId title : string)
    : M (list ReleaseOutcome) :=
  let* pendingTransactions :=
    prisma.transaction.findMany campaignId RESERVATION in
  let pendingByEditor := sumByUser pendingTransactions in
  let* existingPayouts := prisma.transaction.findMany campaignId PAYOUT in
  let releasedByEditor := sumByUser existingPayouts in
  releaseLoop campaignId title releasedByEditor pendingByEditor.

End campaignClosure.

(** The stored [available] and [pending] of a user, zero when the user has
    no row. *)
Definition availableOf (s : Store) (userId : string) : number :=
  default 0%num (available <$> balance s !! userId).

Definition pendingOf (s : Store) (userId : string) : number :=
  default 0%num (pending <$> balance s !! userId).

(** Every balance row has [available >= 0] and [pending >= 0]. *)
Definition balancesNonNegative (s : Store) : Prop :=
  map_Forall (fun _ b => (0 <=? available b)%num = true
                         /\ (0 <=? pending b)%num = true) (balance s).

(** Every stored [pending] is one of the values of binary64. *)
Definition balancesWellFormed (s : Store) : Prop :=
  map_Forall (fun _ b => Number.wellFormed (pending b)) (balance s).

End binary64.

(** Sample stores over JavaScript numbers.  [fractionalStore]: user [ed-1]
    holds 0.7 available and 0.3 pending.  [closureStore]: the ledger the
    code itself builds from an empty one when 262.29 is reserved for editor
    [ed-1] and campaign [camp-1], the release step runs, and 349 and 387.14
    are reserved for the same editor and campaign. *)
Definition fractionalStore : binary64.Store :=
  binary64.mkStore
    {[ "ed-1" := binary64.mkBalance "ed-1" (Number.decimal 7 10)
                                    (Number.decimal 3 10) ]}
    [] [].

Definition closureStore : binary64.Store :=
  binary64.storeAfter
    (binary64.bind
       (binary64.balanceService.reserveFunds "ed-1"
          (Number.decimal 26229 100) "camp-1" "clip a")
       (fun _ =>
          binary64.bind
            (binary64.campaignClosure.releasePendingStep "camp-1" "Launch")
            (fun _ =>
               binary64.bind
                 (binary64.balanceService.reserveFunds "ed-1"
                    (Number.ofInteger 349) "camp-1" "clip b")
                 (fun _ =>
                    binary64.balanceService.reserveFunds "ed-1"
                      (Number.decimal 38714 100) "camp-1" "clip c")))
       (binary64.mkStore ∅ [] [])).

(* ===================================================================== *)
(** * Properties *)
(* ===================================================================== *)

(** ** Sanity checks of the embedding *)

Example Math_round_halves_up :
  payoutService.Math_round (5 # 2) = 3
  /\ payoutService.Math_round (-5 # 2) = -2
  /\ payoutService.Math_round (7 # 3) = 2
  /\ payoutService.Math_round (-7 # 3) = -2.
Proof. repeat split; reflexivity. Qed.

Example calculateClipPayment_clamped :
  payoutService.calculateClipPayment
    (payoutService.mkClipPaymentInput 1000 "PAY_PER_VIEW" 0 (3 # 10)
                                      (Some (250 # 1)%Q)) = 250
  /\ payoutService.calculateClipPayment
       (payoutService.mkClipPaymentInput 1000 "PAY_PER_VIEW" 0 (3 # 10)
                                         (Some 0%Q)) = 300.
Proof. split; reflexivity. Qed.

Example stableSort_keeps_tied_order :
  stableSort (fun a b => snd b <? snd a)
             [("a", 10); ("b", 30); ("c", 30); ("d", 5)]
  = [("b", 30); ("c", 30); ("a", 10); ("d", 5)].
Proof. reflexivity. Qed.

Example sumByUser_in_insertion_order :
  campaignClosure.sumByUser (campaignTxs "camp-1" RESERVATION twoEditorStore)
  = [("ed-1", 600); ("ed-2", 80)]
  /\ campaignClosure.sumByUser (campaignTxs "camp-1" PAYOUT twoEditorStore)
     = [("ed-1", 100)].
Proof. split; reflexivity. Qed.

(** With the two entries tied at 30 finalized in insertion order. *)
Example distributePrizes_after_finalize :
  let r := (prizeService.finalizeLeaderboard "camp-1" ;;
            prizeService.distributePrizes "camp-1") prizeBoard in
  (exists s, r = Ok [ prizeService.mkDistributed 1 "ed-2" 50 "Gold";
                      prizeService.mkDistributed 2 "ed-3" 30 "Silver" ] s)
  /\ balance (storeAfter r) !! "ed-2" = Some (mkBalance "ed-2" 0 50)
  /\ balance (storeAfter r) !! "ed-3" = Some (mkBalance "ed-3" 0 30)
  /\ map tx_description (transaction (storeAfter r))
     = ["Prize: Gold (Position #1)"; "Prize: Silver (Position #2)"].
Proof.
  cbv zeta. split; [eexists; vm_compute; reflexivity|].
  repeat split; vm_compute; reflexivity.
Qed.

(** JavaScript numbers: [0.1 + 0.2] is [0.30000000000000004], not [0.3];
    [100 * 0.145] is [14.499999999999998]; [Math.round] takes halves up and
    keeps the sign of a zero result. *)
Example decimal_literals :
  Number.decimal 1 10 = S754_finite false 7205759403792794 (-56)
  /\ (Number.decimal 1 10 + Number.decimal 2 10)%num
     = S754_finite false 5404319552844596 (-54)
  /\ Number.decimal 3 10 = S754_finite false 5404319552844595 (-54)
  /\ (Number.ofInteger 100 * Number.decimal 145 1000)%num
     = S754_finite false 8162774324609023 (-49).
Proof. repeat split; vm_compute; reflexivity. Qed.

Example Math_round_of_numbers :
  Number.Math_round (Number.decimal 25 10) = Number.ofInteger 3
  /\ Number.Math_round (Number.decimal (-25) 10) = Number.ofInteger (-2)
  /\ Number.Math_round (Number.decimal (-2) 10) = S754_zero true
  /\ Number.Math_round (Number.ofInteger 100 * Number.decimal 145 1000)%num
     = Number.ofInteger 14
  /\ Number.Math_round Number.NaN = Number.NaN.
Proof. repeat split; vm_compute; reflexivity. Qed.

Example comparisons_with_NaN :
  (Number.NaN <=? 0)%num = false
  /\ (0 <? Number.NaN)%num = false
  /\ (Number.ofInteger 5 <? Number.NaN)%num = false.
Proof. repeat split; reflexivity. Qed.

(** ** The ledger *)

Ltac unfold_ledger :=
  unfold balanceService.getBalance, balanceService.addFunds,
    balanceService.reserveFunds, balanceService.releasePending,
    balanceService.refundToCreator, prisma.transaction_,
    prisma.balance.findUnique, prisma.balance.create, prisma.balance.update,
    prisma.balance.upsert, prisma.transaction.create, publisher.publish,
    bind, ret, throw, tryCatch.

Ltac amount_positive a :=
  replace (a <=? 0) with false by (symmetry; apply Z.leb_gt; lia).

Ltac amount_not_positive a :=
  replace (a <=? 0) with true by (symmetry; apply Z.leb_le; lia).

Lemma releasePending_ok (s : Store) (u c d : string) (a : Z) (b : Balance) :
  0 < a -> balance s !! u = Some b -> a <= pending b ->
  balanceService.releasePending u a c d s =
    let bal := mkBalance (bal_userId b) (available b + a) (pending b - a) in
    let tx := mkTransaction (length (transaction s)) u (Some c) a PAYOUT d in
    Ok (bal, tx)
       (set_published
          (fun l => l ++ [(released u c a (length (transaction s)),
                           SERVICE_NAME)])
          (set_transaction (fun l => l ++ [tx])
             (set_balance <[u := bal]> s))).
Proof.
  intros Ha Hb Hp. unfold_ledger. amount_positive a.
  rewrite Hb.
  replace (pending b <? a) with false by (symmetry; apply Z.ltb_ge; lia).
  cbn. rewrite Hb. reflexivity.
Qed.

Lemma releasePending_invalid (s : Store) (u c d : string) (a : Z) :
  a <= 0 -> balanceService.releasePending u a c d s = Throw InvalidAmount s.
Proof. intros Ha. unfold_ledger. amount_not_positive a. reflexivity. Qed.

Lemma releasePending_missing (s : Store) (u c d : string) (a : Z) :
  0 < a -> balance s !! u = None ->
  balanceService.releasePending u a c d s = Throw (NotFound u) s.
Proof.
  intros Ha Hb. unfold_ledger. amount_positive a. rewrite Hb. reflexivity.
Qed.

Lemma releasePending_insufficient (s : Store) (u c d : string) (a : Z)
    (b : Balance) :
  0 < a -> balance s !! u = Some b -> pending b < a ->
  balanceService.releasePending u a c d s = Throw InsufficientPending s.
Proof.
  intros Ha Hb Hp. unfold_ledger. amount_positive a. rewrite Hb.
  replace (pending b <? a) with true by (symmetry; apply Z.ltb_lt; lia).
  reflexivity.
Qed.

Lemma reserveFunds_ok (s : Store) (u c d : string) (a : Z) :
  0 < a ->
  balanceService.reserveFunds u a c d s =
    let old := default (mkBalance u 0 0) (balance s !! u) in
    let bal := mkBalance (bal_userId old) (available old) (pending old + a) in
    let tx :=
      mkTransaction (length (transaction s)) u (Some c) a RESERVATION d in
    Ok (bal, tx)
       (set_published (fun l => l ++ [(reserved "" u c a, SERVICE_NAME)])
          (set_transaction (fun l => l ++ [tx])
             (set_balance <[u := bal]> s))).
Proof.
  intros Ha. unfold_ledger. amount_positive a.
  destruct (balance s !! u) as [b|] eqn:Hb; cbn.
  - rewrite Hb. reflexivity.
  - rewrite Hb. cbn. rewrite lookup_insert_eq. cbn.
    unfold set_balance, set_transaction, set_published; cbn.
    rewrite insert_insert_eq. reflexivity.
Qed.

Lemma upsertFunds_ok (s : Store) (u : string) (a : Z) :
  prisma.balance.upsert u (mkBalance u a 0)
    (fun b => mkBalance (bal_userId b) (available b + a) (pending b)) s =
  let bal := match balance s !! u with
             | Some b => mkBalance (bal_userId b) (available b + a) (pending b)
             | None => mkBalance u a 0
             end in
  Ok bal (set_balance <[u := bal]> s).
Proof. unfold prisma.balance.upsert. destruct (balance s !! u); reflexivity. Qed.

Lemma refundToCreator_ok (s : Store) (u c d : string) (a : Z) :
  0 < a ->
  balanceService.refundToCreator u a c d s =
    let bal := match balance s !! u with
               | Some b =>
                   mkBalance (bal_userId b) (available b + a) (pending b)
               | None => mkBalance u a 0
               end in
    let tx := mkTransaction (length (transaction s)) u (Some c) a REFUND d in
    Ok (bal, tx)
       (set_published
          (fun l => l ++ [(balanceChanged u (available bal - a)
                             (available bal) (pending bal) (pending bal) d,
                           SERVICE_NAME)])
          (set_transaction (fun l => l ++ [tx])
             (set_balance <[u := bal]> s))).
Proof.
  intros Ha. unfold balanceService.refundToCreator. amount_positive a.
  unfold bind, prisma.transaction_. rewrite upsertFunds_ok. cbn.
  reflexivity.
Qed.

Lemma addFunds_ok (s : Store) (u : string) (c d : option string) (a : Z) :
  0 < a ->
  balanceService.addFunds u a c d s =
    let bal := match balance s !! u with
               | Some b =>
                   mkBalance (bal_userId b) (available b + a) (pending b)
               | None => mkBalance u a 0
               end in
    let tx := mkTransaction (length (transaction s)) u c a DEPOSIT
                            (default "Funds added" d) in
    Ok (bal, tx)
       (set_published
          (fun l => l ++ [(balanceChanged u (available bal - a)
                             (available bal) (pending bal) (pending bal)
                             (default "Funds added" d),
                           SERVICE_NAME)])
          (set_transaction (fun l => l ++ [tx])
             (set_balance <[u := bal]> s))).
Proof.
  intros Ha. unfold balanceService.addFunds. amount_positive a.
  unfold bind, prisma.transaction_. rewrite upsertFunds_ok. cbn.
  reflexivity.
Qed.

Lemma getBalance_existing (s : Store) (u : string) (b : Balance) :
  balance s !! u = Some b -> balanceService.getBalance u s = Ok b s.
Proof. intros Hb. unfold_ledger. rewrite Hb. reflexivity. Qed.

Lemma getBalance_absent (s : Store) (u : string) :
  balance s !! u = None ->
  balanceService.getBalance u s =
    Ok (mkBalance u 0 0) (set_balance <[u := mkBalance u 0 0]> s).
Proof. intros Hb. unfold_ledger. rewrite Hb. cbn. rewrite Hb. reflexivity. Qed.

(** C4. For [a > 0], [releasePending] throws [NotFound] when the user has no
    balance row and [InsufficientPending] when the row's [pending] is below
    [a]; in both cases the store it leaves is the store it was given, so no
    balance changed and no transaction was appended. *)
Theorem releasePending_fails_closed
    (s : Store) (u c d : string) (a : Z) :
  0 < a ->
  (balance s !! u = None ->
     balanceService.releasePending u a c d s = Throw (NotFound u) s)
  /\ (forall b, balance s !! u = Some b -> pending b < a ->
        balanceService.releasePending u a c d s
          = Throw InsufficientPending s).
Proof.
  intros Ha. split.
  - now apply releasePending_missing.
  - intros b Hb Hp. now apply (releasePending_insufficient s u c d a b).
Qed.

Lemma releasePending_fails_closed_witness :
  balanceService.releasePending "ed-2" 5 "camp-1" "payout" sampleStore
    = Throw (NotFound "ed-2") sampleStore
  /\ balanceService.releasePending "ed-1" 601 "camp-1" "payout" sampleStore
    = Throw InsufficientPending sampleStore.
Proof.
  split.
  - apply (releasePending_fails_closed sampleStore "ed-2" "camp-1" "payout" 5);
      [lia | reflexivity].
  - apply (releasePending_fails_closed sampleStore "ed-1" "camp-1" "payout"
             601 ltac:(lia) : _ /\ _) with (b := mkBalance "ed-1" 250 600);
      [reflexivity | cbn; lia].
Defined.

(** C9. For [a <= 0], [releasePending] throws the invalid-amount error
    before it touches the store, whether or not the user has a balance row;
    the store is left as given.  The error differs from [NotFound] and from
    [InsufficientPending]. *)
Theorem releasePending_rejects_non_positive
    (s : Store) (u c d : string) (a : Z) :
  a <= 0 ->
  balanceService.releasePending u a c d s = Throw InvalidAmount s
  /\ InvalidAmount <> NotFound u
  /\ InvalidAmount <> InsufficientPending.
Proof.
  intros Ha. split; [now apply releasePending_invalid|].
  split; discriminate.
Qed.

Lemma releasePending_rejects_non_positive_witness :
  balance emptyStore !! "nobody" = None
  /\ balanceService.releasePending "nobody" 0 "camp-1" "payout" emptyStore
       = Throw InvalidAmount emptyStore.
Proof.
  split; [reflexivity|].
  apply (releasePending_rejects_non_positive emptyStore "nobody" "camp-1"
           "payout" 0). lia.
Defined.



(** ** The [campaign.funded] consumer *)

(** C10. Handling a [campaign.funded] event acknowledges it, appends exactly
    one transaction, a FUNDING row for the funding user with the event's
    campaign and amount, and leaves the balance table as it was. *)
Theorem onCampaignFunded_appends_funding_only
    (s : Store) (p : handlers.CampaignFundedPayload) :
  exists s',
    handlers.onCampaignFunded p s = Ok handlers.ack s'
    /\ transaction s' =
         transaction s ++
           [mkTransaction (length (transaction s)) (handlers.fundedBy p)
              (Some (handlers.campaignId p)) (handlers.amount p) FUNDING
              ("Campaign funded: " +:+ handlers.campaignId p)]
    /\ balance s' = balance s
    /\ (forall u, available <$> (balance s' !! u)
                    = available <$> (balance s !! u)
                  /\ pending <$> (balance s' !! u)
                       = pending <$> (balance s !! u)).
Proof.
  eexists. split; [reflexivity|]. cbn. repeat split; reflexivity.
Qed.

(** ** The payout calculator over rationals: the limit, integral amounts *)

Section PayoutCalculator.
Import payoutService.
Local Open Scope Q_scope.




End PayoutCalculator.

(** ** The leaderboard *)

(** C7, as stated: the two entries tied at score 30 do not share rank 1. *)
Lemma finalizeLeaderboard_ties_do_not_share_rank :
  ranksOf "camp-1"
    (storeAfter (prizeService.finalizeLeaderboard "camp-1"
                   (sampleBoard 0 0 0 0)))
  <> [3; 1; 1; 4].
Proof. discriminate. Qed.

(** ** The closure saga: aggregation *)

Section Aggregation.
Import campaignClosure.

Lemma userTotal_cons (e : string) (t : Transaction) (l : list Transaction) :
  userTotal e (t :: l)
  = (if String.eqb (tx_userId t) e then tx_amount t else 0) + userTotal e l.
Proof. reflexivity. Qed.

Lemma totalAmount_cons (t : Transaction) (l : list Transaction) :
  totalAmount (t :: l) = tx_amount t + totalAmount l.
Proof. reflexivity. Qed.

Lemma fold_sumStep_single_user (l : list Transaction) (e : string) (acc : Z) :
  Forall (fun t => tx_userId t = e) l ->
  fold_left sumStep l [(e, acc)] = [(e, acc + totalAmount l)].
Proof.
  revert acc. induction l as [|t l IH]; intros acc Hl.
  - cbn. now rewrite Z.add_0_r.
  - inversion Hl as [|? ? Ht Hl']; subst.
    rewrite totalAmount_cons. cbn [fold_left].
    replace (sumStep [(tx_userId t, acc)] t)
      with [(tx_userId t, acc + tx_amount t)]
      by (unfold sumStep; cbn; now rewrite String.eqb_refl).
    rewrite IH by exact Hl'. now rewrite Z.add_assoc.
Qed.

(** One editor only: the map has the single entry [editor -> total]. *)
Lemma sumByUser_single_user (txs : list Transaction) (e : string) :
  txs <> [] -> Forall (fun t => tx_userId t = e) txs ->
  sumByUser txs = [(e, totalAmount txs)].
Proof.
  intros Hne Hall. destruct txs as [|t txs]; [congruence|].
  inversion Hall as [|? ? Ht Hrest]; subst.
  rewrite totalAmount_cons. unfold sumByUser. cbn [fold_left].
  change (fold_left sumStep txs (sumStep [] t)
          = [(tx_userId t, tx_amount t + totalAmount txs)]).
  replace (sumStep [] t) with [(tx_userId t, tx_amount t)] by reflexivity.
  now apply fold_sumStep_single_user.
Qed.

End Aggregation.

(** ** The closure saga: end to end *)

Section ClosureEndToEnd.
Import campaignClosure.

Lemma findMany_campaignTxs (c : string) (ty : TransactionType) (s : Store) :
  prisma.transaction.findMany c ty s = Ok (campaignTxs c ty s) s.
Proof. reflexivity. Qed.

Lemma releasePendingStep_unfold (c title : string) (s : Store) :
  releasePendingStep c title s
  = releaseLoop c title (sumByUser (campaignTxs c PAYOUT s))
      (sumByUser (campaignTxs c RESERVATION s)) s.
Proof. reflexivity. Qed.

Lemma releasePendingStep_single_editor
    (s : Store) (c editor title : string) (b : Balance) (total : Z) :
  campaignTxs c RESERVATION s <> [] ->
  Forall (fun t => tx_userId t = editor) (campaignTxs c RESERVATION s) ->
  totalAmount (campaignTxs c RESERVATION s) = total ->
  campaignTxs c PAYOUT s = [] ->
  balance s !! editor = Some b -> 0 < total <= pending b ->
  releasePendingStep c title s
  = Ok [Released editor total]
       (afterRelease editor c ("Campaign closure payout: " +:+ title)
                     total b s).
Proof.
  intros Hne Hall Htot Hpay Hb [Hpos Hp].
  rewrite releasePendingStep_unfold, Hpay.
  rewrite (sumByUser_single_user _ editor Hne Hall), Htot.
  cbn [releaseLoop sumByUser fold_left Map_get default from_option id].
  rewrite Z.sub_0_r.
  replace (0 <? total) with true by (symmetry; apply Z.ltb_lt; exact Hpos).
  unfold bind at 1. unfold tryCatch, bind.
  rewrite (releasePending_ok s editor c _ total b Hpos Hb Hp).
  reflexivity.
Qed.

(** C2. Campaign snapshot with [totalBudget = 1000], [spentBudget = 400],
    [isFunded = true], leaderboard disabled; the campaign's RESERVATION
    transactions all belong to one editor and sum to 600, it has no PAYOUT
    transaction, and the editor's balance holds the reserved 600 in
    [pending].  Then step 2 makes exactly one [releasePending] call, of 600
    for that editor, which succeeds; [handleCampaignEnded] returns; the
    editor's balance has 600 moved from [pending] to [available]; the
    creator's [available] is credited with 600 (the row being created when
    absent); and the transaction log gains exactly a PAYOUT of 600 for the
    editor followed by a REFUND of 600 for the creator. *)
Theorem handleCampaignEnded_releases_and_refunds
    (s : Store) (c editor creator title : string) (b : Balance) :
  campaignTxs c RESERVATION s <> [] ->
  Forall (fun t => tx_userId t = editor) (campaignTxs c RESERVATION s) ->
  totalAmount (campaignTxs c RESERVATION s) = 600 ->
  campaignTxs c PAYOUT s = [] ->
  balance s !! editor = Some b -> 600 <= pending b ->
  exists s1 s',
    releasePendingStep c title s = Ok [Released editor 600] s1
    /\ handleCampaignEnded c
         (mkCampaignClosureData c creator title 1000 400 true false false) s
       = Ok tt s'
    /\ balance s1
       = <[editor := mkBalance (bal_userId b) (available b + 600)
                               (pending b - 600)]> (balance s)
    /\ balance s'
       = <[creator := credited creator 600 (balance s1 !! creator)]>
           (balance s1)
    /\ transaction s'
       = transaction s ++
           [ mkTransaction (length (transaction s)) editor (Some c) 600 PAYOUT
               ("Campaign closure payout: " +:+ title);
             mkTransaction (S (length (transaction s))) creator (Some c) 600
               REFUND ("Refund unused budget: " +:+ title) ]
    /\ (creator <> editor ->
          balance s' !! editor
            = Some (mkBalance (bal_userId b) (available b + 600)
                              (pending b - 600))
          /\ available <$> (balance s' !! creator)
             = Some (default 0 (available <$> (balance s !! creator)) + 600)).
Proof.
  intros Hne Hall Htot Hpay Hb Hp.
  pose proof (releasePendingStep_single_editor s c editor title b 600
                Hne Hall Htot Hpay Hb ltac:(lia)) as Hstep.
  eexists _, _. split; [exact Hstep|].
  split.
  { unfold handleCampaignEnded.
    cbv beta iota zeta delta
      [enableLeaderboard hasLeaderboard campaignClosure.title totalBudget
       spentBudget isFunded createdBy orb].
    unfold tryCatch, bind. cbv beta iota delta [ret].
    rewrite Hstep.
    change ((0 <? 1000 - 400) && true) with true. cbv beta iota.
    rewrite refundToCreator_ok by lia.
    reflexivity. }
  split; [reflexivity|]. split; [reflexivity|].
  split.
  { cbn. rewrite <- app_assoc. cbn. rewrite length_app. cbn.
    rewrite Nat.add_1_r. reflexivity. }
  intros Hce. cbn. split.
  - rewrite lookup_insert_ne by exact Hce. apply lookup_insert_eq.
  - rewrite lookup_insert_eq, lookup_insert_ne by congruence.
    destruct (balance s !! creator); cbn; f_equal; lia.
Qed.

Lemma handleCampaignEnded_releases_and_refunds_witness :
  exists s',
    handleCampaignEnded "camp-1"
      (mkCampaignClosureData "camp-1" "creator-1" "Launch" 1000 400 true
                             false false) sampleStore
    = Ok tt s'
    /\ balance s' !! "ed-1" = Some (mkBalance "ed-1" 850 0)
    /\ balance s' !! "creator-1" = Some (mkBalance "creator-1" 600 0).
Proof.
  destruct (handleCampaignEnded_releases_and_refunds sampleStore "camp-1"
              "ed-1" "creator-1" "Launch" (mkBalance "ed-1" 250 600))
    as (s1 & s' & _ & Hrun & Hb1 & Hb' & _);
    [ discriminate
    | repeat constructor
    | reflexivity
    | reflexivity
    | reflexivity
    | cbn; lia
    | ].
  exists s'. split; [exact Hrun|].
  rewrite Hb', Hb1. split; reflexivity.
Defined.

End ClosureEndToEnd.

(** ** The closure saga: the release loop *)

Section ReleaseLoop.
Import campaignClosure.

Variables (c title : string).

Let isPayout (t : Transaction) : Prop :=
  tx_campaignId t = Some c /\ tx_type t = PAYOUT.

(** [releasePending] either appends one PAYOUT row for the user and the
    campaign, or throws leaving the store as it was. *)
Lemma releasePending_cases (s : Store) (u d : string) (a : Z) :
  (exists bal tx s',
     balanceService.releasePending u a c d s = Ok (bal, tx) s'
     /\ transaction s' = transaction s ++ [tx]
     /\ isPayout tx /\ tx_userId tx = u /\ tx_amount tx = a)
  \/ (exists e, balanceService.releasePending u a c d s = Throw e s).
Proof.
  destruct (Z_lt_le_dec 0 a) as [Ha|Ha].
  - destruct (balance s !! u) as [b|] eqn:Hb.
    + destruct (Z_lt_le_dec (pending b) a) as [Hp|Hp].
      * right. eexists. now apply (releasePending_insufficient s u c d a b).
      * left. rewrite (releasePending_ok s u c d a b Ha Hb Hp).
        eexists _, _, _. split; [reflexivity|]. cbn.
        repeat split; reflexivity.
    + right. eexists. now apply releasePending_missing.
  - right. eexists. now apply releasePending_invalid.
Qed.

(** The release loop always returns.  The transactions it appends are PAYOUT
    rows of the campaign; when no call failed, they add up, per editor, to
    what the loop asked for. *)
Lemma releaseLoop_appends (rel pend : JsMap) (s : Store) :
  exists outcomes s1 new,
    releaseLoop c title rel pend s = Ok outcomes s1
    /\ transaction s1 = transaction s ++ new
    /\ Forall isPayout new
    /\ (forallb outcomeOk outcomes = true ->
        forall e, userTotal e new = requested rel pend e).
Proof.
  revert s. induction pend as [|[k p] pend IH]; intros s.
  - exists [], s, []. cbn. rewrite app_nil_r. repeat split. constructor.
  - cbn [releaseLoop requested].
    set (remaining := p - default 0 (Map_get rel k)).
    destruct (0 <? remaining) eqn:Hpos.
    + destruct (releasePending_cases s k
                  ("Campaign closure payout: " +:+ title) remaining)
        as [(bal & tx & s' & Hrun & Htx & Hpay & Hu & Ha) | (err & Hrun)].
      * destruct (IH s') as (os & s1 & new & Hloop & Hnew & Hall & Hsum).
        exists (Released k remaining :: os), s1, (tx :: new).
        split; [|split; [|split]].
        -- unfold bind, tryCatch. rewrite Hrun. cbv beta iota delta [ret].
           unfold bind in Hloop. rewrite Hloop. reflexivity.
        -- rewrite Hnew, Htx, <- app_assoc. reflexivity.
        -- constructor; assumption.
        -- intros Hok e. cbn in Hok. rewrite userTotal_cons, Hu, Ha.
           rewrite (Hsum Hok e), andb_true_r. reflexivity.
      * destruct (IH s) as (os & s1 & new & Hloop & Hnew & Hall & Hsum).
        exists (ReleaseFailed k remaining err :: os), s1, new.
        split; [|split; [|split]]; try assumption.
        -- unfold bind, tryCatch. rewrite Hrun. cbv beta iota delta [ret].
           unfold bind in Hloop. rewrite Hloop. reflexivity.
        -- intros Hok. cbn in Hok. discriminate.
    + destruct (IH s) as (os & s1 & new & Hloop & Hnew & Hall & Hsum).
      exists os, s1, new. split; [|split; [|split]]; try assumption.
      * unfold bind. cbv beta iota delta [ret].
        unfold bind in Hloop. rewrite Hloop. reflexivity.
      * intros Hok e. rewrite (Hsum Hok e), andb_false_r. reflexivity.
Qed.

End ReleaseLoop.

(** ** The leaderboard: ranks after finalization, in general *)

Section Finalization.

Lemma insertBy_perm {A} (before : A -> A -> bool) (x : A) (l : list A) :
  insertBy before x l ≡ₚ x :: l.
Proof.
  induction l as [|y l IH]; cbn; [reflexivity|].
  destruct (before y x); [|reflexivity].
  rewrite IH. apply Permutation_swap.
Qed.

Lemma stableSort_perm {A} (before : A -> A -> bool) (l : list A) :
  stableSort before l ≡ₚ l.
Proof.
  induction l as [|x l IH]; cbn; [reflexivity|].
  rewrite insertBy_perm. now rewrite IH.
Qed.

Lemma rankIf_id (id : nat) (rank : Z) (r : LeaderboardEntry) :
  le_id (rankIf id rank r) = le_id r.
Proof. unfold rankIf. destruct (Nat.eqb (le_id r) id); reflexivity. Qed.

Lemma rankIf_ids (id : nat) (rank : Z) (rows : list LeaderboardEntry) :
  map le_id (map (rankIf id rank) rows) = map le_id rows.
Proof.
  induction rows as [|r rows IH]; cbn; [reflexivity|].
  now rewrite rankIf_id, IH.
Qed.

Lemma rankOfId_updated (id : nat) (rank : Z) (rows : list LeaderboardEntry) :
  id ∈ map le_id rows ->
  rankOfId (map (rankIf id rank) rows) id = Some rank.
Proof.
  unfold rankOfId. induction rows as [|r rows IH]; intros Hin.
  - inversion Hin.
  - cbn. rewrite rankIf_id. unfold rankIf at 1.
    destruct (Nat.eqb_spec (le_id r) id) as [Heq|Hne]; [reflexivity|].
    apply IH. cbn in Hin. apply elem_of_cons in Hin.
    destruct Hin as [Hin|Hin]; [congruence | exact Hin].
Qed.

Lemma rankOfId_untouched (id id' : nat) (rank : Z)
    (rows : list LeaderboardEntry) :
  id' <> id ->
  rankOfId (map (rankIf id rank) rows) id' = rankOfId rows id'.
Proof.
  intros Hne. unfold rankOfId. induction rows as [|r rows IH]; [reflexivity|].
  cbn. rewrite rankIf_id.
  destruct (Nat.eqb_spec (le_id r) id') as [Heq|Hne'].
  - unfold rankIf.
    destruct (Nat.eqb_spec (le_id r) id); [congruence | reflexivity].
  - exact IH.
Qed.

Lemma rerankRows_ids (entries : list LeaderboardEntry) (i : Z)
    (rows : list LeaderboardEntry) :
  map le_id (rerankRows entries i rows) = map le_id rows.
Proof.
  revert i rows. induction entries as [|e entries IH]; intros i rows;
    [reflexivity|].
  cbn [rerankRows]. rewrite IH. apply rankIf_ids.
Qed.

Lemma rerankRows_untouched (entries : list LeaderboardEntry) (i : Z)
    (rows : list LeaderboardEntry) (id : nat) :
  id ∉ map le_id entries ->
  rankOfId (rerankRows entries i rows) id = rankOfId rows id.
Proof.
  revert i rows. induction entries as [|e entries IH]; intros i rows Hnot;
    [reflexivity|].
  cbn in Hnot. apply not_elem_of_cons in Hnot. destruct Hnot as [Hne Hnot].
  cbn [rerankRows]. rewrite IH by exact Hnot.
  now apply rankOfId_untouched.
Qed.

(** The entry at position [j] of the list the loop runs over ends up with
    rank [i + j + 1]. *)
Lemma rerankRows_position (entries : list LeaderboardEntry) (i : Z)
    (rows : list LeaderboardEntry) (j : nat) (e : LeaderboardEntry) :
  NoDup (map le_id entries) ->
  le_id e ∈ map le_id rows ->
  entries !! j = Some e ->
  rankOfId (rerankRows entries i rows) (le_id e) = Some (i + Z.of_nat j + 1).
Proof.
  revert i rows j. induction entries as [|e0 entries IH];
    intros i rows j Hnd Hin Hj; [discriminate|].
  cbn in Hnd. apply NoDup_cons in Hnd. destruct Hnd as [Hfresh Hnd].
  cbn [rerankRows]. destruct j as [|j]; cbn in Hj.
  - injection Hj as ->.
    rewrite rerankRows_untouched by exact Hfresh.
    rewrite (rankOfId_updated (le_id e) (i + 1) rows Hin).
    f_equal. lia.
  - rewrite (IH (i + 1) _ j Hnd); [f_equal; lia | | exact Hj].
    change (le_id e ∈ map le_id (map (rankIf (le_id e0) (i + 1)) rows)).
    now rewrite rankIf_ids.
Qed.

Lemma rerank_run (entries : list LeaderboardEntry) (i : Z) (s : Store) :
  (forall e, e ∈ entries -> le_id e ∈ map le_id (leaderboardEntry s)) ->
  prizeService.rerank entries i s
  = Ok tt (set_leaderboardEntry (rerankRows entries i) s).
Proof.
  revert i s. induction entries as [|e entries IH]; intros i s Hin.
  - destruct s; reflexivity.
  - cbn [prizeService.rerank rerankRows]. unfold bind.
    unfold prisma.leaderboardEntry.update.
    replace (existsb (fun e0 => Nat.eqb (le_id e0) (le_id e))
                     (leaderboardEntry s)) with true.
    + rewrite IH.
      * unfold set_leaderboardEntry. reflexivity.
      * intros e' He'. cbn.
        change (le_id e' ∈ map le_id
                  (map (rankIf (le_id e) (i + 1)) (leaderboardEntry s))).
        rewrite rankIf_ids. apply Hin. now right.
    + symmetry. apply existsb_exists.
      assert (He : le_id e ∈ map le_id (leaderboardEntry s))
        by (apply Hin; left).
      apply list_elem_of_fmap in He. destruct He as (r & Hr & Hrin).
      exists r. split; [now apply list_elem_of_In|].
      apply Nat.eqb_eq. congruence.
Qed.


Lemma insertBy_desc_sorted {A} (key : A -> Z) (x : A) (l : list A) :
  StronglySorted (fun a b => key b <= key a) l ->
  StronglySorted (fun a b => key b <= key a)
                 (insertBy (fun a b => key b <? key a) x l).
Proof.
  induction 1 as [|y l Hs IH Hall]; cbn.
  - repeat constructor.
  - destruct (key x <? key y) eqn:E.
    + apply Z.ltb_lt in E. constructor; [exact IH|].
      rewrite insertBy_perm. constructor; [lia | exact Hall].
    + apply Z.ltb_ge in E. constructor.
      * now constructor.
      * constructor; [exact E|].
        eapply Forall_impl; [exact Hall|]. cbn. intros z Hz. lia.
Qed.

Lemma stableSort_desc_sorted {A} (key : A -> Z) (l : list A) :
  StronglySorted (fun a b => key b <= key a)
                 (stableSort (fun a b => key b <? key a) l).
Proof.
  induction l as [|x l IH]; cbn; [constructor|].
  now apply insertBy_desc_sorted.
Qed.

Lemma sampleBoard_ids_distinct (r1 r2 r3 r4 : Z) :
  NoDup (map le_id (leaderboardEntry (sampleBoard r1 r2 r3 r4))).
Proof.
  cbn. repeat (apply NoDup_cons; split;
                 [intros H; repeat (apply elem_of_cons in H;
                                    destruct H as [H|H]; [discriminate|]);
                  inversion H|]).
  apply NoDup_nil_2.
Defined.

(** The answer of the storage model is one of the admissible ones. *)
Lemma findMany_scoreDescending (s : Store) (c : string) :
  scoreDescending c s
    (stableSort (fun a b => le_score b <? le_score a)
       (filter (fun e => le_campaignId e = c) (leaderboardEntry s))).
Proof.
  split; [apply stableSort_perm | apply (stableSort_desc_sorted le_score)].
Qed.

Lemma finalizeLeaderboard_from_query (s : Store) (c : string) :
  prizeService.finalizeLeaderboard c s
  = prizeService.finalizeLeaderboardFrom
      (stableSort (fun a b => le_score b <? le_score a)
         (filter (fun e => le_campaignId e = c) (leaderboardEntry s))) s.
Proof. reflexivity. Qed.

Lemma StronglySorted_lookup {A} (R : A -> A -> Prop) (l : list A)
    (i j : nat) (a b : A) :
  StronglySorted R l -> l !! i = Some a -> l !! j = Some b ->
  (i < j)%nat -> R a b.
Proof.
  intros Hs. revert i j. induction Hs as [|x l Hs IH Hall]; intros i j Hi Hj Hij;
    [discriminate|].
  destruct j as [|j]; [lia|]. cbn in Hj. destruct i as [|i]; cbn in Hi.
  - injection Hi as ->. rewrite Forall_forall in Hall. apply Hall.
    apply list_elem_of_lookup. now exists j.
  - apply (IH i j Hi Hj). lia.
Qed.

(** Whatever admissible answer the query gives, the loop stores rank
    [j + 1] for the entry at position [j] of the answer and leaves every
    other row's rank alone. *)
Lemma finalizeLeaderboardFrom_run (s : Store) (c : string)
    (entries : list LeaderboardEntry) :
  NoDup (map le_id (leaderboardEntry s)) ->
  scoreDescending c s entries ->
  NoDup (map le_id entries)
  /\ prizeService.finalizeLeaderboardFrom entries s
     = Ok entries (set_leaderboardEntry (rerankRows entries 0) s)
  /\ (forall j e, entries !! j = Some e ->
        rankOfId (rerankRows entries 0 (leaderboardEntry s)) (le_id e)
        = Some (Z.of_nat j + 1))
  /\ (forall id, id ∉ map le_id entries ->
        rankOfId (rerankRows entries 0 (leaderboardEntry s)) id
        = rankOfId (leaderboardEntry s) id).
Proof.
  intros Hnd [Hperm Hsorted].
  assert (Hsub : forall e, e ∈ entries ->
                   le_id e ∈ map le_id (leaderboardEntry s)).
  { intros e He. rewrite Hperm in He. apply list_elem_of_filter in He.
    apply list_elem_of_fmap. exists e. split; [reflexivity | apply He]. }
  assert (Hids : NoDup (map le_id entries)).
  { rewrite Hperm. eapply sublist_NoDup; [exact Hnd|].
    apply fmap_sublist, sublist_filter. }
  split; [exact Hids|]. split; [|split].
  - unfold prizeService.finalizeLeaderboardFrom, bind.
    rewrite (rerank_run entries 0 s Hsub). reflexivity.
  - intros j e Hj.
    rewrite (rerankRows_position entries 0 _ j e Hids);
      [f_equal; lia | | exact Hj].
    apply Hsub. apply list_elem_of_lookup. now exists j.
  - intros id Hid. now apply rerankRows_untouched.
Qed.

End Finalization.

Ltac sorted_facts :=
  repeat match goal with
         | H : StronglySorted _ (_ :: _) |- _ =>
             apply StronglySorted_inv in H; destruct H
         | H : Forall _ (_ :: _) |- _ =>
             apply Forall_cons in H; destruct H
         end.

(** C7, as the code has it.  For four entries with scores [10, 30, 30, 5]
    in fetch order, whatever their ranks were before and in whichever order
    the query returns the two entries tied at 30, [finalizeLeaderboard]
    returns and the ranks, in fetch order, are [3, 1, 2, 4] or
    [3, 2, 1, 4]: rank is the 1-based position in the descending score
    order, the entry with score 10 is third and the one with score 5
    fourth, and the tied entries take ranks 1 and 2, one each; no two
    entries share a rank. *)
Theorem finalizeLeaderboard_ranks_by_position
    (r1 r2 r3 r4 : Z) (entries : list LeaderboardEntry) :
  scoreDescending "camp-1" (sampleBoard r1 r2 r3 r4) entries ->
  let after := prizeService.finalizeLeaderboardFrom entries
                 (sampleBoard r1 r2 r3 r4) in
  succeeded after = true
  /\ (ranksOf "camp-1" (storeAfter after) = [3; 1; 2; 4]
      \/ ranksOf "camp-1" (storeAfter after) = [3; 2; 1; 4])
  /\ NoDup (ranksOf "camp-1" (storeAfter after)).
Proof.
  intros [Hperm Hsorted]. symmetry in Hperm.
  apply permutations_Permutation in Hperm.
  cbv zeta.
  assert (Hcases :
    (ranksOf "camp-1"
       (storeAfter (prizeService.finalizeLeaderboardFrom entries
                      (sampleBoard r1 r2 r3 r4))) = [3; 1; 2; 4]
     \/ ranksOf "camp-1"
          (storeAfter (prizeService.finalizeLeaderboardFrom entries
                         (sampleBoard r1 r2 r3 r4))) = [3; 2; 1; 4])
    /\ succeeded (prizeService.finalizeLeaderboardFrom entries
                    (sampleBoard r1 r2 r3 r4)) = true).
  { cbn in Hperm.
    repeat (apply elem_of_cons in Hperm; destruct Hperm as [->|Hperm]);
      try (now inversion Hperm);
      sorted_facts; cbn in *; try lia;
      (split; [(left; reflexivity) || (right; reflexivity) | reflexivity]). }
  destruct Hcases as [Hranks Hok]. split; [exact Hok|].
  split; [exact Hranks|].
  destruct Hranks as [-> | ->];
    repeat (apply NoDup_cons; split;
              [intros H; repeat (apply elem_of_cons in H;
                                 destruct H as [H|H]; [discriminate|]);
               inversion H|]);
    apply NoDup_nil_2.
Qed.

(** Both outcomes occur: the query answer with the tied entries in
    insertion order, which is what [prisma] answers, gives [3, 1, 2, 4],
    and the answer with the two swapped gives [3, 2, 1, 4].  The ranks
    [calculateLeaderboard] itself stores for clips with these view counts
    are [3, 1, 2, 4]: it sorts in memory, and that sort is stable. *)
Lemma finalizeLeaderboard_ranks_by_position_witness :
  (ranksOf "camp-1"
     (storeAfter (prizeService.finalizeLeaderboard "camp-1"
                    (sampleBoard 0 0 0 0)))
   = [3; 1; 2; 4])
  /\ map (rankOfSubmission
            (storeAfter (prizeService.calculateLeaderboard sampleClips
                           "camp-1" prizeService.VIEWS emptyStore)))
         (map prizeService.clip_id sampleClips)
     = [Some 3; Some 1; Some 2; Some 4]
  /\ (let swapped := [ boardRow 2 "ed-3" "clip-3" 30 0;
                       boardRow 1 "ed-2" "clip-2" 30 0;
                       boardRow 0 "ed-1" "clip-1" 10 0;
                       boardRow 3 "ed-4" "clip-4" 5 0 ] in
      scoreDescending "camp-1" (sampleBoard 0 0 0 0) swapped
      /\ ranksOf "camp-1"
           (storeAfter (prizeService.finalizeLeaderboardFrom swapped
                          (sampleBoard 0 0 0 0)))
         = [3; 2; 1; 4])
  /\ NoDup (ranksOf "camp-1"
              (storeAfter (prizeService.finalizeLeaderboard "camp-1"
                             (sampleBoard 0 0 0 0)))).
Proof.
  split; [reflexivity|]. split; [reflexivity|]. split.
  - split; [|reflexivity]. split.
    + etransitivity; [apply perm_swap|].
      pose proof (stableSort_perm (fun a b => le_score b <? le_score a)
                    (filter (fun e => le_campaignId e = "camp-1")
                            (leaderboardEntry (sampleBoard 0 0 0 0)))) as H.
      vm_compute in H. vm_compute. exact H.
    + repeat constructor; cbn; lia.
  - rewrite finalizeLeaderboard_from_query.
    apply (finalizeLeaderboard_ranks_by_position 0 0 0 0).
    apply findMany_scoreDescending.
Defined.

(* ===================================================================== *)
(** ** JavaScript numbers: comparisons, NaN and rounding *)

Section Numbers.

Lemma SFcompare_antisym (x y : number) :
  SFcompare y x = CompOpp <$> SFcompare x y.
Proof.
  destruct x as [sx|sx| |sx mx ex], y as [sy|sy| |sy my ey]; cbn;
    try reflexivity;
    try (destruct sx; reflexivity); try (destruct sy; reflexivity);
    try (destruct sx, sy; reflexivity).
  f_equal. rewrite (Z.compare_antisym ey ex).
  rewrite !Pos.compare_cont_spec. cbn [Pos.switch_Eq].
  rewrite (Pos.compare_antisym my mx).
  destruct sx, sy; cbn; try reflexivity;
    destruct (ey ?= ex); cbn; try reflexivity;
    destruct (my ?= mx)%positive; reflexivity.
Qed.

Lemma leb_not_ltb (x y : number) :
  (x <=? y)%num = true -> (y <? x)%num = false.
Proof.
  unfold Number.leb, Number.ltb, SFleb, SFltb.
  rewrite (SFcompare_antisym x y).
  destruct (SFcompare x y) as [[]|]; cbn; congruence.
Qed.

Lemma ltb_not_leb (x y : number) :
  (x <? y)%num = true -> (y <=? x)%num = false.
Proof.
  unfold Number.leb, Number.ltb, SFleb, SFltb.
  rewrite (SFcompare_antisym x y).
  destruct (SFcompare x y) as [[]|]; cbn; congruence.
Qed.

(** NaN is absorbing, and no comparison with it holds. *)
Lemma add_NaN (x : number) : (x + Number.NaN)%num = Number.NaN.
Proof. destruct x; reflexivity. Qed.

Lemma sub_NaN (x : number) : (x - Number.NaN)%num = Number.NaN.
Proof. destruct x; reflexivity. Qed.

Lemma NaN_leb (x : number) : (Number.NaN <=? x)%num = false.
Proof. reflexivity. Qed.

Lemma ltb_NaN (x : number) : (x <? Number.NaN)%num = false.
Proof. destruct x; reflexivity. Qed.

End Numbers.

(* ===================================================================== *)
(** ** JavaScript numbers: integers and [Math.round] *)

Section Rounding.

Lemma digits2_pos_iter_xO (m k : positive) :
  digits2_pos (Pos.iter xO m k) = (digits2_pos m + k)%positive.
Proof.
  induction k as [|k IH] using Pos.peano_ind.
  - cbn. lia.
  - rewrite Pos.iter_succ. cbn. rewrite IH. lia.
Qed.

Lemma Zpos_iter_xO (m k : positive) :
  Zpos (Pos.iter xO m k) = Zpos m * 2 ^ Zpos k.
Proof.
  induction k as [|k IH] using Pos.peano_ind.
  - cbn. lia.
  - rewrite Pos.iter_succ, Pos2Z.inj_xO, IH, Pos2Z.inj_succ,
      Z.pow_succ_r by lia. ring.
Qed.

Lemma digits2_pos_lower (m : positive) :
  2 ^ (Zpos (digits2_pos m) - 1) <= Zpos m.
Proof.
  induction m as [m IH|m IH|]; cbn [digits2_pos].
  - rewrite Pos2Z.inj_succ.
    replace (Z.succ (Zpos (digits2_pos m)) - 1)
      with (Z.succ (Zpos (digits2_pos m) - 1)) by lia.
    rewrite Z.pow_succ_r by lia. lia.
  - rewrite Pos2Z.inj_succ.
    replace (Z.succ (Zpos (digits2_pos m)) - 1)
      with (Z.succ (Zpos (digits2_pos m) - 1)) by lia.
    rewrite Z.pow_succ_r by lia. lia.
  - cbn. lia.
Qed.

Lemma digits2_pos_upper (m : positive) :
  Zpos m < 2 ^ Zpos (digits2_pos m).
Proof.
  induction m as [m IH|m IH|]; cbn [digits2_pos].
  - rewrite Pos2Z.inj_succ, Z.pow_succ_r by lia. lia.
  - rewrite Pos2Z.inj_succ, Z.pow_succ_r by lia. lia.
  - cbn. lia.
Qed.

Lemma digits2_pos_le_53 (m : positive) :
  Zpos m < 2 ^ 53 -> Zpos (digits2_pos m) <= 53.
Proof.
  intros Hm. pose proof (digits2_pos_lower m) as Hlo.
  destruct (Z_le_gt_dec (Zpos (digits2_pos m)) 53) as [H|H]; [exact H|].
  exfalso.
  assert (2 ^ 53 <= 2 ^ (Zpos (digits2_pos m) - 1))
    by (apply Z.pow_le_mono_r; lia).
  lia.
Qed.

(** An integer below [2^53] is converted without rounding. *)
Lemma binary_round_integer (s : bool) (m : positive) :
  Zpos m < 2 ^ 53 ->
  exists m' e',
    binary_round Number.prec Number.emax s m 0 = S754_finite s m' e'
    /\ -52 <= e' <= 0 /\ Zpos m' = Zpos m * 2 ^ (- e').
Proof.
  intros Hm. pose proof (digits2_pos_le_53 m Hm) as Hd.
  unfold Number.prec, Number.emax, binary_round.
  assert (Hfexp : fexp 53 1024 (Zpos (digits2_pos m) + 0)
                  = Zpos (digits2_pos m) - 53).
  { unfold fexp, emin. lia. }
  rewrite Hfexp. unfold shl_align.
  destruct (Zpos (digits2_pos m) - 53 - 0) as [|k|k] eqn:Hk; [|lia|].
  - exists m, 0. split; [|split; [lia | cbn; lia]].
    unfold binary_round_aux, shr_fexp. cbn [Zdigits2 shr_record_of_loc].
    replace (fexp 53 1024 (Zpos (digits2_pos m) + 0) - 0) with 0
      by (rewrite Hfexp; lia).
    cbn [shr shr_m loc_of_shr_record round_nearest_even Zdigits2].
    replace (fexp 53 1024 (Zpos (digits2_pos m) + 0) - 0) with 0
      by (rewrite Hfexp; lia).
    cbn. reflexivity.
  - exists (Pos.iter xO m k), (Zpos (digits2_pos m) - 53).
    assert (Hkd : Zpos k = 53 - Zpos (digits2_pos m)) by lia.
    split; [|split; [lia|]].
    + unfold binary_round_aux, shr_fexp. cbn [Zdigits2 shr_record_of_loc].
      assert (Hz : fexp 53 1024
                     (Zpos (digits2_pos (Pos.iter xO m k))
                      + (Zpos (digits2_pos m) - 53))
                   - (Zpos (digits2_pos m) - 53) = 0).
      { rewrite digits2_pos_iter_xO. unfold fexp, emin. lia. }
      rewrite Hz.
      cbn [shr shr_m loc_of_shr_record round_nearest_even Zdigits2].
      rewrite Hz. cbn [shr shr_m].
      replace (Zpos (digits2_pos m) - 53 <=? 1024 - 53) with true
        by (symmetry; apply Z.leb_le; lia).
      reflexivity.
    + rewrite Zpos_iter_xO. f_equal. f_equal. lia.
Qed.

Lemma exactValue_finite_integer (s : bool) (m' : positive) (e' n : Z) :
  e' <= 0 -> cond_Zopp s (Zpos m') = n * 2 ^ (- e') ->
  Number.isInteger (S754_finite s m' e') n.
Proof.
  intros He Hm. unfold Number.isInteger, Number.exactValue.
  eexists. split; [reflexivity|].
  destruct (Z.leb_spec 0 e') as [H0|H0].
  - assert (e' = 0) by lia. subst e'. cbn in Hm.
    rewrite Hm. cbn. unfold Qeq. cbn. lia.
  - assert (Hpow : 0 < 2 ^ (- e')) by (apply Z.pow_pos_nonneg; lia).
    unfold Qeq. cbn [Qnum Qden inject_Z]. rewrite Z2Pos.id by exact Hpow.
    rewrite Hm. ring.
Qed.

Lemma ofInteger_isInteger (n : Z) :
  Z.abs n < 2 ^ 53 -> Number.isInteger (Number.ofInteger n) n.
Proof.
  intros Hn. unfold Number.ofInteger, binary_normalize.
  destruct n as [|m|m].
  - exists 0%Q. split; reflexivity.
  - destruct (binary_round_integer false m Hn) as (m' & e' & -> & He & Hm).
    apply exactValue_finite_integer; [lia | exact Hm].
  - destruct (binary_round_integer true m Hn) as (m' & e' & -> & He & Hm).
    apply exactValue_finite_integer; [lia|].
    change (cond_Zopp true (Z.pos m')) with (- Z.pos m').
    rewrite Hm, <- (Pos2Z.opp_pos m). ring.
Qed.

(** The integer [Math.round] picks lies within one half of its argument,
    the upper half excluded. *)
Lemma roundHalfUp_nearest (s : bool) (m : positive) (e : Z) (q : Q) :
  Number.exactValue (S754_finite s m e) = Some q ->
  (inject_Z (Number.roundHalfUp s m e) - (1 # 2) <= q)%Q
  /\ (q < inject_Z (Number.roundHalfUp s m e) + (1 # 2))%Q.
Proof.
  unfold Number.exactValue, Number.roundHalfUp. intros [= <-].
  destruct (Z.leb_spec 0 e) as [H0|H0].
  - split; lra.
  - set (M := cond_Zopp s (Zpos m)).
    assert (Hpow : 0 < 2 ^ (- e)) by (apply Z.pow_pos_nonneg; lia).
    assert (Hpow' : 2 ^ (- e + 1) = 2 * 2 ^ (- e))
      by (rewrite Z.pow_add_r by lia; lia).
    rewrite Hpow'.
    set (D := 2 ^ (- e)) in *.
    pose proof (Z.div_mod (2 * M + D) (2 * D) ltac:(lia)) as Hdm.
    pose proof (Z.mod_pos_bound (2 * M + D) (2 * D) ltac:(lia)) as Hb.
    set (n := (2 * M + D) / (2 * D)) in *.
    unfold Qle, Qlt. cbn [Qnum Qden Qminus Qplus Qopp inject_Z Qmult].
    rewrite !Z2Pos.id by lia. split; nia.
Qed.

Lemma wellFormed_mantissa (s : bool) (m : positive) (e : Z) :
  Number.wellFormed (S754_finite s m e) -> Zpos m < 2 ^ 53.
Proof.
  unfold Number.wellFormed, valid_binary, bounded, canonical_mantissa.
  intros H. apply andb_true_iff in H. destruct H as [H _].
  apply Z.eqb_eq in H. unfold fexp, emin, Number.prec, Number.emax in H.
  assert (Hd : Zpos (digits2_pos m) <= 53) by lia.
  eapply Z.lt_le_trans; [apply digits2_pos_upper|].
  apply Z.pow_le_mono_r; lia.
Qed.

(** [Math.round] of a finite number [x] stands for an integer within one
    half of [x]. *)
Lemma Math_round_nearest (x : number) (q : Q) :
  Number.wellFormed x ->
  Number.exactValue x = Some q ->
  exists n : Z,
    Number.isInteger (Number.Math_round x) n
    /\ (inject_Z n - (1 # 2) <= q)%Q /\ (q < inject_Z n + (1 # 2))%Q.
Proof.
  intros Hwf Hq. destruct x as [s|s| |s m e]; try discriminate.
  - injection Hq as <-. exists 0.
    split; [|split; [vm_compute; discriminate | reflexivity]].
    exists 0%Q. split; reflexivity.
  - pose proof (roundHalfUp_nearest s m e q Hq) as Hnear.
    exists (Number.roundHalfUp s m e). split; [|exact Hnear].
    unfold Number.Math_round.
    destruct (Z.leb_spec 0 e) as [H0|H0].
    + exists q. split; [exact Hq|].
      unfold Number.exactValue in Hq. unfold Number.roundHalfUp.
      destruct (Z.leb_spec 0 e); [|lia]. injection Hq as <-. reflexivity.
    + destruct (Z.eqb_spec (Number.roundHalfUp s m e) 0) as [Hz|Hnz].
      * rewrite Hz. exists 0%Q. split; reflexivity.
      * apply ofInteger_isInteger.
        pose proof (wellFormed_mantissa s m e Hwf) as Hm.
        destruct Hnear as [Hlo Hhi].
        unfold Number.exactValue in Hq.
        destruct (Z.leb_spec 0 e); [lia|]. injection Hq as <-.
        assert (Hpow : 2 <= 2 ^ (- e)).
        { change 2 with (2 ^ 1) at 1. apply Z.pow_le_mono_r; lia. }
        set (D := 2 ^ (- e)) in *.
        set (n := Number.roundHalfUp s m e) in *.
        unfold Qle, Qlt in Hlo, Hhi.
        cbn [Qnum Qden Qminus Qplus Qopp inject_Z Qmult] in Hlo, Hhi.
        rewrite !Z2Pos.id in Hlo, Hhi by lia.
        assert (Habs : Z.abs (cond_Zopp s (Z.pos m)) < 2 ^ 53)
          by (destruct s; cbn; lia).
        change (2 ^ 53) with 9007199254740992 in *.
        nia.
Qed.

End Rounding.

(* ===================================================================== *)
(** ** The ledger over JavaScript numbers *)

Section Ledger64.


(** [releasePending] once both guards let the amount through. *)
Lemma releasePending64_ok (s : binary64.Store) (u c d : string) (a : number)
    (b : binary64.Balance) :
  (a <=? 0)%num = false ->
  binary64.balance s !! u = Some b ->
  (binary64.pending b <? a)%num = false ->
  binary64.balanceService.releasePending u a c d s
  = binary64.Ok
      (binary64.mkBalance (binary64.bal_userId b)
         (binary64.available b + a)%num (binary64.pending b - a)%num,
       binary64.mkTransaction (length (binary64.transaction s)) u (Some c) a
         PAYOUT d)
      (binary64.set_published
         (fun l => l ++ [(binary64.released u c a
                            (length (binary64.transaction s)),
                          SERVICE_NAME)])
         (binary64.set_transaction
            (fun l => l ++ [binary64.mkTransaction
                              (length (binary64.transaction s)) u (Some c) a
                              PAYOUT d])
            (binary64.set_balance
               <[u := binary64.mkBalance (binary64.bal_userId b)
                        (binary64.available b + a)%num
                        (binary64.pending b - a)%num]> s))).
Proof.
  intros Ha Hb Hp.
  unfold binary64.balanceService.releasePending. rewrite Ha.
  unfold binary64.bind, binary64.prisma.transaction_,
    binary64.prisma.balance.findUnique.
  rewrite Hb, Hp.
  unfold binary64.prisma.balance.update. rewrite Hb.
  reflexivity.
Qed.

Lemma reserveFunds64_ok (s : binary64.Store) (u c d : string) (a : number) :
  (a <=? 0)%num = false ->
  let old := default (binary64.mkBalance u 0%num 0%num)
                     (binary64.balance s !! u) in
  let bal := binary64.mkBalance (binary64.bal_userId old)
               (binary64.available old) (binary64.pending old + a)%num in
  let tx := binary64.mkTransaction (length (binary64.transaction s)) u
              (Some c) a RESERVATION d in
  binary64.balanceService.reserveFunds u a c d s
  = binary64.Ok (bal, tx)
      (binary64.set_published
         (fun l => l ++ [(binary64.reserved "" u c a, SERVICE_NAME)])
         (binary64.set_transaction (fun l => l ++ [tx])
            (binary64.set_balance <[u := bal]> s))).
Proof.
  intros Ha old bal tx.
  unfold binary64.balanceService.reserveFunds. rewrite Ha.
  unfold binary64.bind, binary64.prisma.transaction_,
    binary64.prisma.balance.findUnique.
  subst old bal tx. destruct (binary64.balance s !! u) as [b|] eqn:Hb.
  - cbn. unfold binary64.prisma.balance.update. rewrite Hb. reflexivity.
  - cbn. unfold binary64.prisma.balance.create. cbn. rewrite Hb. cbn.
    unfold binary64.prisma.balance.update. cbn.
    rewrite lookup_insert_eq. cbn.
    unfold binary64.set_balance. cbn. rewrite insert_insert_eq.
    reflexivity.
Qed.

(** [addFunds] and [refundToCreator]: the upsert, the row and the event. *)
Lemma addFunds64_ok (s : binary64.Store) (u : string)
    (oc od : option string) (a : number) :
  (a <=? 0)%num = false ->
  let bal := match binary64.balance s !! u with
             | Some b => binary64.mkBalance (binary64.bal_userId b)
                           (binary64.available b + a)%num
                           (binary64.pending b)
             | None => binary64.mkBalance u a 0%num
             end in
  let tx := binary64.mkTransaction (length (binary64.transaction s)) u oc a
              DEPOSIT (default "Funds added" od) in
  binary64.balanceService.addFunds u a oc od s
  = binary64.Ok (bal, tx)
      (binary64.set_published
         (fun l => l ++ [(binary64.balanceChanged u
                            (binary64.available bal - a)%num
                            (binary64.available bal)
                            (binary64.pending bal) (binary64.pending bal)
                            (default "Funds added" od), SERVICE_NAME)])
         (binary64.set_transaction (fun l => l ++ [tx])
            (binary64.set_balance <[u := bal]> s))).
Proof.
  intros Ha bal tx.
  unfold binary64.balanceService.addFunds. rewrite Ha.
  unfold binary64.bind, binary64.prisma.transaction_,
    binary64.prisma.balance.upsert.
  subst bal tx. destruct (binary64.balance s !! u) as [b|]; reflexivity.
Qed.

Lemma refundToCreator64_ok (s : binary64.Store) (u c d : string)
    (a : number) :
  (a <=? 0)%num = false ->
  let bal := match binary64.balance s !! u with
             | Some b => binary64.mkBalance (binary64.bal_userId b)
                           (binary64.available b + a)%num
                           (binary64.pending b)
             | None => binary64.mkBalance u a 0%num
             end in
  let tx := binary64.mkTransaction (length (binary64.transaction s)) u
              (Some c) a REFUND d in
  binary64.balanceService.refundToCreator u a c d s
  = binary64.Ok (bal, tx)
      (binary64.set_published
         (fun l => l ++ [(binary64.balanceChanged u
                            (binary64.available bal - a)%num
                            (binary64.available bal)
                            (binary64.pending bal) (binary64.pending bal)
                            d, SERVICE_NAME)])
         (binary64.set_transaction (fun l => l ++ [tx])
            (binary64.set_balance <[u := bal]> s))).
Proof.
  intros Ha bal tx.
  unfold binary64.balanceService.refundToCreator. rewrite Ha.
  unfold binary64.bind, binary64.prisma.transaction_,
    binary64.prisma.balance.upsert.
  subst bal tx. destruct (binary64.balance s !! u) as [b|]; reflexivity.
Qed.

End Ledger64.

(** C3, as the code has it.  For every user whose balance exists with
    [pending >= a] and every amount [a > 0], [releasePending] returns: the
    stored [pending] becomes [pending - a] and the stored [available]
    becomes [available + a], each rounded to the nearest binary64 number;
    no other row changes, and exactly one PAYOUT transaction of amount [a]
    is appended.  The sum [available + pending] is unchanged whenever
    neither of the two results was rounded. *)
Theorem releasePending_moves_pending_to_available
    (s : binary64.Store) (u c d : string) (a : number)
    (b : binary64.Balance) :
  (0 <? a)%num = true ->
  binary64.balance s !! u = Some b ->
  (a <=? binary64.pending b)%num = true ->
  exists bal tx s',
    binary64.balanceService.releasePending u a c d s
      = binary64.Ok (bal, tx) s'
    /\ binary64.balance s' !! u = Some bal
    /\ binary64.pending bal = (binary64.pending b - a)%num
    /\ binary64.available bal = (binary64.available b + a)%num
    /\ (forall v, v <> u ->
          binary64.balance s' !! v = binary64.balance s !! v)
    /\ binary64.transaction s' = binary64.transaction s ++ [tx]
    /\ binary64.tx_type tx = PAYOUT
    /\ binary64.tx_amount tx = a
    /\ binary64.tx_userId tx = u
    /\ binary64.tx_campaignId tx = Some c
    /\ (forall qa qp qx qa' qp',
          Number.exactValue (binary64.available b) = Some qa ->
          Number.exactValue (binary64.pending b) = Some qp ->
          Number.exactValue a = Some qx ->
          Number.exactValue (binary64.available bal) = Some qa' ->
          Number.exactValue (binary64.pending bal) = Some qp' ->
          (qa' == qa + qx)%Q -> (qp' == qp - qx)%Q ->
          (qa' + qp' == qa + qp)%Q).
Proof.
  intros Ha Hb Hp.
  rewrite (releasePending64_ok s u c d a b
             (ltb_not_leb _ _ Ha) Hb (leb_not_ltb _ _ Hp)).
  eexists _, _, _. split; [reflexivity|].
  split; [cbn; apply lookup_insert_eq|].
  split; [reflexivity|]. split; [reflexivity|].
  split; [intros v Hv; cbn; now rewrite lookup_insert_ne|].
  split; [reflexivity|].
  split; [reflexivity|]. split; [reflexivity|]. split; [reflexivity|].
  split; [reflexivity|].
  intros qa qp qx qa' qp' _ _ _ _ _ Hqa Hqp. rewrite Hqa, Hqp. ring.
Qed.

Lemma releasePending_moves_pending_to_available_witness :
  exists bal tx s',
    binary64.balanceService.releasePending "ed-1" (Number.decimal 1 10)
      "camp-1" "payout" fractionalStore = binary64.Ok (bal, tx) s'
    /\ binary64.pending bal
       = (Number.decimal 3 10 - Number.decimal 1 10)%num
    /\ binary64.available bal
       = (Number.decimal 7 10 + Number.decimal 1 10)%num.
Proof.
  destruct (releasePending_moves_pending_to_available fractionalStore
              "ed-1" "camp-1" "payout" (Number.decimal 1 10)
              (binary64.mkBalance "ed-1" (Number.decimal 7 10)
                                  (Number.decimal 3 10)))
    as (bal & tx & s' & Hrun & _ & Hp & Ha & _);
    [reflexivity | reflexivity | reflexivity |].
  exists bal, tx, s'. split; [exact Hrun|]. split; [exact Hp | exact Ha].
Defined.

(** C3, as stated: with 0.7 available and 0.3 pending, releasing 0.1
    succeeds, and the new [available] and [pending] no longer add up to the
    old sum, neither as binary64 numbers (0.9999999999999999 against 1)
    nor as the rationals the stored numbers stand for. *)
Lemma releasePending_changes_the_sum :
  exists bal tx s' qa qp qa' qp',
    (0 <? Number.decimal 1 10)%num = true
    /\ (Number.decimal 1 10 <=? Number.decimal 3 10)%num = true
    /\ binary64.balanceService.releasePending "ed-1" (Number.decimal 1 10)
         "camp-1" "payout" fractionalStore = binary64.Ok (bal, tx) s'
    /\ binary64.balance s' !! "ed-1" = Some bal
    /\ (binary64.available bal + binary64.pending bal)%num
       <> (Number.decimal 7 10 + Number.decimal 3 10)%num
    /\ Number.exactValue (Number.decimal 7 10) = Some qa
    /\ Number.exactValue (Number.decimal 3 10) = Some qp
    /\ Number.exactValue (binary64.available bal) = Some qa'
    /\ Number.exactValue (binary64.pending bal) = Some qp'
    /\ ~ (qa' + qp' == qa + qp)%Q.
Proof.
  eexists _, _, _, _, _, _, _.
  split; [reflexivity|]. split; [reflexivity|].
  split; [vm_compute; reflexivity|].
  split; [vm_compute; reflexivity|].
  split; [vm_compute; discriminate|].
  split; [vm_compute; reflexivity|]. split; [vm_compute; reflexivity|].
  split; [vm_compute; reflexivity|]. split; [vm_compute; reflexivity|].
  vm_compute. discriminate.
Qed.

(* ===================================================================== *)
(** ** The non-negativity invariant and NaN *)

(** C8 at NaN.  The guard [amount <= 0] is false for NaN, and so is
    [pending < amount]: called with NaN for a user who has a row,
    [releasePending] returns, the stored [available] and [pending] both
    become NaN and a PAYOUT row of amount NaN is appended.  The same
    happens to [available] under [addFunds] and [refundToCreator] and to
    [pending] under [reserveFunds].  A store whose balances were all
    non-negative is not so afterwards. *)
Theorem ledger_stores_NaN (s : binary64.Store) (u c d : string)
    (oc od : option string) (b : binary64.Balance) :
  binary64.balance s !! u = Some b ->
  (exists bal tx s',
     binary64.balanceService.releasePending u Number.NaN c d s
       = binary64.Ok (bal, tx) s'
     /\ binary64.balance s' !! u = Some bal
     /\ binary64.available bal = Number.NaN
     /\ binary64.pending bal = Number.NaN
     /\ binary64.transaction s'
        = binary64.transaction s
          ++ [binary64.mkTransaction (length (binary64.transaction s)) u
                (Some c) Number.NaN PAYOUT d]
     /\ ~ binary64.balancesNonNegative s')
  /\ (exists bal tx s',
        binary64.balanceService.addFunds u Number.NaN oc od s
          = binary64.Ok (bal, tx) s'
        /\ binary64.balance s' !! u = Some bal
        /\ binary64.available bal = Number.NaN
        /\ ~ binary64.balancesNonNegative s')
  /\ (exists bal tx s',
        binary64.balanceService.refundToCreator u Number.NaN c d s
          = binary64.Ok (bal, tx) s'
        /\ binary64.balance s' !! u = Some bal
        /\ binary64.available bal = Number.NaN
        /\ ~ binary64.balancesNonNegative s')
  /\ (exists bal tx s',
        binary64.balanceService.reserveFunds u Number.NaN c d s
          = binary64.Ok (bal, tx) s'
        /\ binary64.balance s' !! u = Some bal
        /\ binary64.pending bal = Number.NaN
        /\ ~ binary64.balancesNonNegative s').
Proof.
  intros Hb.
  assert (Hbad : forall (s' : binary64.Store) bal,
            binary64.balance s' !! u = Some bal ->
            binary64.available bal = Number.NaN
            \/ binary64.pending bal = Number.NaN ->
            ~ binary64.balancesNonNegative s').
  { intros s' bal Hbal Hnan Hinv.
    destruct (Hinv u bal Hbal) as [H1 H2].
    destruct Hnan as [Hn|Hn]; rewrite Hn in *; discriminate. }
  split; [|split; [|split]].
  - rewrite (releasePending64_ok s u c d Number.NaN b
               (NaN_leb _) Hb (ltb_NaN _)).
    rewrite add_NaN, sub_NaN.
    eexists _, _, _. split; [reflexivity|].
    assert (Hrow : forall m : gmap string binary64.Balance,
              <[u := binary64.mkBalance (binary64.bal_userId b) Number.NaN
                       Number.NaN]> m !! u
              = Some (binary64.mkBalance (binary64.bal_userId b) Number.NaN
                        Number.NaN))
      by (intros m; apply lookup_insert_eq).
    split; [apply Hrow|].
    split; [reflexivity|]. split; [reflexivity|]. split; [reflexivity|].
    eapply Hbad; [apply Hrow | now left].
  - rewrite (addFunds64_ok s u oc od Number.NaN (NaN_leb _)).
    rewrite Hb. cbv zeta. rewrite add_NaN.
    eexists _, _, _. split; [reflexivity|].
    assert (Hrow : forall m : gmap string binary64.Balance,
              <[u := binary64.mkBalance (binary64.bal_userId b) Number.NaN
                       (binary64.pending b)]> m !! u
              = Some (binary64.mkBalance (binary64.bal_userId b) Number.NaN
                        (binary64.pending b)))
      by (intros m; apply lookup_insert_eq).
    split; [apply Hrow|]. split; [reflexivity|].
    eapply Hbad; [apply Hrow | now left].
  - rewrite (refundToCreator64_ok s u c d Number.NaN (NaN_leb _)).
    rewrite Hb. cbv zeta. rewrite add_NaN.
    eexists _, _, _. split; [reflexivity|].
    assert (Hrow : forall m : gmap string binary64.Balance,
              <[u := binary64.mkBalance (binary64.bal_userId b) Number.NaN
                       (binary64.pending b)]> m !! u
              = Some (binary64.mkBalance (binary64.bal_userId b) Number.NaN
                        (binary64.pending b)))
      by (intros m; apply lookup_insert_eq).
    split; [apply Hrow|]. split; [reflexivity|].
    eapply Hbad; [apply Hrow | now left].
  - rewrite (reserveFunds64_ok s u c d Number.NaN (NaN_leb _)).
    rewrite Hb. cbv zeta. cbn [default]. rewrite add_NaN.
    eexists _, _, _. split; [reflexivity|].
    assert (Hrow : forall m : gmap string binary64.Balance,
              <[u := binary64.mkBalance (binary64.bal_userId b)
                       (binary64.available b) Number.NaN]> m !! u
              = Some (binary64.mkBalance (binary64.bal_userId b)
                        (binary64.available b) Number.NaN))
      by (intros m; apply lookup_insert_eq).
    split; [apply Hrow|]. split; [reflexivity|].
    eapply Hbad; [apply Hrow | now right].
Qed.

Lemma fractionalStore_non_negative :
  binary64.balancesNonNegative fractionalStore.
Proof.
  intros k b Hk. unfold fractionalStore in Hk. cbn in Hk.
  apply lookup_singleton_Some in Hk. destruct Hk as [_ <-].
  split; reflexivity.
Defined.

Lemma ledger_stores_NaN_witness :
  binary64.balancesNonNegative fractionalStore
  /\ ~ binary64.balancesNonNegative
         (binary64.storeAfter
            (binary64.balanceService.releasePending "ed-1" Number.NaN
               "camp-1" "payout" fractionalStore)).
Proof.
  split; [exact fractionalStore_non_negative|].
  destruct (ledger_stores_NaN fractionalStore "ed-1" "camp-1" "payout"
              None None
              (binary64.mkBalance "ed-1" (Number.decimal 7 10)
                                  (Number.decimal 3 10)))
    as [(bal & tx & s' & Hrun & _ & _ & _ & _ & Hbad) _];
    [reflexivity|].
  rewrite Hrun. exact Hbad.
Defined.

(* ===================================================================== *)
(** ** The release step run twice over JavaScript numbers *)

(** C1 at fractional amounts.  In [closureStore] the campaign has
    RESERVATION rows of 262.29, 349 and 387.14 and a PAYOUT row of 262.29
    for the editor, whose [pending] is 736.14.  The first run finds
    998.43 reserved, 262.29 released, and releases the difference as
    binary64 computes it, 736.1399999999999; the call succeeds.  The second
    run adds the payouts up to 998.4299999999998, finds the remainder
    [2^-43 > 0] and calls [releasePending] again; the editor's [pending]
    covers it, so a further PAYOUT row is appended and the editor's
    [available] grows once more. *)
Theorem releasePendingStep_second_run_releases_again :
  let step := binary64.campaignClosure.releasePendingStep "camp-1" "Launch" in
  let first := S754_finite false 6475155917368196 (-43) in
  let again := S754_finite false 4503599627370496 (-95) in
  map (fun t => (binary64.tx_type t, binary64.tx_amount t))
      (binary64.transaction closureStore)
  = [ (RESERVATION, Number.decimal 26229 100);
      (PAYOUT, Number.decimal 26229 100);
      (RESERVATION, Number.ofInteger 349);
      (RESERVATION, Number.decimal 38714 100) ]
  /\ binary64.balance closureStore !! "ed-1"
     = Some (binary64.mkBalance "ed-1" (Number.decimal 26229 100)
                                (Number.decimal 73614 100))
  /\ exists s1 s2,
       step closureStore
         = binary64.Ok [binary64.campaignClosure.Released "ed-1" first] s1
       /\ first = (Number.decimal 99843 100 - Number.decimal 26229 100)%num
       /\ step s1
          = binary64.Ok [binary64.campaignClosure.Released "ed-1" again] s2
       /\ again
          = (Number.decimal 99843 100
             - (Number.decimal 26229 100 + first))%num
       /\ (0 <? again)%num = true
       /\ binary64.transaction s2
          = binary64.transaction s1
            ++ [binary64.mkTransaction 5 "ed-1" (Some "camp-1") again PAYOUT
                  "Campaign closure payout: Launch"]
       /\ binary64.availableOf s1 "ed-1"
          = S754_finite false 8782283156163132 (-43)
       /\ binary64.availableOf s2 "ed-1" = Number.decimal 99843 100
       /\ binary64.pendingOf s1 "ed-1" = again
       /\ binary64.pendingOf s2 "ed-1" = 0%num.
Proof.
  cbv zeta.
  split; [vm_compute; reflexivity|]. split; [vm_compute; reflexivity|].
  eexists _, _.
  split; [vm_compute; reflexivity|].
  split; [vm_compute; reflexivity|].
  split; [vm_compute; reflexivity|].
  split; [vm_compute; reflexivity|].
  split; [reflexivity|].
  split; [vm_compute; reflexivity|].
  split; [vm_compute; reflexivity|].
  split; [vm_compute; reflexivity|].
  split; vm_compute; reflexivity.
Qed.

(* ===================================================================== *)
(** ** The payout calculator over JavaScript numbers *)

Section PayoutCalculator64.

Lemma positive_truthy (l : number) :
  (0 <? l)%num = true -> Number.truthy l = true.
Proof. destruct l as [s|s| |s m e]; try discriminate; reflexivity. Qed.

Lemma limitApplies64_true (limit : option number) (amount : number) :
  binary64.payoutService.limitApplies limit amount = true <->
  exists l, limit = Some l /\ (0 <? l)%num = true /\ (l <? amount)%num = true.
Proof.
  unfold binary64.payoutService.limitApplies, Number.gtb.
  destruct limit as [l|].
  - rewrite !andb_true_iff. split.
    + intros [[_ H0] Hl]. exists l. auto.
    + intros (l' & [= <-] & H0 & Hl).
      split; [split; [now apply positive_truthy | exact H0] | exact Hl].
  - split; [discriminate | intros (l & [=] & _)].
Qed.

(** A positive limit is not exceeded by zero. *)
Lemma limitApplies64_zero (limit : option number) (sg : bool) :
  binary64.payoutService.limitApplies limit (S754_zero sg) = false.
Proof.
  destruct (binary64.payoutService.limitApplies limit (S754_zero sg)) eqn:E;
    [|reflexivity].
  apply limitApplies64_true in E. destruct E as (l & _ & H0 & Hl).
  destruct l as [s|s| |s m e]; try discriminate;
    destruct s; discriminate.
Qed.

Lemma baseAmount64_cases (i : binary64.payoutService.ClipPaymentInput) :
  let views := binary64.payoutService.views i in
  let basePay := binary64.payoutService.basePay i in
  let rewardPerView := binary64.payoutService.rewardPerView i in
  let paymentType := binary64.payoutService.paymentType i in
  (paymentType = "FIXED" ->
     binary64.payoutService.baseAmount i = basePay)
  /\ (paymentType = "PAY_PER_VIEW" ->
        binary64.payoutService.baseAmount i = (views * rewardPerView)%num)
  /\ (paymentType = "HYBRID" ->
        binary64.payoutService.baseAmount i
        = (basePay + views * rewardPerView)%num)
  /\ (paymentType <> "FIXED" -> paymentType <> "PAY_PER_VIEW" ->
      paymentType <> "HYBRID" ->
      binary64.payoutService.baseAmount i = 0%num).
Proof.
  cbv zeta. unfold binary64.payoutService.baseAmount.
  destruct (String.eqb_spec (binary64.payoutService.paymentType i) "FIXED")
    as [E1|E1];
    [rewrite E1; repeat split; (reflexivity || discriminate || congruence)|].
  destruct (String.eqb_spec (binary64.payoutService.paymentType i)
              "PAY_PER_VIEW") as [E2|E2];
    [rewrite E2; repeat split; (reflexivity || discriminate || congruence)|].
  destruct (String.eqb_spec (binary64.payoutService.paymentType i) "HYBRID")
    as [E3|E3];
    [rewrite E3; repeat split; (reflexivity || discriminate || congruence)|].
  repeat split; congruence.
Qed.

(** [Math.round] returns an integer below [2^53] as it is. *)
Lemma Math_round_ofInteger (n : Z) :
  Z.abs n < 2 ^ 53 ->
  Number.Math_round (Number.ofInteger n) = Number.ofInteger n.
Proof.
  intros Hn.
  assert (Hcase : n = 0 \/ exists s m' e',
            Number.ofInteger n = S754_finite s m' e' /\ -52 <= e' <= 0
            /\ cond_Zopp s (Z.pos m') = n * 2 ^ (- e')).
  { destruct n as [|m|m]; [now left| |]; right.
    - destruct (binary_round_integer false m Hn) as (m' & e' & E & He & Hm).
      exists false, m', e'. split; [exact E|]. split; [exact He | exact Hm].
    - destruct (binary_round_integer true m Hn) as (m' & e' & E & He & Hm).
      exists true, m', e'. split; [exact E|]. split; [exact He|].
      change (cond_Zopp true (Z.pos m')) with (- Z.pos m').
      rewrite Hm, <- (Pos2Z.opp_pos m). ring. }
  destruct Hcase as [-> | (s & m' & e' & E & He & Hm)]; [reflexivity|].
  rewrite E. unfold Number.Math_round.
  destruct (Z.leb_spec 0 e') as [H0|H0]; [reflexivity|].
  assert (Hr : Number.roundHalfUp s m' e' = n).
  { unfold Number.roundHalfUp. destruct (Z.leb_spec 0 e'); [lia|].
    rewrite Hm.
    assert (Hpow : 0 < 2 ^ (- e')) by (apply Z.pow_pos_nonneg; lia).
    rewrite Z.pow_add_r by lia. change (2 ^ 1) with 2.
    set (D := 2 ^ (- e')) in *.
    symmetry. apply (Z.div_unique _ _ _ D); lia. }
  rewrite Hr.
  destruct (Z.eqb_spec n 0) as [Hz|Hnz]; [|exact E].
  rewrite Hz in E. discriminate E.
Qed.

(** C6, as the code has it.  [calculateClipPayment] computes [basePay] for
    FIXED, the binary64 product [views * rewardPerView] for PAY_PER_VIEW,
    the binary64 sum of [basePay] and that product for HYBRID and [0] for
    any other payment type; replaces that amount by [limitPerClip] exactly
    when the limit is set, positive and exceeded; and returns [Math.round]
    of the outcome, which for a finite outcome is the integer within one
    half of that binary64 number, halves up.  In particular FIXED ignores
    [views] and returns an integral [basePay] as it is, PAY_PER_VIEW with
    no views and a finite reward yields zero, HYBRID with [basePay = 100],
    [rewardPerView = 2], [views = 10] yields [120], and an unknown type
    yields [0]. *)
Theorem calculateClipPayment_spec :
  (forall i : binary64.payoutService.ClipPaymentInput,
     exists computed final : number,
       (binary64.payoutService.paymentType i = "FIXED" ->
          computed = binary64.payoutService.basePay i)
       /\ (binary64.payoutService.paymentType i = "PAY_PER_VIEW" ->
             computed = (binary64.payoutService.views i
                         * binary64.payoutService.rewardPerView i)%num)
       /\ (binary64.payoutService.paymentType i = "HYBRID" ->
             computed = (binary64.payoutService.basePay i
                         + binary64.payoutService.views i
                           * binary64.payoutService.rewardPerView i)%num)
       /\ (binary64.payoutService.paymentType i <> "FIXED" ->
           binary64.payoutService.paymentType i <> "PAY_PER_VIEW" ->
           binary64.payoutService.paymentType i <> "HYBRID" ->
           computed = 0%num)
       /\ (forall l, binary64.payoutService.limitPerClip i = Some l ->
             (0 <? l)%num = true -> (l <? computed)%num = true ->
             final = l)
       /\ ((forall l, binary64.payoutService.limitPerClip i = Some l ->
              ~ ((0 <? l)%num = true /\ (l <? computed)%num = true)) ->
           final = computed)
       /\ binary64.payoutService.calculateClipPayment i
          = Number.Math_round final
       /\ (forall q, Number.wellFormed final ->
             Number.exactValue final = Some q ->
             exists n : Z,
               Number.isInteger
                 (binary64.payoutService.calculateClipPayment i) n
               /\ (inject_Z n - (1 # 2) <= q)%Q
               /\ (q < inject_Z n + (1 # 2))%Q))
  /\ (forall v v' b r l,
        binary64.payoutService.calculateClipPayment
          (binary64.payoutService.mkClipPaymentInput v "FIXED" b r l)
        = binary64.payoutService.calculateClipPayment
            (binary64.payoutService.mkClipPaymentInput v' "FIXED" b r l))
  /\ (forall v (n : Z) r, Z.abs n < 2 ^ 53 ->
        binary64.payoutService.calculateClipPayment
          (binary64.payoutService.mkClipPaymentInput v "FIXED"
             (Number.ofInteger n) r None)
        = Number.ofInteger n)
  /\ (forall sg b r l q, Number.exactValue r = Some q ->
        exists sg',
          binary64.payoutService.calculateClipPayment
            (binary64.payoutService.mkClipPaymentInput (S754_zero sg)
               "PAY_PER_VIEW" b r l)
          = S754_zero sg')
  /\ (forall l,
        binary64.payoutService.calculateClipPayment
          (binary64.payoutService.mkClipPaymentInput (Number.ofInteger 10)
             "HYBRID" (Number.ofInteger 100) (Number.ofInteger 2) None)
        = Number.ofInteger 120
        /\ ((Number.ofInteger 120 <? l)%num = true ->
            binary64.payoutService.calculateClipPayment
              (binary64.payoutService.mkClipPaymentInput
                 (Number.ofInteger 10) "HYBRID" (Number.ofInteger 100)
                 (Number.ofInteger 2) (Some l))
            = Number.ofInteger 120))
  /\ (forall v t b r l, t <> "FIXED" -> t <> "PAY_PER_VIEW" ->
        t <> "HYBRID" ->
        binary64.payoutService.calculateClipPayment
          (binary64.payoutService.mkClipPaymentInput v t b r l) = 0%num).
Proof.
  split; [|split; [|split; [|split; [|split]]]].
  - intros i.
    exists (binary64.payoutService.baseAmount i),
      (if binary64.payoutService.limitApplies
            (binary64.payoutService.limitPerClip i)
            (binary64.payoutService.baseAmount i)
       then default 0%num (binary64.payoutService.limitPerClip i)
       else binary64.payoutService.baseAmount i).
    destruct (baseAmount64_cases i) as (H1 & H2 & H3 & H4).
    split; [exact H1|]. split; [exact H2|]. split; [exact H3|].
    split; [exact H4|]. split; [|split; [|split]].
    + intros l Hl H0 Hlt.
      replace (binary64.payoutService.limitApplies
                 (binary64.payoutService.limitPerClip i)
                 (binary64.payoutService.baseAmount i)) with true
        by (symmetry; apply limitApplies64_true; eauto).
      rewrite Hl. reflexivity.
    + intros Hno.
      destruct (binary64.payoutService.limitApplies
                  (binary64.payoutService.limitPerClip i)
                  (binary64.payoutService.baseAmount i)) eqn:E;
        [|reflexivity].
      apply limitApplies64_true in E. destruct E as (l & Hl & H0 & Hlt).
      exfalso. apply (Hno l Hl). split; assumption.
    + reflexivity.
    + intros q Hwf Hq. apply (Math_round_nearest _ q Hwf Hq).
  - intros. reflexivity.
  - intros v n r Hn. unfold binary64.payoutService.calculateClipPayment.
    cbn. now apply Math_round_ofInteger.
  - intros sg b r l q Hq.
    unfold binary64.payoutService.calculateClipPayment.
    change (binary64.payoutService.baseAmount
              (binary64.payoutService.mkClipPaymentInput (S754_zero sg)
                 "PAY_PER_VIEW" b r l))
      with (S754_zero sg * r)%num.
    cbv beta iota zeta delta [binary64.payoutService.limitPerClip].
    destruct r as [sr|sr| |sr mr er]; try discriminate.
    + exists (xorb sg sr).
      change (S754_zero sg * S754_zero sr)%num with (S754_zero (xorb sg sr)).
      now rewrite limitApplies64_zero.
    + exists (xorb sg sr).
      change (S754_zero sg * S754_finite sr mr er)%num
        with (S754_zero (xorb sg sr)).
      now rewrite limitApplies64_zero.
  - intros l. split; [vm_compute; reflexivity|]. intros Hl.
    unfold binary64.payoutService.calculateClipPayment.
    replace (binary64.payoutService.baseAmount
               (binary64.payoutService.mkClipPaymentInput
                  (Number.ofInteger 10) "HYBRID" (Number.ofInteger 100)
                  (Number.ofInteger 2) (Some l)))
      with (Number.ofInteger 120) by (vm_compute; reflexivity).
    cbv beta iota zeta delta [binary64.payoutService.limitPerClip].
    replace (binary64.payoutService.limitApplies (Some l)
               (Number.ofInteger 120)) with false;
      [vm_compute; reflexivity|].
    symmetry.
    destruct (binary64.payoutService.limitApplies (Some l)
                (Number.ofInteger 120)) eqn:E; [|reflexivity].
    apply limitApplies64_true in E. destruct E as (l' & [= <-] & H0 & Hlt).
    pose proof (leb_not_ltb l (Number.ofInteger 120)) as Hno.
    unfold Number.leb, Number.ltb, SFleb, SFltb in *.
    destruct (SFcompare l (Number.ofInteger 120)) as [[]|];
      try discriminate.
    rewrite Hno in Hl by reflexivity. discriminate.
  - intros v t b r l N1 N2 N3.
    unfold binary64.payoutService.calculateClipPayment,
      binary64.payoutService.baseAmount.
    cbv beta iota zeta delta [binary64.payoutService.limitPerClip
                               binary64.payoutService.paymentType].
    apply String.eqb_neq in N1, N2, N3. rewrite N1, N2, N3.
    unfold Number.zero. now rewrite limitApplies64_zero.
Qed.

(** C6, as stated.  With [views = 0] and an infinite [rewardPerView] the
    PAY_PER_VIEW result is NaN, not 0.  And for [views = 10] and
    [rewardPerView = 0.15] the result is 2, although the product of the
    two numbers is below one and a half, so that the integer nearest to
    [views * rewardPerView] is 1. *)
Lemma calculateClipPayment_zero_views_and_rounding :
  binary64.payoutService.calculateClipPayment
    (binary64.payoutService.mkClipPaymentInput 0%num "PAY_PER_VIEW" 0%num
       (S754_infinity false) None)
  = Number.NaN
  /\ exists qv qr,
       Number.exactValue (Number.ofInteger 10) = Some qv
       /\ Number.exactValue (Number.decimal 15 100) = Some qr
       /\ binary64.payoutService.calculateClipPayment
            (binary64.payoutService.mkClipPaymentInput (Number.ofInteger 10)
               "PAY_PER_VIEW" 0%num (Number.decimal 15 100) None)
          = Number.ofInteger 2
       /\ (qv * qr < 3 # 2)%Q
       /\ ~ (inject_Z 2 - (1 # 2) <= qv * qr)%Q.
Proof.
  split; [reflexivity|].
  eexists _, _.
  split; [vm_compute; reflexivity|]. split; [vm_compute; reflexivity|].
  split; [vm_compute; reflexivity|].
  split; [vm_compute; reflexivity|].
  vm_compute. intros H. now apply H.
Qed.

End PayoutCalculator64.

(* ===================================================================== *)
(** * Further properties of the code *)
(* ===================================================================== *)

(** ** The ledger: credits, rejections, reads *)





(** X3. [addFunds], [reserveFunds] and [refundToCreator] reject an amount
    that is zero or negative with the invalid-amount error before touching
    the store: no row is created or changed, nothing is appended or
    published. *)
Theorem ledger_rejects_non_positive_amounts
    (s : Store) (u c d : string) (oc od : option string) (a : Z) :
  a <= 0 ->
  balanceService.addFunds u a oc od s = Throw InvalidAmount s
  /\ balanceService.reserveFunds u a c d s = Throw InvalidAmount s
  /\ balanceService.refundToCreator u a c d s = Throw InvalidAmount s.
Proof.
  intros Ha.
  unfold balanceService.addFunds, balanceService.reserveFunds,
    balanceService.refundToCreator.
  amount_not_positive a. repeat split.
Qed.

Lemma ledger_rejects_non_positive_amounts_witness :
  balanceService.addFunds "ed-1" (-5) None None sampleStore
    = Throw InvalidAmount sampleStore
  /\ balanceService.reserveFunds "ed-1" 0 "camp-1" "clip" sampleStore
     = Throw InvalidAmount sampleStore.
Proof.
  split.
  - apply (ledger_rejects_non_positive_amounts sampleStore "ed-1" "" ""
             None None (-5)). lia.
  - apply (ledger_rejects_non_positive_amounts sampleStore "ed-1" "camp-1"
             "clip" None None 0). lia.
Defined.

(** X4. [getBalance] never throws and never touches the transaction log or
    another user's row.  It returns the user's row when there is one,
    leaving the store as it was, and otherwise creates and returns a zero
    row; asking again returns the same row and changes nothing. *)
Theorem getBalance_reads_with_default (s : Store) (u : string) :
  exists bal s',
    balanceService.getBalance u s = Ok bal s'
    /\ bal = default (mkBalance u 0 0) (balance s !! u)
    /\ balance s' !! u = Some bal
    /\ (is_Some (balance s !! u) -> s' = s)
    /\ (forall v, v <> u -> balance s' !! v = balance s !! v)
    /\ transaction s' = transaction s
    /\ published s' = published s
    /\ balanceService.getBalance u s' = Ok bal s'.
Proof.
  destruct (balance s !! u) as [b|] eqn:Hb.
  - exists b, s. rewrite (getBalance_existing s u b Hb).
    split; [reflexivity|]. split; [reflexivity|]. split; [exact Hb|].
    split; [reflexivity|]. split; [reflexivity|].
    split; [reflexivity|]. split; reflexivity.
  - exists (mkBalance u 0 0), (set_balance <[u := mkBalance u 0 0]> s).
    rewrite (getBalance_absent s u Hb).
    split; [reflexivity|]. split; [reflexivity|].
    split; [cbn; apply lookup_insert_eq|].
    split; [intros [? [=]]|].
    split; [intros v Hv; cbn; now rewrite lookup_insert_ne|].
    split; [reflexivity|]. split; [reflexivity|].
    apply getBalance_existing. cbn. apply lookup_insert_eq.
Qed.

(* ===================================================================== *)
(** ** Reserve then release, and the events, over JavaScript numbers *)

(** X5. Reserving [a > 0] and then releasing the same amount returns
    whenever the release passes its check, that is unless the raised
    [pending] compares below [a]: the user ends with [available + a] and
    with [(pending + a) - a], both computed in binary64, and the log gains a
    RESERVATION and a PAYOUT of [a].  The round trip does not always restore
    [pending]: from 0.3 pending, reserving and releasing 0.4 leaves
    0.29999999999999993. *)
Theorem reserve_then_release_round_trip
    (s : binary64.Store) (u c d d' : string) (a : number) :
  (0 <? a)%num = true ->
  ((binary64.pendingOf s u + a) <? a)%num = false ->
  exists r1 r2 s',
    binary64.bind (binary64.balanceService.reserveFunds u a c d)
      (fun r1 =>
         binary64.bind (binary64.balanceService.releasePending u a c d')
           (fun r2 => binary64.ret (r1, r2))) s
      = binary64.Ok (r1, r2) s'
    /\ binary64.availableOf s' u = (binary64.availableOf s u + a)%num
    /\ binary64.pendingOf s' u = (binary64.pendingOf s u + a - a)%num
    /\ (forall v, v <> u ->
          binary64.balance s' !! v = binary64.balance s !! v)
    /\ map (fun t => (binary64.tx_type t, binary64.tx_amount t))
           (drop (length (binary64.transaction s)) (binary64.transaction s'))
       = [(RESERVATION, a); (PAYOUT, a)].
Proof.
  intros Ha Hp. pose proof (ltb_not_leb _ _ Ha) as Hguard.
  unfold binary64.bind at 1.
  rewrite (reserveFunds64_ok s u c d a Hguard). cbv beta iota zeta.
  set (old := default (binary64.mkBalance u 0%num 0%num)
                      (binary64.balance s !! u)).
  assert (Hold : binary64.pending old = binary64.pendingOf s u).
  { unfold old, binary64.pendingOf.
    destruct (binary64.balance s !! u); reflexivity. }
  assert (Hav : binary64.available old = binary64.availableOf s u).
  { unfold old, binary64.availableOf.
    destruct (binary64.balance s !! u); reflexivity. }
  set (bal := binary64.mkBalance (binary64.bal_userId old)
                (binary64.available old) (binary64.pending old + a)%num).
  unfold binary64.bind at 1.
  match goal with
  | |- context [binary64.balanceService.releasePending u a c d' ?s1] =>
      rewrite (releasePending64_ok s1 u c d' a bal Hguard);
        [ | cbn; apply lookup_insert_eq
          | subst bal; cbn [binary64.pending]; now rewrite Hold ]
  end.
  cbv beta iota zeta delta [binary64.ret]. eexists _, _, _.
  split; [reflexivity|].
  unfold binary64.availableOf at 1, binary64.pendingOf at 1. cbn.
  rewrite insert_insert_eq, lookup_insert_eq. subst bal. cbn.
  split; [now rewrite Hav|]. split; [now rewrite Hold|]. split.
  - intros v Hv. now rewrite lookup_insert_ne.
  - rewrite <- app_assoc, drop_app_length. reflexivity.
Qed.

Lemma reserve_then_release_round_trip_witness :
  exists r s',
    binary64.bind
      (binary64.balanceService.reserveFunds "ed-1" (Number.decimal 4 10)
         "camp-1" "clip")
      (fun r1 =>
         binary64.bind
           (binary64.balanceService.releasePending "ed-1"
              (Number.decimal 4 10) "camp-1" "pay")
           (fun r2 => binary64.ret (r1, r2))) fractionalStore
      = binary64.Ok r s'
    /\ binary64.pendingOf fractionalStore "ed-1" = Number.decimal 3 10
    /\ binary64.pendingOf s' "ed-1"
       = S754_finite false 5404319552844594 (-54)
    /\ binary64.pendingOf s' "ed-1" <> Number.decimal 3 10.
Proof.
  destruct (reserve_then_release_round_trip fractionalStore "ed-1" "camp-1"
              "clip" "pay" (Number.decimal 4 10))
    as (r1 & r2 & s' & Hr & _ & Hp & _);
    [reflexivity | reflexivity |].
  exists (r1, r2), s'. split; [exact Hr|].
  split; [reflexivity|]. rewrite Hp.
  split; [vm_compute; reflexivity | vm_compute; discriminate].
Defined.

(** X6. Each successful ledger mutation publishes exactly one event.
    [addFunds] and [refundToCreator] publish a balance-changed event whose
    new [available] is the stored value after the credit and whose old
    [available] is recomputed from it as [new - amount] in binary64, with
    [pending] unchanged; the recomputed value is not always the stored
    value before the credit (crediting 0.4 to 0.7 reports
    0.7000000000000001 as the old value).  [reserveFunds] publishes a
    reserved event with an empty clip identifier, [releasePending] a
    released event naming the PAYOUT row it appended. *)
Theorem ledger_events_describe_the_change
    (s : binary64.Store) (u c d : string) (oc od : option string)
    (a : number) :
  (0 <? a)%num = true ->
  let stored :=
    match binary64.balance s !! u with
    | Some b => (binary64.available b + a)%num
    | None => a
    end in
  (let s' := binary64.storeAfter
               (binary64.balanceService.addFunds u a oc od s) in
   binary64.availableOf s' u = stored
   /\ binary64.published s'
      = binary64.published s ++
          [(binary64.balanceChanged u (stored - a)%num stored
              (binary64.pendingOf s u) (binary64.pendingOf s u)
              (default "Funds added" od), SERVICE_NAME)])
  /\ (let s' := binary64.storeAfter
                  (binary64.balanceService.refundToCreator u a c d s) in
      binary64.availableOf s' u = stored
      /\ binary64.published s'
         = binary64.published s ++
             [(binary64.balanceChanged u (stored - a)%num stored
                 (binary64.pendingOf s u) (binary64.pendingOf s u) d,
               SERVICE_NAME)])
  /\ binary64.published
       (binary64.storeAfter
          (binary64.balanceService.reserveFunds u a c d s))
     = binary64.published s ++ [(binary64.reserved "" u c a, SERVICE_NAME)]
  /\ ((a <=? binary64.pendingOf s u)%num = true ->
      is_Some (binary64.balance s !! u) ->
      let s' := binary64.storeAfter
                  (binary64.balanceService.releasePending u a c d s) in
      exists tx,
        last (binary64.transaction s') = Some tx
        /\ binary64.tx_type tx = PAYOUT
        /\ binary64.published s'
           = binary64.published s ++
               [(binary64.released u c a (binary64.tx_id tx),
                 SERVICE_NAME)]).
Proof.
  intros Ha stored. pose proof (ltb_not_leb _ _ Ha) as Hguard.
  split; [|split; [|split]].
  - rewrite (addFunds64_ok s u oc od a Hguard). cbn.
    unfold binary64.availableOf, binary64.pendingOf. cbn.
    rewrite lookup_insert_eq. subst stored.
    destruct (binary64.balance s !! u); split; reflexivity.
  - rewrite (refundToCreator64_ok s u c d a Hguard). cbn.
    unfold binary64.availableOf, binary64.pendingOf. cbn.
    rewrite lookup_insert_eq. subst stored.
    destruct (binary64.balance s !! u); split; reflexivity.
  - rewrite (reserveFunds64_ok s u c d a Hguard). reflexivity.
  - intros Hp [b Hb]. unfold binary64.pendingOf in Hp. rewrite Hb in Hp.
    cbn in Hp.
    rewrite (releasePending64_ok s u c d a b Hguard Hb
               (leb_not_ltb _ _ Hp)).
    cbn. eexists. split; [apply last_snoc|]. split; reflexivity.
Qed.

Lemma ledger_events_describe_the_change_witness :
  binary64.availableOf fractionalStore "ed-1" = Number.decimal 7 10
  /\ exists old new,
       binary64.published
         (binary64.storeAfter
            (binary64.balanceService.addFunds "ed-1" (Number.decimal 4 10)
               None None fractionalStore))
       = [(binary64.balanceChanged "ed-1" old new (Number.decimal 3 10)
             (Number.decimal 3 10) "Funds added", SERVICE_NAME)]
       /\ new = (Number.decimal 7 10 + Number.decimal 4 10)%num
       /\ old = S754_finite false 6305039478318695 (-53)
       /\ old <> Number.decimal 7 10.
Proof.
  split; [reflexivity|].
  destruct (ledger_events_describe_the_change fractionalStore "ed-1" "" ""
              None None (Number.decimal 4 10)) as [[_ Hpub] _];
    [reflexivity|].
  eexists _, _. split; [exact Hpub|]. split; [reflexivity|].
  split; [vm_compute; reflexivity | vm_compute; discriminate].
Defined.

(* ===================================================================== *)
(** ** The non-negativity invariant over JavaScript numbers *)

Section Signs.

Lemma shr_1_nonneg (r : shr_record) : 0 <= shr_m r -> 0 <= shr_m (shr_1 r).
Proof.
  destruct r as [m b1 b2]. cbn. intros Hm.
  destruct m as [|p|p]; [cbn; lia| |lia].
  destruct p; cbn; lia.
Qed.

Lemma iter_pos_nonneg (p : positive) (r : shr_record) :
  0 <= shr_m r -> 0 <= shr_m (SpecFloat.iter_pos shr_1 p r).
Proof.
  revert r. induction p as [p IH|p IH|]; intros r Hr; cbn.
  - apply IH, IH, shr_1_nonneg, Hr.
  - apply IH, IH, Hr.
  - apply shr_1_nonneg, Hr.
Qed.

Lemma shr_fexp_nonneg (m e : Z) (l : location) :
  0 <= m -> 0 <= shr_m (fst (shr_fexp Number.prec Number.emax m e l)).
Proof.
  intros Hm. unfold shr_fexp, shr.
  assert (H0 : 0 <= shr_m (shr_record_of_loc m l))
    by (destruct l as [|[]]; exact Hm).
  destruct (fexp _ _ _ - e) as [|p|p]; cbn [fst]; try exact H0.
  now apply iter_pos_nonneg.
Qed.

Lemma round_nearest_even_nonneg (m : Z) (l : location) :
  0 <= m -> 0 <= round_nearest_even m l.
Proof.
  intros Hm. unfold round_nearest_even.
  destruct l as [|[]]; try lia. destruct (Z.even m); lia.
Qed.

(** Rounding a non-negative mantissa gives a non-negative number. *)
Lemma binary_round_aux_nonneg (m e : Z) (l : location) :
  0 <= m ->
  (0 <=? binary_round_aux Number.prec Number.emax false m e l)%num = true.
Proof.
  intros Hm. unfold binary_round_aux.
  pose proof (shr_fexp_nonneg m e l Hm) as H1.
  destruct (shr_fexp Number.prec Number.emax m e l) as [mrs' e'].
  cbn [fst] in H1.
  pose proof (shr_fexp_nonneg
                (round_nearest_even (shr_m mrs') (loc_of_shr_record mrs'))
                e' loc_Exact
                (round_nearest_even_nonneg _ _ H1)) as H2.
  destruct (shr_fexp Number.prec Number.emax
              (round_nearest_even (shr_m mrs') (loc_of_shr_record mrs'))
              e' loc_Exact) as [mrs'' e''].
  cbn [fst] in H2.
  destruct (shr_m mrs'') as [|p|p]; [reflexivity| |lia].
  destruct (e'' <=? Number.emax - Number.prec); reflexivity.
Qed.

Lemma binary_normalize_nonneg (m e : Z) :
  0 <= m ->
  (0 <=? binary_normalize Number.prec Number.emax m e false)%num = true.
Proof.
  intros Hm. unfold binary_normalize.
  destruct m as [|p|p]; [reflexivity| |lia].
  unfold binary_round.
  destruct (shl_align p e _) as [mz ez].
  apply binary_round_aux_nonneg. lia.
Qed.

(** A non-negative number plus a positive one is non-negative. *)
Lemma add_nonneg (x a : number) :
  (0 <=? x)%num = true -> (0 <? a)%num = true -> (0 <=? x + a)%num = true.
Proof.
  intros Hx Ha.
  destruct x as [sx|sx| |sx mx ex]; try discriminate;
    destruct a as [sa|sa| |sa ma ea]; try discriminate;
    try (destruct sx; try discriminate);
    try (destruct sa; try discriminate);
    try reflexivity.
  unfold Number.add, SFadd. apply binary_normalize_nonneg.
  cbn [cond_Zopp]. lia.
Qed.

Lemma shl_align_value (m : positive) (e ez : Z) :
  ez <= e ->
  Zpos (fst (shl_align m e ez)) = Zpos m * 2 ^ (e - ez).
Proof.
  intros He. unfold shl_align.
  destruct (ez - e) as [|d|d] eqn:Hd; cbn [fst].
  - replace (e - ez) with 0 by lia. cbn. lia.
  - lia.
  - rewrite Zpos_iter_xO. f_equal. f_equal. lia.
Qed.

Lemma wellFormed_canonical (s : bool) (m : positive) (e : Z) :
  Number.wellFormed (S754_finite s m e) ->
  -1074 <= e /\ Zpos (digits2_pos m) <= 53
  /\ (-1074 < e -> Zpos (digits2_pos m) = 53).
Proof.
  unfold Number.wellFormed, valid_binary, bounded, canonical_mantissa.
  intros H. apply andb_true_iff in H. destruct H as [H _].
  apply Z.eqb_eq in H. unfold fexp, emin, Number.prec, Number.emax in H.
  lia.
Qed.

(** A number minus a positive finite number it is not below is
    non-negative. *)
Lemma sub_nonneg (p a : number) (q : Q) :
  Number.wellFormed p -> Number.wellFormed a ->
  Number.exactValue a = Some q ->
  (0 <=? p)%num = true -> (0 <? a)%num = true -> (p <? a)%num = false ->
  (0 <=? p - a)%num = true.
Proof.
  intros Wp Wa Hq Hp Ha Hlt.
  destruct a as [sa|sa| |sa ma ea]; try discriminate.
  destruct sa; [discriminate|].
  destruct p as [sp|sp| |sp mp ep]; try discriminate.
  - destruct sp; [discriminate | reflexivity].
  - destruct sp; [discriminate|].
    unfold Number.sub, SFsub. apply binary_normalize_nonneg.
    cbn [cond_Zopp].
    rewrite !shl_align_value by lia.
    unfold Number.ltb, SFltb, SFcompare in Hlt.
    destruct (wellFormed_canonical false mp ep Wp) as (Hep & Hdp & Hfull).
    destruct (wellFormed_canonical false ma ea Wa) as (Hea & Hda & _).
    destruct (Z.compare_spec ep ea) as [Heq|Hl|Hg]; [|discriminate|].
    + subst ea. rewrite Z.min_id, Z.sub_diag. cbn [Z.pow].
      rewrite Pos.compare_cont_spec in Hlt. cbn [Pos.switch_Eq] in Hlt.
      destruct (Pos.compare_spec mp ma) as [E|E|E]; try discriminate; lia.
    + rewrite Z.min_r by lia. rewrite Z.sub_diag. cbn [Z.pow].
      pose proof (digits2_pos_lower mp) as Hlo.
      rewrite (Hfull ltac:(lia)) in Hlo. change (2 ^ (53 - 1)) with (2 ^ 52) in Hlo.
      pose proof (wellFormed_mantissa false ma ea Wa) as Hhi.
      assert (Hpow : 2 <= 2 ^ (ep - ea)).
      { change 2 with (2 ^ 1) at 1. apply Z.pow_le_mono_r; lia. }
      change (2 ^ 53) with (2 * 2 ^ 52) in Hhi.
      nia.
Qed.

(** An amount that is a number and passes the guard [amount <= 0] is
    positive. *)
Lemma not_leb_zero_positive (a : number) (q : Q) :
  Number.exactValue a = Some q -> (a <=? 0)%num = false ->
  (0 <? a)%num = true.
Proof.
  intros Hq. destruct a as [s|s| |s m e]; try discriminate;
    destruct s; try discriminate; reflexivity.
Qed.

Lemma positive_nonneg (a : number) :
  (0 <? a)%num = true -> (0 <=? a)%num = true.
Proof.
  destruct a as [s|s| |s m e]; try discriminate;
    destruct s; try discriminate; reflexivity.
Qed.

End Signs.

Lemma balancesNonNegative64_write (s : binary64.Store) (u : string)
    (bal : binary64.Balance) (tx : binary64.Transaction)
    (f : list (binary64.Event * string) -> list (binary64.Event * string)) :
  binary64.balancesNonNegative s ->
  (0 <=? binary64.available bal)%num = true ->
  (0 <=? binary64.pending bal)%num = true ->
  binary64.balancesNonNegative
    (binary64.set_published f
       (binary64.set_transaction (fun l => l ++ [tx])
          (binary64.set_balance <[u := bal]> s))).
Proof.
  intros Hs Ha Hp. unfold binary64.balancesNonNegative. cbn.
  apply map_Forall_insert_2; [now split | exact Hs].
Qed.

(** X27. The guards do protect the invariant from every amount that is a
    finite number.  From a store whose balances are all non-negative (and
    whose [pending] values are binary64 numbers), the store left by
    [addFunds], [reserveFunds], [releasePending], [refundToCreator] and
    [getBalance], called with any finite amount and whether the call
    returns or throws, again has [available >= 0] and [pending >= 0] in
    every row, rounding included. *)
Theorem ledger_keeps_balances_non_negative_for_finite_amounts
    (s : binary64.Store) (u c d : string) (oc od : option string)
    (a : number) (q : Q) :
  Number.wellFormed a -> Number.exactValue a = Some q ->
  binary64.balancesNonNegative s -> binary64.balancesWellFormed s ->
  binary64.balancesNonNegative
    (binary64.storeAfter (binary64.balanceService.addFunds u a oc od s))
  /\ binary64.balancesNonNegative
       (binary64.storeAfter
          (binary64.balanceService.reserveFunds u a c d s))
  /\ binary64.balancesNonNegative
       (binary64.storeAfter
          (binary64.balanceService.releasePending u a c d s))
  /\ binary64.balancesNonNegative
       (binary64.storeAfter
          (binary64.balanceService.refundToCreator u a c d s))
  /\ binary64.balancesNonNegative
       (binary64.storeAfter (binary64.balanceService.getBalance u s)).
Proof.
  intros Wa Hq Hs Hwf.
  assert (Hget : binary64.balancesNonNegative
                   (binary64.storeAfter
                      (binary64.balanceService.getBalance u s))).
  { unfold binary64.balanceService.getBalance, binary64.bind,
      binary64.prisma.balance.findUnique.
    destruct (binary64.balance s !! u) as [b|] eqn:Hb; [exact Hs|].
    unfold binary64.prisma.balance.create. cbn. rewrite Hb. cbn.
    apply map_Forall_insert_2; [now split | exact Hs]. }
  destruct (a <=? 0)%num eqn:Hguard.
  - (* rejected before any storage access *)
    unfold binary64.balanceService.addFunds,
      binary64.balanceService.reserveFunds,
      binary64.balanceService.releasePending,
      binary64.balanceService.refundToCreator.
    rewrite Hguard. unfold binary64.throw. cbn [binary64.storeAfter].
    split; [exact Hs|]. split; [exact Hs|]. split; [exact Hs|].
    split; [exact Hs | exact Hget].
  - pose proof (not_leb_zero_positive a q Hq Hguard) as Ha.
    pose proof (positive_nonneg a Ha) as Ha0.
    split; [|split; [|split; [|split; [|exact Hget]]]].
    + rewrite (addFunds64_ok s u oc od a Hguard). cbv zeta.
      cbn [binary64.storeAfter].
      destruct (binary64.balance s !! u) as [b|] eqn:Hb.
      * destruct (Hs u b Hb) as [Hav Hpe].
        apply balancesNonNegative64_write; [exact Hs | | exact Hpe].
        now apply add_nonneg.
      * apply balancesNonNegative64_write; [exact Hs | exact Ha0 |].
        reflexivity.
    + rewrite (reserveFunds64_ok s u c d a Hguard). cbv zeta.
      cbn [binary64.storeAfter].
      destruct (binary64.balance s !! u) as [b|] eqn:Hb; cbn [default].
      * destruct (Hs u b Hb) as [Hav Hpe].
        apply balancesNonNegative64_write; [exact Hs | exact Hav |].
        now apply add_nonneg.
      * apply balancesNonNegative64_write; [exact Hs | reflexivity |].
        now apply add_nonneg.
    + destruct (binary64.balance s !! u) as [b|] eqn:Hb.
      * destruct (Hs u b Hb) as [Hav Hpe].
        destruct (binary64.pending b <? a)%num eqn:Hlt.
        -- unfold binary64.balanceService.releasePending, binary64.bind,
             binary64.prisma.transaction_,
             binary64.prisma.balance.findUnique.
           rewrite Hguard, Hb, Hlt. exact Hs.
        -- rewrite (releasePending64_ok s u c d a b Hguard Hb Hlt).
           apply balancesNonNegative64_write; [exact Hs | |].
           ++ now apply add_nonneg.
           ++ apply (sub_nonneg _ a q); try assumption.
              exact (Hwf u b Hb).
      * unfold binary64.balanceService.releasePending, binary64.bind,
          binary64.prisma.transaction_, binary64.prisma.balance.findUnique.
        rewrite Hguard, Hb. exact Hs.
    + rewrite (refundToCreator64_ok s u c d a Hguard). cbv zeta.
      cbn [binary64.storeAfter].
      destruct (binary64.balance s !! u) as [b|] eqn:Hb.
      * destruct (Hs u b Hb) as [Hav Hpe].
        apply balancesNonNegative64_write; [exact Hs | | exact Hpe].
        now apply add_nonneg.
      * apply balancesNonNegative64_write; [exact Hs | exact Ha0 |].
        reflexivity.
Qed.

Lemma fractionalStore_well_formed :
  binary64.balancesWellFormed fractionalStore.
Proof.
  intros k b Hk. unfold fractionalStore in Hk. cbn in Hk.
  apply lookup_singleton_Some in Hk. destruct Hk as [_ <-]. reflexivity.
Defined.

Lemma ledger_keeps_balances_non_negative_for_finite_amounts_witness :
  binary64.balancesNonNegative
    (binary64.storeAfter
       (binary64.balanceService.releasePending "ed-1" (Number.decimal 2 10)
          "camp-1" "payout" fractionalStore)).
Proof.
  apply (ledger_keeps_balances_non_negative_for_finite_amounts
           fractionalStore "ed-1" "camp-1" "payout" None None
           (Number.decimal 2 10)
           (7205759403792794 # 36028797018963968));
    [ reflexivity | reflexivity | exact fractionalStore_non_negative
    | exact fractionalStore_well_formed ].
Defined.

(** ** Reconciliation with the log *)



(** ** Prize distribution *)

Lemma reserveFunds_effect (s : Store) (u c d : string) (a : Z) :
  0 < a ->
  exists r s1,
    balanceService.reserveFunds u a c d s = Ok r s1
    /\ (forall v, pendingOf s1 v
                  = pendingOf s v + (if String.eqb u v then a else 0))
    /\ (forall v, availableOf s1 v = availableOf s v)
    /\ transaction s1
       = transaction s ++
           [mkTransaction (length (transaction s)) u (Some c) a RESERVATION d]
    /\ snd r = mkTransaction (length (transaction s)) u (Some c) a
                             RESERVATION d
    /\ published s1 = published s ++ [(reserved "" u c a, SERVICE_NAME)]
    /\ leaderboardEntry s1 = leaderboardEntry s
    /\ prizeDistribution s1 = prizeDistribution s
    /\ auditLog s1 = auditLog s.
Proof.
  intros Ha. rewrite (reserveFunds_ok s u c d a Ha). cbv zeta.
  eexists _, _. split; [reflexivity|].
  split; [|split; [|repeat split]].
  - intros v. unfold pendingOf. cbn.
    destruct (String.eqb_spec u v) as [->|Hne].
    + rewrite lookup_insert_eq. destruct (balance s !! v); cbn; lia.
    + rewrite lookup_insert_ne by exact Hne. lia.
  - intros v. unfold availableOf. cbn.
    destruct (decide (u = v)) as [->|Hne].
    + rewrite lookup_insert_eq. destruct (balance s !! v); reflexivity.
    + now rewrite lookup_insert_ne.
Qed.

Lemma distributeLoop_awards (c : string) (lb : list LeaderboardEntry)
    (prizes : list PrizeDistribution) :
  forall (acc : list prizeService.Distributed) (s : Store),
  exists s' new,
    prizeService.distributeLoop c lb prizes acc s
      = Ok (acc ++ expectedAwards lb prizes) s'
    /\ (forall v, pendingOf s' v
                  = pendingOf s v + awardedTo v (expectedAwards lb prizes))
    /\ (forall v, availableOf s' v = availableOf s v)
    /\ transaction s' = transaction s ++ new
    /\ map txRow new = map (awardRow c) (expectedAwards lb prizes)
    /\ leaderboardEntry s' = leaderboardEntry s
    /\ prizeDistribution s' = prizeDistribution s.
Proof.
  induction prizes as [|prize rest IH]; intros acc s.
  - exists s, []. cbn. rewrite !app_nil_r.
    repeat split; intros; lia.
  - cbn [prizeService.distributeLoop expectedAwards].
    destruct (List.find _ lb) as [entry|]; [|apply IH].
    destruct (0 <? pd_reward prize) eqn:Hpos.
    + apply Z.ltb_lt in Hpos.
      destruct (reserveFunds_effect s (le_editorId entry) c
                  ("Prize: " +:+ pd_label prize +:+ " (Position #"
                     +:+ pretty (pd_position prize) +:+ ")")
                  (pd_reward prize) Hpos)
        as (r & s1 & Hrun & Hp1 & Ha1 & Ht1 & _ & _ & Hl1 & Hc1 & _).
      set (d := prizeService.mkDistributed (pd_position prize)
                  (le_editorId entry) (pd_reward prize) (pd_label prize)).
      destruct (IH (acc ++ [d])
                   (set_published
                      (fun l => l ++ [(prizeDistributed c (le_editorId entry)
                                         (pd_position prize) (pd_reward prize)
                                         (le_submissionId entry),
                                       SERVICE_NAME)]) s1))
        as (s' & new & Hloop & Hp & Ha & Ht & Hrows & Hl & Hc).
      exists s', (mkTransaction (length (transaction s)) (le_editorId entry)
                    (Some c) (pd_reward prize) RESERVATION
                    ("Prize: " +:+ pd_label prize +:+ " (Position #"
                       +:+ pretty (pd_position prize) +:+ ")") :: new).
      split; [|split; [|split; [|split; [|split; [|split]]]]].
      * unfold bind at 1. unfold tryCatch, bind at 1. rewrite Hrun.
        unfold bind, publisher.publish, ret. cbv beta iota.
        unfold bind in Hloop. rewrite Hloop.
        now rewrite <- app_assoc.
      * intros v. rewrite Hp. unfold pendingOf at 1. cbn [balance set_published].
        change (default 0 (pending <$> balance s1 !! v)) with (pendingOf s1 v).
        rewrite Hp1. cbn [awardedTo foldr prizeService.d_editorId
                          prizeService.d_amount d].
        unfold awardedTo. lia.
      * intros v. rewrite Ha. unfold availableOf at 1.
        cbn [balance set_published]. apply Ha1.
      * rewrite Ht. cbn [transaction set_published]. rewrite Ht1.
        now rewrite <- app_assoc.
      * cbn [map]. now rewrite Hrows.
      * rewrite Hl. exact Hl1.
      * rewrite Hc. exact Hc1.
    + apply Z.ltb_ge in Hpos.
      destruct (IH acc s) as (s' & new & Hloop & Hrest).
      exists s', new. split; [|exact Hrest].
      unfold bind at 1. unfold tryCatch, bind at 1.
      unfold balanceService.reserveFunds. amount_not_positive (pd_reward prize).
      unfold throw, ret. unfold bind in Hloop. exact Hloop.
Qed.

Lemma expectedAwards_sound (lb : list LeaderboardEntry)
    (cfg : list PrizeDistribution) :
  Forall (fun d =>
            0 < prizeService.d_amount d
            /\ exists prize entry,
                 prize ∈ cfg /\ entry ∈ lb
                 /\ le_rank entry = pd_position prize
                 /\ d = prizeService.mkDistributed (pd_position prize)
                          (le_editorId entry) (pd_reward prize)
                          (pd_label prize))
         (expectedAwards lb cfg)
  /\ (length (expectedAwards lb cfg) <= length cfg)%nat.
Proof.
  induction cfg as [|prize rest [IH IHlen]]; cbn [expectedAwards].
  - split; [constructor | reflexivity].
  - assert (Hrest : Forall (fun d =>
                      0 < prizeService.d_amount d
                      /\ exists prize0 entry,
                           prize0 ∈ prize :: rest /\ entry ∈ lb
                           /\ le_rank entry = pd_position prize0
                           /\ d = prizeService.mkDistributed
                                    (pd_position prize0) (le_editorId entry)
                                    (pd_reward prize0) (pd_label prize0))
                      (expectedAwards lb rest)).
    { eapply Forall_impl; [exact IH|]. cbn.
      intros d (Hpos & p & e & Hp & He & Hr & Hd).
      split; [exact Hpos|]. exists p, e. repeat split; try assumption.
      now right. }
    destruct (List.find _ lb) as [entry|] eqn:Hfind.
    + destruct (0 <? pd_reward prize) eqn:Hpos.
      * split; [|cbn; lia]. constructor; [|exact Hrest].
        apply find_some in Hfind. destruct Hfind as [Hin Hrank].
        split; [cbn; now apply Z.ltb_lt|].
        exists prize, entry. repeat split.
        -- left.
        -- now apply list_elem_of_In.
        -- now apply Z.eqb_eq.
      * split; [exact Hrest | cbn; lia].
    + split; [exact Hrest | cbn; lia].
Qed.

Lemma distributePrizes_run (s : Store) (c : string) :
  exists awards s' new,
    prizeService.distributePrizes c s = Ok awards s'
    /\ awards = expectedAwards (leaderboardOf c s) (prizeConfigOf c s)
    /\ Forall (fun d =>
                 0 < prizeService.d_amount d
                 /\ exists prize entry,
                      prize ∈ prizeConfigOf c s /\ entry ∈ leaderboardOf c s
                      /\ le_rank entry = pd_position prize
                      /\ d = prizeService.mkDistributed (pd_position prize)
                               (le_editorId entry) (pd_reward prize)
                               (pd_label prize)) awards
    /\ (length awards <= length (prizeConfigOf c s))%nat
    /\ (forall v, pendingOf s' v = pendingOf s v + awardedTo v awards)
    /\ (forall v, availableOf s' v = availableOf s v)
    /\ transaction s' = transaction s ++ new
    /\ map txRow new = map (awardRow c) awards
    /\ leaderboardEntry s' = leaderboardEntry s
    /\ prizeDistribution s' = prizeDistribution s.
Proof.
  destruct (expectedAwards_sound (leaderboardOf c s) (prizeConfigOf c s))
    as [Hsound Hlen].
  unfold prizeService.distributePrizes, bind,
    prisma.prizeDistribution.findMany, prisma.leaderboardEntry.findMany.
  fold (prizeConfigOf c s). fold (leaderboardOf c s).
  destruct (Nat.eqb_spec (length (prizeConfigOf c s)) 0) as [Hzero|Hnz].
  - apply length_zero_iff_nil in Hzero.
    exists [], s, []. rewrite Hzero in *. cbn. rewrite app_nil_r.
    repeat split; try constructor; intros; lia.
  - destruct (distributeLoop_awards c (leaderboardOf c s) (prizeConfigOf c s)
                [] s)
      as (s' & new & Hloop & Hp & Ha & Ht & Hrows & Hl & Hc).
    exists (expectedAwards (leaderboardOf c s) (prizeConfigOf c s)), s', new.
    repeat split; assumption.
Qed.





(** ** Relating the stores before and after a computation *)

Section Relating.
Context {A B : Type} (R : Store -> Store -> Prop).
Hypothesis R_refl : forall s, R s s.
Hypothesis R_trans : forall s1 s2 s3, R s1 s2 -> R s2 s3 -> R s1 s3.

Lemma relates_ret (a : A) : relates R (ret a).
Proof. intros s. apply R_refl. Qed.

Lemma relates_throw (e : AppError) : relates R (@throw A e).
Proof. intros s. apply R_refl. Qed.

Lemma relates_bind (m : M A) (k : A -> M B) :
  relates R m -> (forall a, relates R (k a)) -> relates R (bind m k).
Proof.
  intros Hm Hk s. unfold bind. specialize (Hm s).
  destruct (m s) as [a s'|e s']; cbn in *.
  - eapply R_trans; [exact Hm | apply Hk].
  - exact Hm.
Qed.

Lemma relates_tryCatch (m : M A) (h : AppError -> M A) :
  relates R m -> (forall e, relates R (h e)) -> relates R (tryCatch m h).
Proof.
  intros Hm Hh s. unfold tryCatch. specialize (Hm s).
  destruct (m s) as [a s'|e s']; cbn in *.
  - exact Hm.
  - eapply R_trans; [exact Hm | apply Hh].
Qed.

End Relating.

Lemma frameOnly_refl (s : Store) : frameOnly s s.
Proof. repeat split. Qed.

Lemma frameOnly_trans (s1 s2 s3 : Store) :
  frameOnly s1 s2 -> frameOnly s2 s3 -> frameOnly s1 s3.
Proof.
  intros (H1 & H2 & H3 & H4) (H1' & H2' & H3' & H4').
  repeat split; congruence.
Qed.

Lemma appends_refl (Q : Transaction -> Prop) (s : Store) : appends Q s s.
Proof.
  repeat split. exists []. split; [now rewrite app_nil_r | constructor].
Qed.

Lemma appends_trans (Q : Transaction -> Prop) (s1 s2 s3 : Store) :
  appends Q s1 s2 -> appends Q s2 s3 -> appends Q s1 s3.
Proof.
  intros (Ha & Hp & n1 & Ht & Hq) (Ha' & Hp' & n2 & Ht' & Hq').
  split; [congruence|]. split; [congruence|].
  exists (n1 ++ n2). split.
  - rewrite Ht', Ht. now rewrite <- app_assoc.
  - now apply Forall_app.
Qed.

Lemma frameOnly_appends (Q : Transaction -> Prop) (s s' : Store) :
  frameOnly s s' -> appends Q s s'.
Proof.
  intros (Hb & Ht & Ha & Hp). split; [exact Ha|]. split; [exact Hp|].
  exists []. split; [now rewrite app_nil_r | constructor].
Qed.

Lemma frame_publish (e : Event * string) :
  relates frameOnly (publisher.publish e).
Proof. intros s. repeat split. Qed.

Lemma frame_leaderboard_update (id : nat)
    (f : LeaderboardEntry -> LeaderboardEntry) :
  relates frameOnly (prisma.leaderboardEntry.update id f).
Proof.
  intros s. unfold prisma.leaderboardEntry.update.
  destruct (existsb _ _); repeat split.
Qed.

Lemma frame_rerank (entries : list LeaderboardEntry) (i : Z) :
  relates frameOnly (prizeService.rerank entries i).
Proof.
  revert i. induction entries as [|e entries IH]; intros i.
  - apply relates_ret, frameOnly_refl.
  - cbn [prizeService.rerank].
    apply (relates_bind frameOnly frameOnly_trans).
    + apply frame_leaderboard_update.
    + intros _. apply IH.
Qed.

Lemma frame_finalizeLeaderboard (c : string) :
  relates frameOnly (prizeService.finalizeLeaderboard c).
Proof.
  unfold prizeService.finalizeLeaderboard.
  apply (relates_bind frameOnly frameOnly_trans).
  - intros s. repeat split.
  - intros entries. apply (relates_bind frameOnly frameOnly_trans).
    + apply frame_rerank.
    + intros _. apply relates_ret, frameOnly_refl.
Qed.

Lemma relates_frame {A} (R : Store -> Store -> Prop) (m : M A) :
  (forall s s', frameOnly s s' -> R s s') ->
  relates frameOnly m -> relates R m.
Proof. intros HR Hm s. apply HR, Hm. Qed.

(** What the two pending-moving ledger operations do to the log. *)
Lemma appends_reserveFunds u a c d :
  relates (appends reservationOrPayout) (balanceService.reserveFunds u a c d).
Proof.
  intros s. destruct (Z_lt_le_dec 0 a) as [Ha|Ha].
  - destruct (reserveFunds_effect s u c d a Ha)
      as (r & s1 & -> & _ & _ & Ht & _ & _ & _ & Hc & Hl). cbn.
    split; [exact Hl|]. split; [exact Hc|].
    eexists. split; [exact Ht|]. repeat constructor.
  - unfold balanceService.reserveFunds. amount_not_positive a.
    apply appends_refl.
Qed.

Lemma appends_releasePending u a c d :
  relates (appends reservationOrPayout)
          (balanceService.releasePending u a c d).
Proof.
  intros s. destruct (Z_lt_le_dec 0 a) as [Ha|Ha].
  - destruct (balance s !! u) as [b|] eqn:Hb.
    + destruct (Z_lt_le_dec (pending b) a) as [Hp|Hp].
      * rewrite (releasePending_insufficient s u c d a b) by assumption.
        apply appends_refl.
      * rewrite (releasePending_ok s u c d a b) by assumption. cbn.
        repeat split. eexists. split; [reflexivity|].
        constructor; [now right | constructor].
    + rewrite releasePending_missing by assumption. apply appends_refl.
  - rewrite releasePending_invalid by exact Ha. apply appends_refl.
Qed.

(** ** Relations kept by the batch operations *)

Section BatchSteps.
Context (R : Store -> Store -> Prop).
Hypothesis R_refl : forall s, R s s.
Hypothesis R_trans : forall s1 s2 s3, R s1 s2 -> R s2 s3 -> R s1 s3.
Hypothesis R_frame : forall s s', frameOnly s s' -> R s s'.

Section Releases.
Hypothesis R_release :
  forall u a c d, relates R (balanceService.releasePending u a c d).

Lemma relates_releaseLoop (c title : string)
    (rel pend : campaignClosure.JsMap) :
  relates R (campaignClosure.releaseLoop c title rel pend).
Proof.
  induction pend as [|[k p] pend IH].
  - now apply relates_ret.
  - cbn [campaignClosure.releaseLoop]. cbv zeta.
    apply (relates_bind R R_trans).
    + destruct (0 <? _).
      * apply (relates_tryCatch R R_trans).
        -- apply (relates_bind R R_trans); [apply R_release|].
           intros _. now apply relates_ret.
        -- intros e. now apply relates_ret.
      * now apply relates_ret.
    + intros here. apply (relates_bind R R_trans); [exact IH|].
      intros others. now apply relates_ret.
Qed.

Lemma relates_releasePendingStep (c title : string) :
  relates R (campaignClosure.releasePendingStep c title).
Proof.
  unfold campaignClosure.releasePendingStep.
  apply (relates_bind R R_trans).
  - intros s. apply R_refl.
  - intros pendingTransactions. cbv zeta.
    apply (relates_bind R R_trans).
    + intros s. apply R_refl.
    + intros existingPayouts. apply relates_releaseLoop.
Qed.

Lemma relates_payoutLoop (c : string)
    (payments : list payoutService.EditorPayment) :
  forall results, relates R (payoutService.payoutLoop c payments results).
Proof.
  induction payments as [|payment rest IH]; intros results.
  - now apply relates_ret.
  - cbn [payoutService.payoutLoop].
    apply (relates_bind R R_trans).
    + apply (relates_tryCatch R R_trans).
      * apply (relates_bind R R_trans); [apply R_release|].
        intros r. now apply relates_ret.
      * intros e. now apply relates_ret.
    + intros results'. apply IH.
Qed.

Lemma relates_calculateCampaignPayments (fee : Q)
    (campaign : option payoutService.CampaignData)
    (clips : payoutService.ClipsResponse) (c : string) :
  relates R (payoutService.calculateCampaignPayments fee campaign clips c).
Proof.
  intros s. unfold payoutService.calculateCampaignPayments, bind,
    payoutService.fetchCampaignData, payoutService.fetchApprovedClips.
  destruct campaign; [destruct clips|]; apply R_refl.
Qed.

Lemma relates_processPayouts (fee : Q)
    (campaign : option payoutService.CampaignData)
    (clips : payoutService.ClipsResponse) (c : string) :
  relates R (payoutService.processPayouts fee campaign clips c).
Proof.
  unfold payoutService.processPayouts.
  apply (relates_bind R R_trans).
  - apply relates_calculateCampaignPayments.
  - intros payments. destruct (Nat.eqb _ _); [now apply relates_ret|].
    apply (relates_bind R R_trans); [apply relates_payoutLoop|].
    intros results. now apply relates_ret.
Qed.

End Releases.

Section Prizes.
Hypothesis R_reserve :
  forall u a c d, relates R (balanceService.reserveFunds u a c d).

Lemma relates_distributeLoop (c : string) (lb : list LeaderboardEntry)
    (prizes : list PrizeDistribution) :
  forall acc, relates R (prizeService.distributeLoop c lb prizes acc).
Proof.
  induction prizes as [|prize rest IH]; intros acc.
  - now apply relates_ret.
  - cbn [prizeService.distributeLoop].
    destruct (List.find _ lb) as [entry|]; [|apply IH].
    apply (relates_bind R R_trans).
    + apply (relates_tryCatch R R_trans).
      * apply (relates_bind R R_trans); [apply R_reserve|].
        intros _. apply (relates_bind R R_trans).
        -- apply (relates_frame R _ R_frame), frame_publish.
        -- intros _. now apply relates_ret.
      * intros e. now apply relates_ret.
    + intros acc'. apply IH.
Qed.

Lemma relates_distributePrizes (c : string) :
  relates R (prizeService.distributePrizes c).
Proof.
  unfold prizeService.distributePrizes.
  apply (relates_bind R R_trans).
  - intros s. apply R_refl.
  - intros cfg. destruct (Nat.eqb _ _); [now apply relates_ret|].
    apply (relates_bind R R_trans).
    + intros s. apply R_refl.
    + intros lb. apply relates_distributeLoop.
Qed.

End Prizes.

Section Saga.
Hypothesis R_release :
  forall u a c d, relates R (balanceService.releasePending u a c d).
Hypothesis R_reserve :
  forall u a c d, relates R (balanceService.reserveFunds u a c d).
Hypothesis R_refund :
  forall u a c d, relates R (balanceService.refundToCreator u a c d).
Hypothesis R_audit : forall u a d, relates R (logAudit u a d).

Lemma relates_handleCampaignEnded (c : string)
    (d : campaignClosure.CampaignClosureData) :
  relates R (campaignClosure.handleCampaignEnded c d).
Proof.
  unfold campaignClosure.handleCampaignEnded.
  apply (relates_tryCatch R R_trans);
    [|intros e; now apply relates_throw].
  apply (relates_bind R R_trans).
  { destruct (_ || _); [|now apply relates_ret].
    apply (relates_bind R R_trans).
    - apply (relates_frame R _ R_frame), frame_finalizeLeaderboard.
    - intros _. apply (relates_bind R R_trans).
      + now apply relates_distributePrizes.
      + intros _. now apply relates_ret. }
  intros _. apply (relates_bind R R_trans).
  { now apply relates_releasePendingStep. }
  intros _. cbv zeta. apply (relates_bind R R_trans).
  { destruct (_ && _); [|now apply relates_ret].
    apply (relates_bind R R_trans); [apply R_refund|].
    intros _. now apply relates_ret. }
  intros _. apply R_audit.
Qed.

Lemma relates_handleClipApproved (clip c u : string) (a : Z) :
  relates R (clipApproval.handleClipApproved clip c u a).
Proof.
  unfold clipApproval.handleClipApproved.
  apply (relates_tryCatch R R_trans);
    [|intros e; now apply relates_throw].
  apply (relates_bind R R_trans); [apply R_reserve|].
  intros r. apply (relates_bind R R_trans).
  - apply (relates_frame R _ R_frame), frame_publish.
  - intros _. apply (relates_bind R R_trans); [apply R_audit|].
    intros _. now apply relates_ret.
Qed.

End Saga.

End BatchSteps.

(** ** Rows are never dropped *)

Lemma ledgerGrows_refl (s : Store) : ledgerGrows s s.
Proof. split; [exists []; now rewrite app_nil_r | auto]. Qed.

Lemma ledgerGrows_trans (s1 s2 s3 : Store) :
  ledgerGrows s1 s2 -> ledgerGrows s2 s3 -> ledgerGrows s1 s3.
Proof.
  intros [[n1 H1] B1] [[n2 H2] B2]. split.
  - exists (n1 ++ n2). now rewrite H2, H1, app_assoc.
  - intros u Hu. apply B2, B1, Hu.
Qed.

Lemma ledgerGrows_frame (s s' : Store) : frameOnly s s' -> ledgerGrows s s'.
Proof.
  intros (Hb & Ht & _). split.
  - exists []. now rewrite Ht, app_nil_r.
  - intros u. now rewrite Hb.
Qed.

(** One ledger write: a row is inserted or replaced, a transaction is
    appended. *)
Lemma ledgerGrows_write (s : Store) (u : string) (bal : Balance)
    (tx : Transaction) (f : list (Event * string) -> list (Event * string)) :
  ledgerGrows s
    (set_published f
       (set_transaction (fun l => l ++ [tx])
          (set_balance <[u := bal]> s))).
Proof.
  split; [now exists [tx]|]. intros v Hv. cbn.
  destruct (decide (u = v)) as [->|Hne].
  - rewrite lookup_insert_eq. now eexists.
  - now rewrite lookup_insert_ne.
Qed.

Lemma ledgerGrows_releasePending u a c d :
  relates ledgerGrows (balanceService.releasePending u a c d).
Proof.
  intros s. destruct (Z_lt_le_dec 0 a) as [Ha|Ha].
  - destruct (balance s !! u) as [b|] eqn:Hb.
    + destruct (Z_lt_le_dec (pending b) a) as [Hp|Hp].
      * rewrite (releasePending_insufficient s u c d a b Ha Hb Hp).
        apply ledgerGrows_refl.
      * rewrite (releasePending_ok s u c d a b Ha Hb Hp).
        apply ledgerGrows_write.
    + rewrite (releasePending_missing s u c d a Ha Hb).
      apply ledgerGrows_refl.
  - rewrite (releasePending_invalid s u c d a Ha). apply ledgerGrows_refl.
Qed.

Lemma ledgerGrows_reserveFunds u a c d :
  relates ledgerGrows (balanceService.reserveFunds u a c d).
Proof.
  intros s. destruct (Z_lt_le_dec 0 a) as [Ha|Ha].
  - rewrite (reserveFunds_ok s u c d a Ha). apply ledgerGrows_write.
  - unfold balanceService.reserveFunds. amount_not_positive a.
    apply ledgerGrows_refl.
Qed.

Lemma ledgerGrows_refundToCreator u a c d :
  relates ledgerGrows (balanceService.refundToCreator u a c d).
Proof.
  intros s. destruct (Z_lt_le_dec 0 a) as [Ha|Ha].
  - rewrite (refundToCreator_ok s u c d a Ha). apply ledgerGrows_write.
  - unfold balanceService.refundToCreator. amount_not_positive a.
    apply ledgerGrows_refl.
Qed.

Lemma ledgerGrows_addFunds u a c d :
  relates ledgerGrows (balanceService.addFunds u a c d).
Proof.
  intros s. destruct (Z_lt_le_dec 0 a) as [Ha|Ha].
  - rewrite (addFunds_ok s u c d a Ha). apply ledgerGrows_write.
  - unfold balanceService.addFunds. amount_not_positive a.
    apply ledgerGrows_refl.
Qed.

Lemma ledgerGrows_getBalance u :
  relates ledgerGrows (balanceService.getBalance u).
Proof.
  intros s. destruct (balance s !! u) as [b|] eqn:Hb.
  - rewrite (getBalance_existing s u b Hb). apply ledgerGrows_refl.
  - rewrite (getBalance_absent s u Hb). split.
    + exists []. cbn. now rewrite app_nil_r.
    + intros v Hv. cbn. destruct (decide (u = v)) as [->|Hne].
      * rewrite lookup_insert_eq. now eexists.
      * now rewrite lookup_insert_ne.
Qed.

Lemma ledgerGrows_logAudit u a d : relates ledgerGrows (logAudit u a d).
Proof. intros s. split; [exists []; cbn; now rewrite app_nil_r | auto]. Qed.

Lemma ledgerGrows_create u c a ty d :
  relates ledgerGrows (prisma.transaction.create u c a ty d).
Proof. intros s. split; [eexists; reflexivity | auto]. Qed.

(** X10. No entry point of the service drops or rewrites a ledger row.
    Whatever the store and the arguments, and whether the call returns or
    throws, the store left by the closure saga, by payout processing, by
    prize distribution, by the [clip.approved] and [campaign.funded]
    consumers, by the funding route and by each of the five ledger
    operations still has every transaction row that was there, unchanged
    and at the same position (the log only grows at its end), and still
    has a balance row for every user that had one. *)
Theorem entry_points_never_drop_rows (s : Store) :
  (forall c d,
     ledgerGrows s (storeAfter (campaignClosure.handleCampaignEnded c d s)))
  /\ (forall fee campaign clips c,
        ledgerGrows s
          (storeAfter (payoutService.processPayouts fee campaign clips c s)))
  /\ (forall c,
        ledgerGrows s (storeAfter (prizeService.distributePrizes c s)))
  /\ (forall p, ledgerGrows s (storeAfter (handlers.onClipApproved p s)))
  /\ (forall p, ledgerGrows s (storeAfter (handlers.onCampaignFunded p s)))
  /\ (forall u a c,
        ledgerGrows s (storeAfter (fundingRoutes.fundCampaign u a c s)))
  /\ (forall u a c d,
        ledgerGrows s (storeAfter (balanceService.addFunds u a c d s))
        /\ ledgerGrows s (storeAfter (balanceService.getBalance u s)))
  /\ (forall u a c d,
        ledgerGrows s (storeAfter (balanceService.reserveFunds u a c d s))
        /\ ledgerGrows s
             (storeAfter (balanceService.releasePending u a c d s))
        /\ ledgerGrows s
             (storeAfter (balanceService.refundToCreator u a c d s))).
Proof.
  split; [|split; [|split; [|split; [|split; [|split; [|split]]]]]]; intros.
  - apply (relates_handleCampaignEnded ledgerGrows ledgerGrows_refl
             ledgerGrows_trans ledgerGrows_frame ledgerGrows_releasePending
             ledgerGrows_reserveFunds ledgerGrows_refundToCreator
             ledgerGrows_logAudit).
  - apply (relates_processPayouts ledgerGrows ledgerGrows_refl
             ledgerGrows_trans ledgerGrows_releasePending).
  - apply (relates_distributePrizes ledgerGrows ledgerGrows_refl
             ledgerGrows_trans ledgerGrows_frame ledgerGrows_reserveFunds).
  - unfold handlers.onClipApproved.
    apply (relates_bind _ ledgerGrows_trans).
    + apply (relates_handleClipApproved ledgerGrows ledgerGrows_refl
               ledgerGrows_trans ledgerGrows_frame ledgerGrows_reserveFunds
               ledgerGrows_logAudit).
    + intros _ s'. apply ledgerGrows_refl.
  - unfold handlers.onCampaignFunded.
    apply (relates_bind _ ledgerGrows_trans).
    + apply ledgerGrows_create.
    + intros _. apply (relates_bind _ ledgerGrows_trans).
      * apply ledgerGrows_logAudit.
      * intros _ s'. apply ledgerGrows_refl.
  - unfold fundingRoutes.fundCampaign.
    apply (relates_tryCatch _ ledgerGrows_trans).
    + apply (relates_bind _ ledgerGrows_trans).
      * destruct a as [a|]; [destruct (_ || _)|]; intros s';
          apply ledgerGrows_refl.
      * intros a'. apply (relates_bind _ ledgerGrows_trans).
        -- apply ledgerGrows_addFunds.
        -- intros r. apply (relates_bind _ ledgerGrows_trans).
           ++ apply ledgerGrows_logAudit.
           ++ intros _ s'. apply ledgerGrows_refl.
    + intros e s'. apply ledgerGrows_refl.
  - split; [apply ledgerGrows_addFunds | apply ledgerGrows_getBalance].
  - split; [apply ledgerGrows_reserveFunds|].
    split; [apply ledgerGrows_releasePending
           | apply ledgerGrows_refundToCreator].
Qed.


(** ** The closure saga as a whole *)

Lemma finalizeLeaderboard_returns (c : string) :
  returns (prizeService.finalizeLeaderboard c).
Proof.
  intros s. unfold prizeService.finalizeLeaderboard, bind,
    prisma.leaderboardEntry.findMany.
  rewrite rerank_run.
  - eexists _, _. reflexivity.
  - intros e He. rewrite stableSort_perm in He.
    apply list_elem_of_filter in He.
    apply list_elem_of_fmap. exists e. split; [reflexivity | apply He].
Qed.

Lemma distributePrizes_returns (c : string) :
  returns (prizeService.distributePrizes c).
Proof.
  intros s. destruct (distributePrizes_run s c) as (aw & s' & _ & H & _).
  now exists aw, s'.
Qed.

Lemma releasePendingStep_returns (c title : string) :
  returns (campaignClosure.releasePendingStep c title).
Proof.
  intros s. rewrite releasePendingStep_unfold.
  destruct (releaseLoop_appends c title
              (campaignClosure.sumByUser (campaignTxs c PAYOUT s))
              (campaignClosure.sumByUser (campaignTxs c RESERVATION s)) s)
    as (os & s1 & _ & H & _).
  now exists os, s1.
Qed.

Lemma appends_steps_before_refund (c : string)
    (d : campaignClosure.CampaignClosureData) (s : Store) :
  exists s2,
    appends reservationOrPayout s s2
    /\ campaignClosure.handleCampaignEnded c d s
       = ((if refundDue d then
             balanceService.refundToCreator (campaignClosure.createdBy d)
               (remainingBudget d) c
               ("Refund unused budget: " +:+ campaignClosure.title d) ;;
             ret tt
           else ret tt) ;;
          logAudit (campaignClosure.createdBy d) "CAMPAIGN_CLOSURE"
            [("campaignId", AStr c); ("refunded", ANum (remainingBudget d))])
           s2.
Proof.
  pose proof (appends_refl reservationOrPayout) as Hrefl.
  pose proof (appends_trans reservationOrPayout) as Htrans.
  assert (Hstep1 : exists s1,
            appends reservationOrPayout s s1
            /\ (if campaignClosure.enableLeaderboard d
                   || campaignClosure.hasLeaderboard d
                then prizeService.finalizeLeaderboard c ;;
                     prizeService.distributePrizes c ;; ret tt
                else ret tt) s = Ok tt s1).
  { destruct (_ || _).
    - destruct (finalizeLeaderboard_returns c s) as (es & sa & Hfin).
      destruct (distributePrizes_returns c sa) as (aw & sb & Hdis).
      exists sb. split.
      + apply (Htrans s sa sb).
        * apply frameOnly_appends.
          pose proof (frame_finalizeLeaderboard c s) as H.
          now rewrite Hfin in H.
        * pose proof (relates_distributePrizes _ Hrefl Htrans
                        (frameOnly_appends _) appends_reserveFunds c sa) as H.
          now rewrite Hdis in H.
      + unfold bind. rewrite Hfin, Hdis. reflexivity.
    - exists s. split; [apply Hrefl | reflexivity]. }
  destruct Hstep1 as (s1 & Happ1 & Hrun1).
  destruct (releasePendingStep_returns c (campaignClosure.title d) s1)
    as (os & s2 & Hrun2).
  exists s2. split.
  - apply (Htrans s s1 s2); [exact Happ1|].
    pose proof (relates_releasePendingStep _ Hrefl Htrans
                  appends_releasePending c (campaignClosure.title d) s1) as H.
    now rewrite Hrun2 in H.
  - unfold campaignClosure.handleCampaignEnded, tryCatch.
    unfold bind at 1. rewrite Hrun1.
    unfold bind at 1. rewrite Hrun2. cbv zeta.
    fold (remainingBudget d). fold (refundDue d).
    destruct (refundDue d) eqn:Hdue.
    + unfold refundDue in Hdue. apply andb_true_iff in Hdue.
      destruct Hdue as [Hpos _]. apply Z.ltb_lt in Hpos.
      unfold bind. rewrite refundToCreator_ok by exact Hpos. reflexivity.
    + reflexivity.
Qed.

Lemma filter_refund_none (new : list Transaction) :
  Forall reservationOrPayout new ->
  filter (fun t => tx_type t = REFUND) new = [].
Proof.
  induction 1 as [|t l Ht _ IH]; [reflexivity|].
  rewrite filter_cons_False; [exact IH|].
  destruct Ht as [Ht|Ht]; rewrite Ht; discriminate.
Qed.

Lemma handleCampaignEnded_run (c : string)
    (d : campaignClosure.CampaignClosureData) (s : Store) :
  exists s',
    campaignClosure.handleCampaignEnded c d s = Ok tt s'
    /\ refundRows s'
       = refundRows s ++
           (if refundDue d
            then [(campaignClosure.createdBy d, Some c, remainingBudget d,
                   REFUND)]
            else [])
    /\ auditLog s'
       = auditLog s ++
           [mkAuditLog (campaignClosure.createdBy d) "CAMPAIGN_CLOSURE"
              [("campaignId", AStr c);
               ("refunded", ANum (remainingBudget d))]].
Proof.
  destruct (appends_steps_before_refund c d s)
    as (s2 & (Haud & _ & new & Ht & Hnew) & Hrun).
  assert (Hrows : refundRows s2 = refundRows s).
  { unfold refundRows. rewrite Ht, filter_app, (filter_refund_none new Hnew).
    now rewrite app_nil_r. }
  rewrite Hrun. destruct (refundDue d) eqn:Hdue.
  - unfold refundDue in Hdue. apply andb_true_iff in Hdue.
    destruct Hdue as [Hpos _]. apply Z.ltb_lt in Hpos.
    unfold bind. rewrite refundToCreator_ok by exact Hpos. cbv zeta.
    eexists. split; [reflexivity|]. split.
    + unfold refundRows in *. cbn [transaction set_transaction set_auditLog
                                   set_published set_balance].
      rewrite filter_app, map_app, Hrows. reflexivity.
    + cbn. now rewrite Haud.
  - eexists. split; [reflexivity|]. split.
    + rewrite app_nil_r. exact Hrows.
    + cbn. now rewrite Haud.
Qed.

(** X12. [handleCampaignEnded] never throws, whatever the store and the
    campaign snapshot.  It appends exactly one REFUND row, for the creator,
    the campaign and the amount [totalBudget - spentBudget], when that
    amount is positive and the campaign is funded, and no REFUND row
    otherwise.  It always appends one audit row whose [refunded] field is
    [totalBudget - spentBudget], whether or not a refund was made. *)
Theorem handleCampaignEnded_refunds_when_due (c : string)
    (d : campaignClosure.CampaignClosureData) (s : Store) :
  exists s',
    campaignClosure.handleCampaignEnded c d s = Ok tt s'
    /\ refundRows s'
       = refundRows s ++
           (if (0 <? campaignClosure.totalBudget d
                       - campaignClosure.spentBudget d)
               && campaignClosure.isFunded d
            then [(campaignClosure.createdBy d, Some c,
                   campaignClosure.totalBudget d
                   - campaignClosure.spentBudget d, REFUND)]
            else [])
    /\ auditLog s'
       = auditLog s ++
           [mkAuditLog (campaignClosure.createdBy d) "CAMPAIGN_CLOSURE"
              [("campaignId", AStr c);
               ("refunded", ANum (campaignClosure.totalBudget d
                                  - campaignClosure.spentBudget d))]].
Proof. exact (handleCampaignEnded_run c d s). Qed.

(** X13. The saga keeps no record of a refund: when a refund is due
    ([totalBudget - spentBudget > 0] and the campaign funded), running
    [handleCampaignEnded] again with the same snapshot on the store the
    first run left refunds the creator a second time. *)
Theorem handleCampaignEnded_twice_refunds_twice (c : string)
    (d : campaignClosure.CampaignClosureData) (s : Store) :
  0 < campaignClosure.totalBudget d - campaignClosure.spentBudget d ->
  campaignClosure.isFunded d = true ->
  exists s1 s2,
    campaignClosure.handleCampaignEnded c d s = Ok tt s1
    /\ campaignClosure.handleCampaignEnded c d s1 = Ok tt s2
    /\ refundRows s2
       = refundRows s ++
           [(campaignClosure.createdBy d, Some c,
             campaignClosure.totalBudget d - campaignClosure.spentBudget d,
             REFUND);
            (campaignClosure.createdBy d, Some c,
             campaignClosure.totalBudget d - campaignClosure.spentBudget d,
             REFUND)].
Proof.
  intros Hpos Hfunded.
  assert (Hdue : refundDue d = true).
  { unfold refundDue, remainingBudget. rewrite Hfunded, andb_true_r.
    now apply Z.ltb_lt. }
  destruct (handleCampaignEnded_run c d s) as (s1 & Hrun1 & Hrows1 & _).
  destruct (handleCampaignEnded_run c d s1) as (s2 & Hrun2 & Hrows2 & _).
  rewrite Hdue in Hrows1, Hrows2.
  exists s1, s2. split; [exact Hrun1|]. split; [exact Hrun2|].
  rewrite Hrows2, Hrows1, <- app_assoc. reflexivity.
Qed.

Lemma handleCampaignEnded_twice_refunds_twice_witness :
  let d := campaignClosure.mkCampaignClosureData "camp-1" "creator-1"
             "Launch" 1000 400 true false false in
  exists s1 s2,
    campaignClosure.handleCampaignEnded "camp-1" d sampleStore = Ok tt s1
    /\ campaignClosure.handleCampaignEnded "camp-1" d s1 = Ok tt s2
    /\ balance s2 !! "creator-1" = Some (mkBalance "creator-1" 1200 0).
Proof.
  intros d.
  destruct (handleCampaignEnded_twice_refunds_twice "camp-1" d sampleStore)
    as (s1 & s2 & Hrun1 & Hrun2 & _); [cbn; lia | reflexivity |].
  exists s1, s2. split; [exact Hrun1|]. split; [exact Hrun2|].
  vm_compute in Hrun1. injection Hrun1 as <-.
  vm_compute in Hrun2. injection Hrun2 as <-.
  reflexivity.
Defined.

(** ** Clip approval *)



(** ** The payout calculator: bounds *)

Section PayoutBounds.
Import payoutService.
Local Open Scope Q_scope.















End PayoutBounds.

(** ** Campaign payments and payout processing *)

Section CampaignPayments.
Import payoutService.

Lemma calculateCampaignPayments_found (fee : Q) (campaign : CampaignData)
    (clips : ClipsResponse) (c : string) (s : Store) :
  calculateCampaignPayments fee (Some campaign) clips c s
  = Ok (map (paymentOf fee campaign) (clipsOf clips)) s.
Proof. destruct clips; reflexivity. Qed.



Lemma releasePending_outcome (s : Store) (u c d : string) (a : Z) :
  (0 < a
   /\ exists b,
        balanceService.releasePending u a c d s
        = Ok (mkBalance (bal_userId b) (available b + a) (pending b - a),
              mkTransaction (length (transaction s)) u (Some c) a PAYOUT d)
             (afterRelease u c d a b s))
  \/ (exists e, balanceService.releasePending u a c d s = Throw e s).
Proof.
  destruct (Z_lt_le_dec 0 a) as [Ha|Ha].
  - destruct (balance s !! u) as [b|] eqn:Hb.
    + destruct (Z_lt_le_dec (pending b) a) as [Hp|Hp].
      * right. eexists. now apply (releasePending_insufficient s u c d a b).
      * left. split; [exact Ha|]. exists b.
        now rewrite (releasePending_ok s u c d a b Ha Hb Hp).
    + right. eexists. now apply releasePending_missing.
  - right. eexists. now apply releasePending_invalid.
Qed.

Lemma payoutLoop_run (c : string) (payments : list EditorPayment) :
  forall (acc : list PayoutResult) (s : Store),
  exists res s' new,
    payoutLoop c payments acc s = Ok (acc ++ res) s'
    /\ (length res <= length payments)%nat
    /\ transaction s' = transaction s ++ new
    /\ map payoutRow new = map resultRow res
    /\ Forall (fun t => tx_campaignId t = Some c /\ tx_type t = PAYOUT) new.
Proof.
  induction payments as [|payment rest IH]; intros acc s.
  - exists [], s, []. cbn. rewrite !app_nil_r.
    repeat split; constructor.
  - cbn [payoutLoop]. unfold bind at 1. unfold tryCatch, bind at 1.
    destruct (releasePending_outcome s (ep_editorId payment) c
                ("Payout for clip " +:+ ep_clipId payment)
                (ep_netAmount payment))
      as [(Hpos & b & Hrun) | (e & Hrun)]; rewrite Hrun.
    + cbv beta iota delta [ret]. cbn [snd tx_id].
      set (r := mkPayoutResult (ep_editorId payment) (ep_netAmount payment)
                               (length (transaction s))).
      destruct (IH (acc ++ [r])
                   (afterRelease (ep_editorId payment) c
                      ("Payout for clip " +:+ ep_clipId payment)
                      (ep_netAmount payment) b s))
        as (res & s' & new & Hloop & Hlen & Ht & Hrows & Hall).
      exists (r :: res), s',
        (mkTransaction (length (transaction s)) (ep_editorId payment)
           (Some c) (ep_netAmount payment) PAYOUT
           ("Payout for clip " +:+ ep_clipId payment) :: new).
      split; [|split; [|split; [|split]]].
      * rewrite Hloop. now rewrite <- app_assoc.
      * cbn. lia.
      * rewrite Ht. cbn. now rewrite <- app_assoc.
      * cbn [map]. rewrite Hrows. reflexivity.
      * constructor; [split; reflexivity | exact Hall].
    + cbv beta iota delta [ret].
      destruct (IH acc s) as (res & s' & new & Hloop & Hlen & Hrest).
      exists res, s', new. split; [exact Hloop|].
      split; [cbn; lia | exact Hrest].
Qed.

(** X19. [processPayouts] throws not-found, leaving the store untouched,
    when the campaign is not found.  Once the campaign is found it never
    throws: with no approved clips it reports nothing processed and changes
    nothing; otherwise the reported count is the number of reported
    payments, at most one per clip; and the log gains exactly one PAYOUT
    row of the campaign per reported payment, in order, with the reported
    editor, amount and identifier (a payment whose [releasePending] call
    throws is logged and skipped). *)
Theorem processPayouts_reports_what_it_paid (fee : Q)
    (clips : ClipsResponse) (c : string) (s : Store) :
  processPayouts fee None clips c s
    = Throw (notFound ("Campaign " +:+ c +:+ " not found")) s
  /\ (forall campaign,
        clipsOf clips = [] ->
        processPayouts fee (Some campaign) clips c s = Ok (0%nat, []) s)
  /\ (forall campaign,
      exists results s' new,
        processPayouts fee (Some campaign) clips c s
          = Ok (length results, results) s'
        /\ (length results <= length (clipsOf clips))%nat
        /\ transaction s' = transaction s ++ new
        /\ map payoutRow new = map resultRow results
        /\ Forall (fun t => tx_campaignId t = Some c /\ tx_type t = PAYOUT)
                  new).
Proof.
  split; [reflexivity|]. split.
  - intros campaign Hnone. unfold processPayouts, bind.
    rewrite calculateCampaignPayments_found, Hnone. reflexivity.
  - intros campaign. unfold processPayouts, bind.
    rewrite calculateCampaignPayments_found.
    destruct (Nat.eqb_spec
                (length (map (paymentOf fee campaign) (clipsOf clips))) 0)
      as [Hz|Hnz].
    + exists [], s, []. cbn. rewrite app_nil_r.
      repeat split; try constructor. lia.
    + destruct (payoutLoop_run c
                  (map (paymentOf fee campaign) (clipsOf clips)) [] s)
        as (res & s' & new & Hloop & Hlen & Hrest).
      exists res, s', new. unfold bind in Hloop. rewrite Hloop.
      split; [reflexivity|]. split; [|exact Hrest].
      now rewrite length_map in Hlen.
Qed.

End CampaignPayments.

(** ** Transaction queries *)

Section TransactionQueries.
Import transactionService.







Lemma getTransactions_page (u : string) (limit offset : option nat)
    (s : Store) :
  getTransactions u limit offset s
  = Ok (mkTransactionPage
          (take (default 50%nat limit)
             (drop (default 0%nat offset)
                (newestFirst
                   (filter (fun t => tx_userId t = u) (transaction s)))))
          (length (filter (fun t => tx_userId t = u) (transaction s)))
          (default 50%nat limit) (default 0%nat offset)) s.
Proof. reflexivity. Qed.

(** X22. [getTransactions] never throws and changes nothing.  Its [total]
    is the number of the user's transactions whatever the page asked for;
    the page holds only the user's rows, [min limit (total - offset)] of
    them (50 and 0 when the arguments are omitted); and two consecutive
    pages, put together, are the page of their combined size. *)
Theorem getTransactions_pages (u : string) (s : Store) (n m k : nat) :
  let rows := filter (fun t => tx_userId t = u) (transaction s) in
  let page (limit offset : option nat) :=
    valueOf (mkTransactionPage [] 0 0 0)
            (getTransactions u limit offset s) in
  (forall limit offset,
     getTransactions u limit offset s = Ok (page limit offset) s
     /\ tp_total (page limit offset) = length rows
     /\ Forall (fun t => tx_userId t = u)
               (tp_transactions (page limit offset)))
  /\ length (tp_transactions (page (Some n) (Some k)))
     = Nat.min n (length rows - k)
  /\ length (tp_transactions (page None None)) = Nat.min 50 (length rows)
  /\ tp_transactions (page (Some n) (Some k))
       ++ tp_transactions (page (Some m) (Some (k + n)%nat))
     = tp_transactions (page (Some (n + m)%nat) (Some k))
  /\ tp_transactions (page (Some (length rows)) (Some 0%nat)) = rev rows.
Proof.
  cbv zeta. split; [|split; [|split; [|split]]].
  - intros limit offset. rewrite getTransactions_page. cbn [valueOf].
    split; [reflexivity|]. split; [reflexivity|].
    cbn [tp_transactions]. unfold newestFirst.
    apply Forall_take, Forall_drop, Forall_rev.
    apply Forall_forall. intros t Ht.
    apply list_elem_of_filter in Ht. apply Ht.
  - rewrite getTransactions_page. cbn [valueOf tp_transactions default
                                       from_option id].
    rewrite length_take, length_drop. unfold newestFirst.
    now rewrite length_rev.
  - rewrite getTransactions_page. cbn [valueOf tp_transactions default
                                       from_option id].
    rewrite length_take, drop_0. unfold newestFirst.
    now rewrite length_rev.
  - rewrite !getTransactions_page. cbn [valueOf tp_transactions default
                                        from_option id].
    rewrite <- drop_drop. apply take_take_drop.
  - rewrite getTransactions_page. cbn [valueOf tp_transactions default
                                       from_option id].
    rewrite drop_0. unfold newestFirst. apply take_ge.
    now rewrite length_rev.
Qed.

End TransactionQueries.

(** ** The funding route *)



(** ** The leaderboard: calculation and finalization *)

(** X24. In a leaderboard table with distinct row identifiers, and for
    whichever admissible answer [entries] its query gives (the campaign's
    rows by descending score, equal scores in any order),
    [finalizeLeaderboard] returns that list and stores rank [j + 1] for
    the entry at position [j] of it.  So an entry with a higher score gets
    a smaller rank, different entries get different ranks, ties included,
    and the rank of a row outside the campaign is left as it was; nothing
    but the leaderboard table changes. *)
Theorem finalizeLeaderboard_ranks_by_sorted_position (s : Store) (c : string)
    (entries : list LeaderboardEntry) :
  NoDup (map le_id (leaderboardEntry s)) ->
  scoreDescending c s entries ->
  exists s',
    prizeService.finalizeLeaderboardFrom entries s = Ok entries s'
    /\ (forall j e, entries !! j = Some e ->
          rankOfId (leaderboardEntry s') (le_id e) = Some (Z.of_nat j + 1))
    /\ (forall a b, a ∈ entries -> b ∈ entries ->
        exists ra rb,
          rankOfId (leaderboardEntry s') (le_id a) = Some ra
          /\ rankOfId (leaderboardEntry s') (le_id b) = Some rb
          /\ (le_score b < le_score a -> ra < rb)
          /\ (ra = rb -> a = b))
    /\ (forall id, id ∉ map le_id entries ->
          rankOfId (leaderboardEntry s') id
          = rankOfId (leaderboardEntry s) id)
    /\ frameOnly s s'.
Proof.
  intros Hnd Hdesc.
  destruct (finalizeLeaderboardFrom_run s c entries Hnd Hdesc)
    as (Hids & Hrun & Hpos & Hother).
  destruct Hdesc as [_ Hsorted].
  exists (set_leaderboardEntry (rerankRows entries 0) s).
  split; [exact Hrun|]. split; [exact Hpos|].
  split; [|split; [exact Hother | repeat split]].
  intros a b Ha Hb.
  apply list_elem_of_lookup in Ha, Hb.
  destruct Ha as [i Hi], Hb as [j Hj].
  exists (Z.of_nat i + 1), (Z.of_nat j + 1).
  split; [exact (Hpos i a Hi)|]. split; [exact (Hpos j b Hj)|]. split.
  - intros Hlt. destruct (Nat.lt_trichotomy i j) as [Hij|[Hij|Hij]].
    + lia.
    + subst j. rewrite Hi in Hj. injection Hj as ->. lia.
    + pose proof (StronglySorted_lookup _ _ j i b a Hsorted Hj Hi Hij) as H.
      cbn in H. lia.
  - intros Heq. assert (i = j) by lia. subst j. congruence.
Qed.

Lemma finalizeLeaderboard_ranks_by_sorted_position_witness :
  let swapped := [ boardRow 2 "ed-3" "clip-3" 30 9;
                   boardRow 1 "ed-2" "clip-2" 30 9;
                   boardRow 0 "ed-1" "clip-1" 10 9;
                   boardRow 3 "ed-4" "clip-4" 5 9 ] in
  exists s',
    prizeService.finalizeLeaderboardFrom swapped (sampleBoard 9 9 9 9)
      = Ok swapped s'
    /\ map (rankOfId (leaderboardEntry s')) [0; 1; 2; 3]%nat
       = [Some 3; Some 2; Some 1; Some 4].
Proof.
  cbv zeta.
  destruct (finalizeLeaderboard_ranks_by_sorted_position
              (sampleBoard 9 9 9 9) "camp-1"
              [ boardRow 2 "ed-3" "clip-3" 30 9;
                boardRow 1 "ed-2" "clip-2" 30 9;
                boardRow 0 "ed-1" "clip-1" 10 9;
                boardRow 3 "ed-4" "clip-4" 5 9 ]
              (sampleBoard_ids_distinct 9 9 9 9))
    as (s' & Hrun & _).
  - split.
    + etransitivity; [apply perm_swap|].
      pose proof (stableSort_perm (fun a b => le_score b <? le_score a)
                    (filter (fun e => le_campaignId e = "camp-1")
                            (leaderboardEntry (sampleBoard 9 9 9 9)))) as H.
      vm_compute in H. vm_compute. exact H.
    + repeat constructor; cbn; lia.
  - exists s'. split; [exact Hrun|].
    vm_compute in Hrun. injection Hrun as <-. reflexivity.
Defined.

Lemma StronglySorted_fmap {A B} (f : A -> B) (R : B -> B -> Prop)
    (l : list A) :
  StronglySorted (fun a b => R (f a) (f b)) l -> StronglySorted R (map f l).
Proof.
  induction 1 as [|x l Hs IH Hall]; cbn; constructor; [exact IH|].
  now apply Forall_map.
Qed.

Lemma upsertRanked_run (c : string)
    (scored : list (prizeService.ClipData * Z)) :
  forall (i : Z) (s : Store),
  exists entries s',
    prizeService.upsertRanked c scored i s = Ok entries s'
    /\ map le_rank entries
       = map (fun k => i + Z.of_nat k + 1) (seq 0 (length scored))
    /\ map le_score entries = map snd scored
    /\ map le_submissionId entries
       = map (fun cs => prizeService.clip_id (fst cs)) scored
    /\ frameOnly s s'.
Proof.
  induction scored as [|[clip score] rest IH]; intros i s.
  - exists [], s. repeat split.
  - cbn [prizeService.upsertRanked]. unfold bind at 1.
    unfold prisma.leaderboardEntry.upsert.
    destruct (List.find _ (leaderboardEntry s)) as [e|] eqn:Hfind;
      cbv beta iota zeta; unfold bind at 1.
    + match goal with
      | |- context [prizeService.upsertRanked c rest (i + 1) ?s1] =>
          destruct (IH (i + 1) s1)
            as (es & s' & Hrun & Hrank & Hscore & Hsub & Hframe)
      end.
      eexists _, s'. rewrite Hrun. cbv beta iota delta [ret].
      split; [reflexivity|]. cbn [map length seq le_rank le_score
                                  le_submissionId fst snd].
      apply find_some in Hfind. destruct Hfind as [_ Heq].
      apply String.eqb_eq in Heq.
      split; [|split; [|split]].
      * rewrite Hrank, <- seq_shift, map_map. f_equal; [lia|].
        apply map_ext. intros k. lia.
      * now rewrite Hscore.
      * now rewrite Hsub, Heq.
      * destruct Hframe as (H1 & H2 & H3 & H4). repeat split; assumption.
    + match goal with
      | |- context [prizeService.upsertRanked c rest (i + 1) ?s1] =>
          destruct (IH (i + 1) s1)
            as (es & s' & Hrun & Hrank & Hscore & Hsub & Hframe)
      end.
      eexists _, s'. rewrite Hrun. cbv beta iota delta [ret].
      split; [reflexivity|]. cbn [map length seq le_rank le_score
                                  le_submissionId fst snd].
      split; [|split; [|split]].
      * rewrite Hrank, <- seq_shift, map_map. f_equal; [lia|].
        apply map_ext. intros k. lia.
      * now rewrite Hscore.
      * now rewrite Hsub.
      * destruct Hframe as (H1 & H2 & H3 & H4). repeat split; assumption.
Qed.

Lemma entries_match_scored (entries : list LeaderboardEntry)
    (scored : list (prizeService.ClipData * Z)) :
  map le_score entries = map snd scored ->
  map le_submissionId entries
  = map (fun cs => prizeService.clip_id (fst cs)) scored ->
  map (fun e => (le_submissionId e, le_score e)) entries
  = map (fun cs => (prizeService.clip_id (fst cs), snd cs)) scored.
Proof.
  revert scored. induction entries as [|e es IH];
    intros [|cs scored] Hscore Hsub; try discriminate; [reflexivity|].
  cbn in *. injection Hscore as Hs1 Hs2. injection Hsub as Hb1 Hb2.
  rewrite Hs1, Hb1. f_equal. now apply IH.
Qed.

(** X25. [calculateLeaderboard] never throws and touches neither balances,
    transactions, the audit log nor the prize configuration.  It returns
    one entry per clip, each carrying the clip's score for the chosen
    metric, listed in non-increasing score order and ranked [1, 2, ..., N]
    in that order; with no clips it returns nothing. *)
Theorem calculateLeaderboard_ranks_by_score
    (clips : list prizeService.ClipData) (c : string)
    (metric : prizeService.LeaderboardMetric) (s : Store) :
  exists entries s',
    prizeService.calculateLeaderboard clips c metric s = Ok entries s'
    /\ map le_rank entries = map Z.of_nat (seq 1 (length clips))
    /\ StronglySorted (fun x y => y <= x) (map le_score entries)
    /\ map (fun e => (le_submissionId e, le_score e)) entries
       ≡ₚ map (fun clip => (prizeService.clip_id clip,
                             prizeService.scoreOf metric clip)) clips
    /\ frameOnly s s'.
Proof.
  unfold prizeService.calculateLeaderboard.
  destruct clips as [|clip clips].
  - exists [], s. split; [reflexivity|]. split; [reflexivity|].
    split; [constructor|]. split; [reflexivity | apply frameOnly_refl].
  - cbn [length Nat.eqb]. cbv zeta.
    set (scored := stableSort (fun a b => snd b <? snd a)
                     (map (fun clip0 => (clip0,
                                         prizeService.scoreOf metric clip0))
                          (clip :: clips))).
    assert (Hperm : scored ≡ₚ map (fun clip0 =>
                                     (clip0,
                                      prizeService.scoreOf metric clip0))
                                  (clip :: clips))
      by apply stableSort_perm.
    destruct (upsertRanked_run c scored 0 s)
      as (entries & s' & Hrun & Hrank & Hscore & Hsub & Hframe).
    assert (Hlen : length scored = S (length clips)).
    { rewrite Hperm. cbn. now rewrite length_map. }
    exists entries, s'. split; [exact Hrun|].
    split; [|split; [|split]].
    + rewrite Hrank, Hlen. cbn [length]. rewrite <- seq_shift, map_map.
      apply map_ext. intros k. lia.
    + rewrite Hscore. apply StronglySorted_fmap.
      apply (stableSort_desc_sorted snd).
    + rewrite (entries_match_scored entries scored Hscore Hsub).
      rewrite Hperm, map_map. reflexivity.
    + exact Hframe.
Qed.

(** ** Finalizing twice *)










